(** * lazygrid: model selection by cross-validation with a fit cache

    A shallow embedding of [lazygrid/model_selection.py].  Python objects
    live in a heap of attribute records that is threaded, together with the
    model database, through a state-and-exception monad; exceptions keep the
    state reached when they were raised, as they do in Python. *)

From Stdlib Require Import ZArith QArith.
From stdpp Require Import base option list gmap strings.

Local Open Scope Z_scope.
Local Open Scope string_scope.
Local Open Scope list_scope.

(** ** Python values *)

(** Values held by estimator parameters and fit parameters. *)
Inductive Value :=
  | VNone
  | VInt (z : Z)
  | VStr (s : string)
  | VBool (b : bool).

#[global] Instance Value_eq_dec : EqDecision Value.
Proof. solve_decision. Defined.

(** A numpy array is the sequence of its rows; a row is kept as an integer
    code, since no claim looks inside one. *)
Abbreviation Array := (list Z).

(** What a caller can pass where the code tests [isinstance(_, np.ndarray)]
    or [is not None]. *)
Inductive PyData :=
  | DNone
  | DArray (a : Array)
  | DList (a : Array).

Definition is_ndarray (d : PyData) : bool :=
  match d with DArray _ => true | _ => false end.

Definition is_not_None (d : PyData) : bool :=
  match d with DNone => false | _ => true end.

Definition rows_of (d : PyData) : Array :=
  match d with DNone => [] | DArray a => a | DList a => a end.

(** The record of one call to [fit]: the data, the labels and the keyword
    arguments it was given. *)
Abbreviation Training := (list Z * list Z * gmap string Value)%type.

(** ** Learners *)

(** A scikit-learn style object: which methods it has ([hasattr]), its
    constructor parameters ([get_params]) and whether it was fitted. *)
Record Estimator := {
  e_class : string;
  e_fit : bool;
  e_predict : bool;
  e_params : gmap string Value;
  e_trained : option Training
}.

(** A step of a [Pipeline]; its parameters are held by the pipeline under
    the names [step__parameter], as [Pipeline.get_params] reports them. *)
Record Step := {
  s_name : string;
  s_class : string;
  s_fit : bool;
  s_transform : bool;
  s_predict : bool;
  s_trained : option Training
}.

Record Pipeline := {
  p_steps : list Step;
  p_params : gmap string Value
}.

(** A keras [Sequential] or [Model]: its architecture, the seed its weights
    were last initialised from, and its last training. *)
Record Network := {
  n_arch : string;
  n_weights_seed : option Z;
  n_trained : option Training
}.

Inductive Kind :=
  | KKeras (n : Network)
  | KPipeline (p : Pipeline)
  | KOther (e : Estimator).

#[global] Instance Estimator_eq_dec : EqDecision Estimator.
Proof. solve_decision. Defined.
#[global] Instance Step_eq_dec : EqDecision Step.
Proof. solve_decision. Defined.
#[global] Instance Pipeline_eq_dec : EqDecision Pipeline.
Proof. solve_decision. Defined.
#[global] Instance Network_eq_dec : EqDecision Network.
Proof. solve_decision. Defined.
#[global] Instance Kind_eq_dec : EqDecision Kind.
Proof. solve_decision. Defined.

(** ** The model database

    [lazygrid/database.py] is not part of the sources at hand; the store is
    modelled from the specification (sections 4.2 and 6). *)

(** Modelled from the spec: the fit fingerprint, missing with
    [database.py].  It is built from what [load_model] and [save_model]
    receive: the learner, the fold index, the data set identifier and name,
    and the fit parameters. *)
Record Fingerprint := {
  fp_model : Kind;
  fp_split : Z;
  fp_dataset_id : Z;
  fp_dataset_name : string;
  fp_fit_params : gmap string Value
}.

#[global] Instance Fingerprint_eq_dec : EqDecision Fingerprint.
Proof. solve_decision. Defined.

(** The storage handle [save_model] returns. *)
Inductive Signature := Sig (db_name : string) (fp : Fingerprint).

#[global] Instance Signature_eq_dec : EqDecision Signature.
Proof. solve_decision. Defined.

(** A Python object: the learner and the two attributes the module
    attaches to it, [is_fitted] and [signature]. *)
Record Obj := {
  o_kind : Kind;
  o_is_fitted : option bool;
  o_signature : option Signature
}.

#[global] Instance Obj_eq_dec : EqDecision Obj.
Proof. solve_decision. Defined.

Abbreviation Ref := nat.

(** What the run does to the outside world, newest event first. *)
Inductive Event :=
  | EvDrop (db_name : string)
  | EvLoad (db_name : string) (fp : Fingerprint) (hit : bool)
  | EvSave (db_name : string) (fp : Fingerprint)
  | EvFit (r : Ref) (step : option string)
  | EvCsv (output_dir file : string).

#[global] Instance Event_eq_dec : EqDecision Event.
Proof. solve_decision. Defined.

Record World := {
  w_heap : list Obj;
  w_db : gmap string (list (Fingerprint * Obj));
  w_tf_seed : option Z;
  w_log : list Event
}.

(** ** Exceptions and the monad *)

Inductive PyErr :=
  | AssertionError
  | UnboundLocalError
  | AttributeError
  | IndexError
  | ValueError
  | NotFittedError
  | ReferenceError.

#[global] Instance PyErr_eq_dec : EqDecision PyErr.
Proof. solve_decision. Defined.

Inductive Res (A : Type) :=
  | Ok (a : A)
  | Raise (e : PyErr).
Arguments Ok {A} a.
Arguments Raise {A} e.

Definition M (A : Type) : Type := World -> Res A * World.

Definition ret {A} (a : A) : M A := fun w => (Ok a, w).

Definition raise {A} (e : PyErr) : M A := fun w => (Raise e, w).

Definition bind {A B} (m : M A) (f : A -> M B) : M B :=
  fun w =>
    match m w with
    | (Ok a, w') => f a w'
    | (Raise e, w') => (Raise e, w')
    end.

Notation "x <-- m ;; k" := (bind m (fun x => k))
  (at level 100, m at next level, right associativity).
Notation "m ;;; k" := (bind m (fun _ => k))
  (at level 100, right associativity).

Definition lift {A} (r : Res A) : M A := fun w => (r, w).

(** The [assert] statement. *)
Definition py_assert (b : bool) : M unit :=
  if b then ret tt else raise AssertionError.

Definition log (ev : Event) : M unit :=
  fun w => (Ok tt, {| w_heap := w_heap w; w_db := w_db w;
                      w_tf_seed := w_tf_seed w; w_log := ev :: w_log w |}).

(** ** The heap *)

Definition deref (r : Ref) : M Obj :=
  fun w => match w_heap w !! r with
           | Some o => (Ok o, w)
           | None => (Raise ReferenceError, w)
           end.

Definition assign (r : Ref) (o : Obj) : M unit :=
  fun w => match w_heap w !! r with
           | Some _ => (Ok tt, {| w_heap := <[r := o]> (w_heap w); w_db := w_db w;
                                  w_tf_seed := w_tf_seed w; w_log := w_log w |})
           | None => (Raise ReferenceError, w)
           end.

Definition alloc (o : Obj) : M Ref :=
  fun w => (Ok (length (w_heap w)),
            {| w_heap := w_heap w ++ [o]; w_db := w_db w;
               w_tf_seed := w_tf_seed w; w_log := w_log w |}).

(** [copy.deepcopy]: a new object with the same contents. *)
Definition deepcopy (r : Ref) : M Ref :=
  o <-- deref r ;; alloc o.

Definition get_world : M World := fun w => (Ok w, w).

Definition set_db (db : gmap string (list (Fingerprint * Obj))) : M unit :=
  fun w => (Ok tt, {| w_heap := w_heap w; w_db := db;
                      w_tf_seed := w_tf_seed w; w_log := w_log w |}).

(** ** What the module calls and is not at hand

    scikit-learn, keras, numpy and scipy are outside the repository, and
    [confidence_interval_mean_t] is in [statistics.py], which is missing.
    What they compute is left open, as the fields of a class; which
    exceptions they raise is modelled where the module depends on it. *)

(** A two-sample test, as [scipy.stats.mannwhitneyu]: its [__name__] and the
    p-value it returns for two samples and the keyword arguments
    [use_continuity] and [alternative]. *)
Record Test := {
  test_name : string;
  test_pvalue : list Q -> list Q -> bool -> string -> Res Q
}.

Class Externals := {
  (** [StratifiedKFold(n_splits, shuffle=True, random_state=seed).split(x, y)] *)
  skf_split : Z -> Z -> Array -> Array -> Res (list (list nat * list nat));
  (** what a fitted step, estimator or network answers *)
  step_transform_out : gmap string Value -> Step -> Array -> Array;
  step_predict_out : gmap string Value -> Step -> Array -> Array;
  est_predict_out : Estimator -> Array -> Array;
  net_predict_out : Network -> Array -> Array;
  (** [sklearn.metrics] *)
  accuracy_score : Array -> Array -> Q;
  f1_score_weighted : Array -> Array -> Q;
  (** [scipy.stats.mannwhitneyu] *)
  mannwhitneyu : Test;
  (** [confidence_interval_mean_t] of [statistics.py]: the bounds come from
      the quantiles of Student's t distribution; section 4.5 of the
      specification has it fail on fewer than two scores *)
  confidence_interval_mean_t : list Q -> Q -> Res (Q * Q)
}.

(** [needle in hay] on Python strings. *)
Fixpoint is_substring (needle hay : string) : bool :=
  String.prefix needle hay ||
  match hay with
  | EmptyString => false
  | String _ rest => is_substring needle rest
  end.

(** [x[index]] with a list of positions. *)
Fixpoint np_take (x : Array) (index : list nat) : Res Array :=
  match index with
  | [] => Ok []
  | i :: rest =>
      match x !! i, np_take x rest with
      | Some v, Ok vs => Ok (v :: vs)
      | None, _ => Raise IndexError
      | _, Raise e => Raise e
      end
  end.

Definition Qsum (l : list Q) : Q := foldr Qplus 0%Q l.

(** [np.mean] over exact rationals. *)
Definition np_mean (l : list Q) : Q :=
  Qred (Qsum l / inject_Z (Z.of_nat (length l))).

Section Learning.
Context `{ext : Externals}.

(** ** Steps of a pipeline *)

Definition step_transform (ps : gmap string Value) (step : Step) (x : Array) : Res Array :=
  if s_transform step then
    match s_trained step with
    | Some _ => Ok (step_transform_out ps step x)
    | None => Raise NotFittedError
    end
  else Raise AttributeError.

Definition step_predict (ps : gmap string Value) (step : Step) (x : Array) : Res Array :=
  if s_predict step then
    match s_trained step with
    | Some _ => Ok (step_predict_out ps step x)
    | None => Raise NotFittedError
    end
  else Raise AttributeError.

Definition _is_fitted (ps : gmap string Value) (step : Step) (x : Array) : Res bool :=
  let x := take 2 x in
  if s_transform step then
    match step_transform ps step x with
    | Ok _ => Ok true
    | Raise NotFittedError => Ok false
    | Raise e => Raise e
    end
  else if s_predict step then
    match step_predict ps step x with
    | Ok _ => Ok true
    | Raise NotFittedError => Ok false
    | Raise e => Raise e
    end
  else Ok false.

Definition with_kind (o : Obj) (k : Kind) : Obj :=
  {| o_kind := k; o_is_fitted := o_is_fitted o; o_signature := o_signature o |}.

Definition with_is_fitted (o : Obj) (b : bool) : Obj :=
  {| o_kind := o_kind o; o_is_fitted := Some b; o_signature := o_signature o |}.

Definition with_signature (o : Obj) (s : Signature) : Obj :=
  {| o_kind := o_kind o; o_is_fitted := o_is_fitted o; o_signature := Some s |}.

Definition step_fitted (step : Step) (t : Training) : Step :=
  {| s_name := s_name step; s_class := s_class step; s_fit := s_fit step;
     s_transform := s_transform step; s_predict := s_predict step;
     s_trained := Some t |}.

(** ** Seeding *)

(** [learner.set_params] with one keyword argument, [parameter = value] *)
Definition set_params (learner : Ref) (parameter : string) (value : Value) : M unit :=
  o <-- deref learner ;;
  match o_kind o with
  | KPipeline p =>
      assign learner (with_kind o (KPipeline
        {| p_steps := p_steps p; p_params := <[parameter := value]> (p_params p) |}))
  | KOther e =>
      assign learner (with_kind o (KOther
        {| e_class := e_class e; e_fit := e_fit e; e_predict := e_predict e;
           e_params := <[parameter := value]> (e_params e);
           e_trained := e_trained e |}))
  | KKeras _ => raise AttributeError
  end.

(** tensorflow's process-wide [set_random_seed] *)
Definition set_random_seed (seed : Z) : M unit :=
  fun w => (Ok tt, {| w_heap := w_heap w; w_db := w_db w;
                      w_tf_seed := Some seed; w_log := w_log w |}).

(** Modelled from the spec: [reset_weights] of [neural_models.py], which is
    missing; section 4.1 has the weight-initialising streams of a deep model
    seeded from the given value. *)
Definition reset_weights (learner : Ref) (seed : Z) : M unit :=
  o <-- deref learner ;;
  match o_kind o with
  | KKeras n =>
      assign learner (with_kind o (KKeras
        {| n_arch := n_arch n; n_weights_seed := Some seed; n_trained := None |}))
  | _ => raise AttributeError
  end.

Fixpoint seed_parameters (learner : Ref) (parameters : list string)
    (random_model : bool) (split_index seed : Z) : M unit :=
  match parameters with
  | [] => ret tt
  | parameter :: rest =>
      (if is_substring "random_state" parameter then
         if random_model then set_params learner parameter (VInt split_index)
         else set_params learner parameter (VInt seed)
       else ret tt) ;;;
      seed_parameters learner rest random_model split_index seed
  end.

Definition _set_random_seed (learner : Ref) (random_model : bool)
    (split_index seed : Z) : M Ref :=
  o <-- deref learner ;;
  (match o_kind o with
   | KKeras _ =>
       if random_model then
         set_random_seed split_index ;;; reset_weights learner split_index
       else
         set_random_seed seed ;;; reset_weights learner seed
   | KPipeline p =>
       seed_parameters learner (map_to_list (p_params p)).*1
         random_model split_index seed
   | KOther e =>
       if e_fit e && e_predict e then
         if bool_decide (is_Some (e_params e !! "random_state")) then
           if random_model then set_params learner "random_state" (VInt split_index)
           else set_params learner "random_state" (VInt seed)
         else ret tt
       else ret tt
   end) ;;;
  ret learner.

(** ** The model database *)

(** Modelled from the spec: the structural identity of a learner, missing
    with [database.py]; section 3 has it stable and separate from the
    mutable fitted status, so it is the learner without its training. *)
Definition structure_of (k : Kind) : Kind :=
  match k with
  | KKeras n =>
      KKeras {| n_arch := n_arch n; n_weights_seed := n_weights_seed n;
                n_trained := None |}
  | KPipeline p =>
      KPipeline {| p_steps := map (fun s =>
                     {| s_name := s_name s; s_class := s_class s; s_fit := s_fit s;
                        s_transform := s_transform s; s_predict := s_predict s;
                        s_trained := None |}) (p_steps p);
                   p_params := p_params p |}
  | KOther e =>
      KOther {| e_class := e_class e; e_fit := e_fit e; e_predict := e_predict e;
                e_params := e_params e; e_trained := None |}
  end.

Definition fingerprint (o : Obj) (split_index dataset_id : Z)
    (dataset_name : string) (fit_params : gmap string Value) : Fingerprint :=
  {| fp_model := structure_of (o_kind o); fp_split := split_index;
     fp_dataset_id := dataset_id; fp_dataset_name := dataset_name;
     fp_fit_params := fit_params |}.

Fixpoint store_find (fp : Fingerprint) (store : list (Fingerprint * Obj)) : option Obj :=
  match store with
  | [] => None
  | (fp', o) :: rest => if decide (fp = fp') then Some o else store_find fp rest
  end.

(** Modelled from the spec: [load_model] of [database.py], which is missing;
    section 6 has [load(fingerprint) -> artifact | notFound]. *)
Definition load_model (learner : Ref) (split_index dataset_id : Z)
    (dataset_name : string) (fit_params : gmap string Value)
    (db_name : string) : M (option Ref) :=
  o <-- deref learner ;;
  let fp := fingerprint o split_index dataset_id dataset_name fit_params in
  w <-- get_world ;;
  match store_find fp (default [] (w_db w !! db_name)) with
  | Some artifact =>
      log (EvLoad db_name fp true) ;;;
      r <-- alloc artifact ;;
      ret (Some r)
  | None =>
      log (EvLoad db_name fp false) ;;;
      ret None
  end.

(** Modelled from the spec: [save_model] of [database.py], which is missing;
    section 6 has [save(artifact, fingerprint) -> signature], and saving
    under a fingerprint already stored keeps what a later load returns. *)
Definition save_model (learner : Ref) (split_index dataset_id : Z)
    (dataset_name : string) (fit_params : gmap string Value)
    (db_name : string) : M Signature :=
  o <-- deref learner ;;
  let fp := fingerprint o split_index dataset_id dataset_name fit_params in
  w <-- get_world ;;
  let store := default [] (w_db w !! db_name) in
  log (EvSave db_name fp) ;;;
  (match store_find fp store with
   | Some _ => ret tt
   | None => set_db (<[db_name := (fp, o) :: store]> (w_db w))
   end) ;;;
  ret (Sig db_name fp).

(** Modelled from the spec: [drop_db] of [database.py], which is missing;
    section 6 has [drop(storeId)]. *)
Definition drop_db (db_name : string) : M unit :=
  log (EvDrop db_name) ;;;
  w <-- get_world ;;
  set_db (delete db_name (w_db w)).

(** ** Fetching and fitting a learner *)

Definition set_is_fitted (learner : Ref) (is_fitted : bool) : M unit :=
  o <-- deref learner ;;
  assign learner (with_is_fitted o is_fitted).

Definition set_signature (learner : Ref) (signature : Signature) : M unit :=
  o <-- deref learner ;;
  assign learner (with_signature o signature).

Definition _get_learner (model : Ref) (db_name : string) (dataset_id : Z)
    (dataset_name : string) (random_model : bool) (split_index seed : Z)
    (fit_params : gmap string Value) : M Ref :=
  learner <-- deepcopy model ;;
  learner <-- _set_random_seed learner random_model split_index seed ;;
  loaded <-- load_model learner split_index dataset_id dataset_name fit_params db_name ;;
  match loaded with
  | Some learner =>
      set_is_fitted learner true ;;;
      ret learner
  | None =>
      learner <-- deepcopy model ;;
      learner <-- _set_random_seed learner random_model split_index seed ;;
      set_is_fitted learner false ;;;
      ret learner
  end.

(** The loop of [_fit] over [learner.steps]: [seen] are the steps already
    visited, [todo] those still to visit.  A step that is fitted is written
    back to the pipeline at once, as [step[1].fit] works in place. *)
Fixpoint fit_steps (learner : Ref) (o : Obj) (ps : gmap string Value)
    (seen todo : list Step) (x_train_t y_train : Array) : M unit :=
  match todo with
  | [] => ret tt
  | step :: rest =>
      fitted <-- lift (_is_fitted ps step x_train_t) ;;
      step <-- (if fitted then ret step
                else if s_fit step then
                  log (EvFit learner (Some (s_name step))) ;;;
                  let step' := step_fitted step (x_train_t, y_train, ∅) in
                  assign learner (with_kind o (KPipeline
                    {| p_steps := seen ++ step' :: rest; p_params := ps |})) ;;;
                  ret step'
                else raise AttributeError) ;;
      x_train_t <-- (if s_transform step then lift (step_transform ps step x_train_t)
                     else ret x_train_t) ;;
      fit_steps learner o ps (seen ++ [step]) rest x_train_t y_train
  end.

Definition getattr_is_fitted (o : Obj) : M bool :=
  match o_is_fitted o with
  | Some b => ret b
  | None => raise AttributeError
  end.

Definition _fit (learner : Ref) (x_train y_train : Array)
    (fit_params : gmap string Value) : M Ref :=
  o <-- deref learner ;;
  (match o_kind o with
   | KPipeline p =>
       fit_steps learner o (p_params p) [] (p_steps p) x_train y_train
   | KKeras n =>
       is_fitted <-- getattr_is_fitted o ;;
       if negb is_fitted then
         log (EvFit learner None) ;;;
         assign learner (with_kind o (KKeras
           {| n_arch := n_arch n; n_weights_seed := n_weights_seed n;
              n_trained := Some (x_train, y_train, fit_params) |}))
       else ret tt
   | KOther e =>
       if e_fit e && e_predict e then
         is_fitted <-- getattr_is_fitted o ;;
         if negb is_fitted then
           log (EvFit learner None) ;;;
           assign learner (with_kind o (KOther
             {| e_class := e_class e; e_fit := e_fit e; e_predict := e_predict e;
                e_params := e_params e;
                e_trained := Some (x_train, y_train, fit_params) |}))
         else ret tt
       else ret tt
   end) ;;;
  ret learner.

(** [Pipeline.predict]: every step but the last transforms, the last
    predicts. *)
Fixpoint pipeline_predict (ps : gmap string Value) (steps : list Step)
    (x : Array) : Res Array :=
  match steps with
  | [] => Raise AttributeError
  | [final] => step_predict ps final x
  | step :: rest =>
      match step_transform ps step x with
      | Ok xt => pipeline_predict ps rest xt
      | Raise e => Raise e
      end
  end.

(** [learner.predict(x)] *)
Definition predict (learner : Ref) (x : Array) : M Array :=
  o <-- deref learner ;;
  match o_kind o with
  | KKeras n => ret (net_predict_out n x)
  | KPipeline p => lift (pipeline_predict (p_params p) (p_steps p) x)
  | KOther e =>
      if e_predict e then
        match e_trained e with
        | Some _ => ret (est_predict_out e x)
        | None => raise NotFittedError
        end
      else raise AttributeError
  end.

(** ** Cross-validation *)

(** The [scoring] argument: a callable (with what [str] prints for it), a
    string, or anything else. *)
Inductive Scoring :=
  | ScCallable (repr : string) (f : Array -> Array -> Q)
  | ScStr (s : string)
  | ScOther (repr : string).

Definition str_of_scoring (scoring : Scoring) : string :=
  match scoring with
  | ScCallable repr _ => repr
  | ScStr s => s
  | ScOther repr => repr
  end.

(** The chain of [if]/[elif] that binds [score_fun]; [None] is the local
    variable left unbound. *)
Definition bind_score_fun (scoring : Scoring) : option (Array -> Array -> Q) :=
  match scoring with
  | ScCallable _ f => Some f
  | ScStr s =>
      if decide (s = "accuracy") then Some accuracy_score
      else if decide (s = "f1") then Some f1_score_weighted
      else None
  | ScOther _ => None
  end.

(** The dictionary [score]. *)
Record Scores := {
  score_train_blind : list Q;
  score_test_blind : list Q;
  score_train_cv : list Q;
  score_val_cv : list Q
}.

(** The parameters of one call of [cross_validation], fixed over its folds. *)
Record CvConfig := {
  cv_model : Ref;
  cv_x : PyData;
  cv_y : PyData;
  cv_db_name : string;
  cv_dataset_id : Z;
  cv_dataset_name : string;
  cv_x_val : PyData;
  cv_y_val : PyData;
  cv_random_data : bool;
  cv_random_model : bool;
  cv_seed : Z;
  cv_n_splits : Z;
  cv_scoring : Scoring;
  cv_fit_params : gmap string Value
}.

(** The data of one fold: [x_train, x_val, y_train, y_val]. *)
Definition fold_data (c : CvConfig) (list_of_splits : list (list nat * list nat))
    (split_index : nat) : M (Array * Array * Array * Array) :=
  if cv_random_data c then
    match list_of_splits !! split_index with
    | Some (train_index, val_index) =>
        x_train <-- lift (np_take (rows_of (cv_x c)) train_index) ;;
        x_val <-- lift (np_take (rows_of (cv_x c)) val_index) ;;
        y_train <-- lift (np_take (rows_of (cv_y c)) train_index) ;;
        y_val <-- lift (np_take (rows_of (cv_y c)) val_index) ;;
        ret (x_train, x_val, y_train, y_val)
    | None => raise IndexError
    end
  else ret (rows_of (cv_x c), rows_of (cv_x_val c), rows_of (cv_y c), rows_of (cv_y_val c)).

(** The body of the loop over the folds; it returns the two scores and the
    copy of the learner that is appended to [fitted_models]. *)
Definition cv_fold (c : CvConfig) (list_of_splits : list (list nat * list nat))
    (split_index : nat) : M (Q * Q * Ref) :=
  data <-- fold_data c list_of_splits split_index ;;
  let '(x_train, x_val, y_train, y_val) := data in
  learner <-- _get_learner (cv_model c) (cv_db_name c) (cv_dataset_id c)
                (cv_dataset_name c) (cv_random_model c) (Z.of_nat split_index)
                (cv_seed c) (cv_fit_params c) ;;
  learner <-- _fit learner x_train y_train (cv_fit_params c) ;;
  y_train_pred <-- predict learner x_train ;;
  y_val_pred <-- predict learner x_val ;;
  score_fun <-- (match bind_score_fun (cv_scoring c) with
                 | Some f => ret f
                 | None => raise UnboundLocalError
                 end) ;;
  let score_train := score_fun y_train y_train_pred in
  let score_val := score_fun y_val y_val_pred in
  signature <-- save_model learner (Z.of_nat split_index) (cv_dataset_id c)
                  (cv_dataset_name c) (cv_fit_params c) (cv_db_name c) ;;
  set_signature learner signature ;;;
  fitted <-- deepcopy learner ;;
  ret (score_train, score_val, fitted).

(** [for split_index in range(0, n_splits)], with the lists that the body
    appends to. *)
Fixpoint cv_loop (c : CvConfig) (list_of_splits : list (list nat * list nat))
    (folds : list nat) (score : Scores) (fitted_models : list Ref)
    : M (Scores * list Ref) :=
  match folds with
  | [] => ret (score, fitted_models)
  | split_index :: rest =>
      result <-- cv_fold c list_of_splits split_index ;;
      let '(score_train, score_val, fitted) := result in
      cv_loop c list_of_splits rest
        {| score_train_blind := score_train_blind score;
           score_test_blind := score_test_blind score;
           score_train_cv := score_train_cv score ++ [score_train];
           score_val_cv := score_val_cv score ++ [score_val] |}
        (fitted_models ++ [fitted])
  end.

(** The checks on the arguments; those on [random_data], [random_model],
    [seed] and [n_splits] are the types of the fields. *)
Definition check_input (c : CvConfig) : M unit :=
  py_assert (is_ndarray (cv_x c) && is_ndarray (cv_y c)) ;;;
  (if negb (cv_random_data c) then
     py_assert (is_not_None (cv_x_val c) && is_not_None (cv_y_val c))
   else ret tt) ;;;
  (if cv_random_model c && negb (cv_random_data c) then
     py_assert (is_ndarray (cv_x_val c) && is_ndarray (cv_y_val c))
   else ret tt).

(** [list_of_splits]: the folds of the stratified partition when the data
    is randomised; the name is not bound otherwise, and not used. *)
Definition prepare_splits (c : CvConfig) : Res (list (list nat * list nat)) :=
  if cv_random_data c then
    skf_split (cv_n_splits c) (cv_seed c) (rows_of (cv_x c)) (rows_of (cv_y c))
  else Ok [].

Definition cross_validation (c : CvConfig) : M (Scores * list Ref) :=
  check_input c ;;;
  list_of_splits <-- lift (prepare_splits c) ;;
  cv_loop c list_of_splits (seq 0 (Z.to_nat (cv_n_splits c)))
    {| score_train_blind := []; score_test_blind := [];
       score_train_cv := []; score_val_cv := [] |} [].

(** ** Best-subset selection *)

(** Modelled from the spec: step 1 of [find_best_solution] of
    [statistics.py], which is missing; the first index of the largest mean. *)
Fixpoint argmax_mean (solutions : list (list Q)) (index best : nat) (best_mean : Q) : nat :=
  match solutions with
  | [] => best
  | solution :: rest =>
      if Qle_bool (np_mean solution) best_mean
      then argmax_mean rest (S index) best best_mean
      else argmax_mean rest (S index) index (np_mean solution)
  end.

(** Modelled from the spec: step 2, the p-value of every collection against
    the best one, the best one's own entry being 1. *)
Fixpoint pvalues_against (test : Test) (use_continuity : bool) (alternative : string)
    (best : nat) (best_solution : list Q) (solutions : list (list Q)) (index : nat)
    : Res (list Q) :=
  match solutions with
  | [] => Ok []
  | solution :: rest =>
      match (if decide (index = best) then Ok 1%Q
             else test_pvalue test solution best_solution use_continuity alternative),
            pvalues_against test use_continuity alternative best best_solution rest (S index)
      with
      | Ok p, Ok ps => Ok (p :: ps)
      | Raise e, _ => Raise e
      | _, Raise e => Raise e
      end
  end.

(** Modelled from the spec: step 3, every index whose p-value is at least
    [alpha]. *)
Fixpoint non_separable (alpha : Q) (pvalues : list Q) (index : nat) : list nat :=
  match pvalues with
  | [] => []
  | p :: rest =>
      if Qle_bool alpha p then index :: non_separable alpha rest (S index)
      else non_separable alpha rest (S index)
  end.

(** Modelled from the spec: [find_best_solution] of [statistics.py], which
    is missing; section 4.4 has [select(scores, test, alpha)] return the best
    index, the non-separable indices and the p-values. *)
Definition find_best_solution (solutions : list (list Q)) (test : Test) (alpha : Q)
    (use_continuity : bool) (alternative : string) : Res (nat * list nat * list Q) :=
  match solutions with
  | [] => Raise ValueError
  | first :: rest =>
      let best_sol := argmax_mean rest 1 0 (np_mean first) in
      match pvalues_against test use_continuity alternative best_sol
              (default [] (solutions !! best_sol)) solutions 0 with
      | Ok pvalues => Ok (best_sol, non_separable alpha pvalues 0, pvalues)
      | Raise e => Raise e
      end
  end.

(** ** The summary of the results *)

(** A row of the data frame, one field for each of its columns. *)
Record Row := {
  r_db_name : string;
  r_db_did : Z;
  r_model : Signature;
  r_train_cv : list Q;
  r_val_cv : list Q;
  r_mean : Q;
  r_ci_l_bound : Q;
  r_ci_u_bound : Q;
  r_separable : bool;
  r_pvalue : Q;
  r_test : string;
  r_alpha : Q;
  r_metric : string;
  r_random_data : bool;
  r_random_model : bool;
  r_seed : Z;
  r_n_splits : Z
}.

(** The arguments of [_compute_result_summary] other than [models]. *)
Record SummaryArgs := {
  sa_random_data : bool;
  sa_random_model : bool;
  sa_seed : Z;
  sa_n_splits : Z;
  sa_scoring : Scoring;
  sa_test : Test;
  sa_alpha : Q;
  sa_cl : Q;
  sa_dataset_id : Z;
  sa_dataset_name : string;
  sa_train_cv : list (list Q);
  sa_val_cv : list (list Q);
  sa_pvalues : list Q;
  sa_best_solutions : list nat
}.

Definition getattr_signature (o : Obj) : M Signature :=
  match o_signature o with
  | Some s => ret s
  | None => raise AttributeError
  end.

Definition list_index {A} (l : list A) (i : nat) : M A :=
  match l !! i with
  | Some a => ret a
  | None => raise IndexError
  end.

(** The loop of [_compute_result_summary] over [models]. *)
Fixpoint summary_rows (a : SummaryArgs) (models : list Ref) (index : nat)
    (results : list Row) : M (list Row) :=
  match models with
  | [] => ret results
  | model :: rest =>
      val <-- list_index (sa_val_cv a) index ;;
      ci_bounds <-- lift (confidence_interval_mean_t val (sa_cl a)) ;;
      let separable := if bool_decide (index ∈ sa_best_solutions a) then false else true in
      o <-- deref model ;;
      signature <-- getattr_signature o ;;
      train <-- list_index (sa_train_cv a) index ;;
      pvalue <-- list_index (sa_pvalues a) index ;;
      let row :=
        {| r_db_name := sa_dataset_name a;
           r_db_did := sa_dataset_id a;
           r_model := signature;
           r_train_cv := train;
           r_val_cv := val;
           r_mean := np_mean val;
           r_ci_l_bound := ci_bounds.1;
           r_ci_u_bound := ci_bounds.2;
           r_separable := separable;
           r_pvalue := pvalue;
           r_test := test_name (sa_test a);
           r_alpha := sa_alpha a;
           r_metric := str_of_scoring (sa_scoring a);
           r_random_data := sa_random_data a;
           r_random_model := sa_random_model a;
           r_seed := sa_seed a;
           r_n_splits := sa_n_splits a |} in
      summary_rows a rest (S index) (results ++ [row])
  end.

Definition _compute_result_summary (models : list Ref) (a : SummaryArgs) : M (list Row) :=
  summary_rows a models 0 [].

(** ** Comparing models *)

(** The arguments of [compare_models] other than [models] and [params]. *)
Record CompareArgs := {
  ca_x_train : PyData;
  ca_y_train : PyData;
  ca_x_val : PyData;
  ca_y_val : PyData;
  ca_random_data : bool;
  ca_random_model : bool;
  ca_seed : Z;
  ca_n_splits : Z;
  ca_scoring : Scoring;
  ca_test : Test;
  ca_alpha : Q;
  ca_cl : Q;
  ca_experiment_name : string;
  ca_db_name : string;
  ca_dataset_id : option Z;
  ca_dataset_name : option string;
  ca_output_dir : string
}.

(** [not dataset_id]: true for [None] and for 0. *)
Definition not_dataset_id (dataset_id : option Z) : bool :=
  match dataset_id with
  | None => true
  | Some z => bool_decide (z = 0)
  end.

(** [not dataset_name]: true for [None] and for the empty string. *)
Definition not_dataset_name (dataset_name : option string) : bool :=
  match dataset_name with
  | None => true
  | Some s => bool_decide (s = "")
  end.

(** [for model, fit_params in zip(models, params)] *)
Fixpoint compare_loop (a : CompareArgs) (db_name : string) (dataset_id : Z)
    (dataset_name : string) (pairs : list (Ref * gmap string Value))
    (train_cv val_cv : list (list Q)) : M (list (list Q) * list (list Q)) :=
  match pairs with
  | [] => ret (train_cv, val_cv)
  | (model, fit_params) :: rest =>
      result <-- cross_validation
        {| cv_model := model; cv_x := ca_x_train a; cv_y := ca_y_train a;
           cv_db_name := db_name; cv_dataset_id := dataset_id;
           cv_dataset_name := dataset_name;
           cv_x_val := ca_x_val a; cv_y_val := ca_y_val a;
           cv_random_data := ca_random_data a; cv_random_model := ca_random_model a;
           cv_seed := ca_seed a; cv_n_splits := ca_n_splits a;
           cv_scoring := ca_scoring a; cv_fit_params := fit_params |} ;;
      let '(score, fitted_models) := result in
      final <-- (match last fitted_models with
                 | Some r => ret r
                 | None => raise IndexError
                 end) ;;
      final_o <-- deref final ;;
      signature <-- getattr_signature final_o ;;
      set_signature model signature ;;;
      compare_loop a db_name dataset_id dataset_name rest
        (train_cv ++ [score_train_cv score]) (val_cv ++ [score_val_cv score])
  end.

(** The part of [compare_models] after the defaults of the data set are
    settled. *)
Definition compare_with (models : list Ref) (params : list (gmap string Value))
    (a : CompareArgs) (db_name : string) (dataset_id : Z) (dataset_name : string)
    : M (list Row) :=
  cv <-- compare_loop a db_name dataset_id dataset_name (zip models params) [] [] ;;
  let '(train_cv, val_cv) := cv in
  best <-- lift (find_best_solution val_cv mannwhitneyu (ca_alpha a) false "two-sided") ;;
  let '(best_sol, best_solutions, pvalues) := best in
  results <-- _compute_result_summary models
    {| sa_random_data := ca_random_data a; sa_random_model := ca_random_model a;
       sa_seed := ca_seed a; sa_n_splits := ca_n_splits a;
       sa_scoring := ca_scoring a; sa_test := ca_test a;
       sa_alpha := ca_alpha a; sa_cl := ca_cl a;
       sa_dataset_id := dataset_id; sa_dataset_name := dataset_name;
       sa_train_cv := train_cv; sa_val_cv := val_cv;
       sa_pvalues := pvalues; sa_best_solutions := best_solutions |} ;;
  log (EvCsv (ca_output_dir a) (ca_experiment_name a ++ ".csv")) ;;;
  ret results.

Definition compare_models (models : list Ref) (params : list (gmap string Value))
    (a : CompareArgs) : M (list Row) :=
  ids <-- (if not_dataset_id (ca_dataset_id a) then
             drop_db "new-db" ;;;
             ret (1, "new-db")
           else ret (default 0 (ca_dataset_id a), ca_db_name a)) ;;
  let '(dataset_id, db_name) := ids in
  let dataset_name :=
    if not_dataset_name (ca_dataset_name a) then "dataset"
    else default "" (ca_dataset_name a) in
  compare_with models params a db_name dataset_id dataset_name.

End Learning.

(** The part of the body of the loop that comes before the scores: the
    labels and the predictions on the two partitions, and the learner. *)
Definition fold_predictions `{ext : Externals} (c : CvConfig)
    (list_of_splits : list (list nat * list nat)) (split_index : nat)
    : M (Array * Array * Array * Array * Ref) :=
  data <-- fold_data c list_of_splits split_index ;;
  let '(x_train, x_val, y_train, y_val) := data in
  learner <-- _get_learner (cv_model c) (cv_db_name c) (cv_dataset_id c)
                (cv_dataset_name c) (cv_random_model c) (Z.of_nat split_index)
                (cv_seed c) (cv_fit_params c) ;;
  learner <-- _fit learner x_train y_train (cv_fit_params c) ;;
  y_train_pred <-- predict learner x_train ;;
  y_val_pred <-- predict learner x_val ;;
  ret (y_train, y_train_pred, y_val, y_val_pred, learner).

(** The same call with another [scoring]. *)
Definition with_scoring (c : CvConfig) (scoring : Scoring) : CvConfig :=
  {| cv_model := cv_model c; cv_x := cv_x c; cv_y := cv_y c;
     cv_db_name := cv_db_name c; cv_dataset_id := cv_dataset_id c;
     cv_dataset_name := cv_dataset_name c;
     cv_x_val := cv_x_val c; cv_y_val := cv_y_val c;
     cv_random_data := cv_random_data c; cv_random_model := cv_random_model c;
     cv_seed := cv_seed c; cv_n_splits := cv_n_splits c;
     cv_scoring := scoring; cv_fit_params := cv_fit_params c |}.

(** A [scoring] that is not callable and is neither of the two names. *)
Definition unsupported_scoring (scoring : Scoring) : Prop :=
  match scoring with
  | ScCallable _ _ => False
  | ScStr s => s ≠ "accuracy" /\ s ≠ "f1"
  | ScOther _ => True
  end.

(** The same call with another database name and data set identifier. *)
Definition with_dataset (a : CompareArgs) (db_name : string) (dataset_id : option Z)
    : CompareArgs :=
  {| ca_x_train := ca_x_train a; ca_y_train := ca_y_train a;
     ca_x_val := ca_x_val a; ca_y_val := ca_y_val a;
     ca_random_data := ca_random_data a; ca_random_model := ca_random_model a;
     ca_seed := ca_seed a; ca_n_splits := ca_n_splits a;
     ca_scoring := ca_scoring a; ca_test := ca_test a;
     ca_alpha := ca_alpha a; ca_cl := ca_cl a;
     ca_experiment_name := ca_experiment_name a; ca_db_name := db_name;
     ca_dataset_id := dataset_id; ca_dataset_name := ca_dataset_name a;
     ca_output_dir := ca_output_dir a |}.

(** The same call with other randomisation flags and validation data. *)
Definition with_validation (c : CvConfig) (random_data random_model : bool)
    (x_val y_val : PyData) : CvConfig :=
  {| cv_model := cv_model c; cv_x := cv_x c; cv_y := cv_y c;
     cv_db_name := cv_db_name c; cv_dataset_id := cv_dataset_id c;
     cv_dataset_name := cv_dataset_name c;
     cv_x_val := x_val; cv_y_val := y_val;
     cv_random_data := random_data; cv_random_model := random_model;
     cv_seed := cv_seed c; cv_n_splits := cv_n_splits c;
     cv_scoring := cv_scoring c; cv_fit_params := cv_fit_params c |}.

(** A result that is not an exception. *)
Definition succeeds {A} (r : Res A) : Prop := exists a, r = Ok a.

(** ** The vocabulary of the statements *)

Definition set_heap (w : World) (heap : list Obj) : World :=
  {| w_heap := heap; w_db := w_db w; w_tf_seed := w_tf_seed w; w_log := w_log w |}.

(** The value a learner is seeded with. *)
Definition seed_value (random_model : bool) (split_index seed : Z) : Z :=
  if random_model then split_index else seed.

(** A model that [_set_random_seed] can randomise: a network, a pipeline
    with a parameter whose name contains [random_state], or an object with
    [fit], [predict] and a [random_state]. *)
Definition randomization_capable (k : Kind) : Prop :=
  match k with
  | KKeras _ => True
  | KPipeline p =>
      exists parameter, is_Some (p_params p !! parameter) /\
                        is_substring "random_state" parameter = true
  | KOther e =>
      e_fit e = true /\ e_predict e = true /\ is_Some (e_params e !! "random_state")
  end.

#[global] Instance randomization_capable_dec k : Decision (randomization_capable k).
Proof.
  destruct k as [n|p|e]; simpl.
  - apply _.
  - destruct (decide (Exists (fun parameter => is_substring "random_state" parameter = true)
                        (map_to_list (p_params p)).*1)) as [Y|N].
    + left. apply Exists_exists in Y as (parameter & Hin & Hsub).
      exists parameter. split; [|done].
      apply list_elem_of_fmap in Hin as ([k v] & -> & Hin).
      apply elem_of_map_to_list in Hin. by exists v.
    + right. intros (parameter & [v Hv] & Hsub). apply N, Exists_exists.
      exists parameter. split; [|done].
      apply list_elem_of_fmap. exists (parameter, v). split; [done|].
      by apply elem_of_map_to_list.
  - apply _.
Defined.

(** Every random state of the learner holds the value [s]. *)
Definition random_state_is (s : Z) (k : Kind) : Prop :=
  match k with
  | KKeras n => n_weights_seed n = Some s
  | KPipeline p =>
      forall parameter, is_substring "random_state" parameter = true ->
        is_Some (p_params p !! parameter) -> p_params p !! parameter = Some (VInt s)
  | KOther e => e_params e !! "random_state" = Some (VInt s)
  end.

(** The two learners differ in their random states at most: same class and
    methods, same steps, same other parameters. *)
Definition same_but_random_state (k k' : Kind) : Prop :=
  match k, k' with
  | KKeras n, KKeras n' => n_arch n' = n_arch n
  | KPipeline p, KPipeline p' =>
      p_steps p' = p_steps p /\
      (forall parameter, is_Some (p_params p' !! parameter) <-> is_Some (p_params p !! parameter)) /\
      (forall parameter, is_substring "random_state" parameter = false ->
         p_params p' !! parameter = p_params p !! parameter)
  | KOther e, KOther e' =>
      e_class e' = e_class e /\ e_fit e' = e_fit e /\ e_predict e' = e_predict e /\
      e_trained e' = e_trained e /\
      (forall parameter, is_Some (e_params e' !! parameter) <-> is_Some (e_params e !! parameter)) /\
      (forall parameter, parameter ≠ "random_state" ->
         e_params e' !! parameter = e_params e !! parameter)
  | _, _ => False
  end.

(** The parameters of a pipeline after the loop of [_set_random_seed] has
    visited the names [parameters]. *)
Definition seed_keys (s : Z) (parameters : list string) (ps : gmap string Value)
    : gmap string Value :=
  foldl (fun acc parameter =>
           if is_substring "random_state" parameter then <[parameter := VInt s]> acc
           else acc) ps parameters.

(** The learner as [_set_random_seed] leaves it. *)
Definition seeded_kind (s : Z) (k : Kind) : Kind :=
  match k with
  | KKeras n => KKeras {| n_arch := n_arch n; n_weights_seed := Some s; n_trained := None |}
  | KPipeline p =>
      KPipeline {| p_steps := p_steps p;
                   p_params := seed_keys s (map_to_list (p_params p)).*1 (p_params p) |}
  | KOther e =>
      if e_fit e && e_predict e && bool_decide (is_Some (e_params e !! "random_state"))
      then KOther {| e_class := e_class e; e_fit := e_fit e; e_predict := e_predict e;
                     e_params := <["random_state" := VInt s]> (e_params e);
                     e_trained := e_trained e |}
      else KOther e
  end.

(** The world as [_set_random_seed] leaves it, called on the reference
    [learner] of the object [o]. *)
Definition seeded_world (learner : Ref) (o : Obj) (s : Z) (w : World) : World :=
  {| w_heap := <[learner := with_kind o (seeded_kind s (o_kind o))]> (w_heap w);
     w_db := w_db w;
     w_tf_seed := match o_kind o with KKeras _ => Some s | _ => w_tf_seed w end;
     w_log := w_log w |}.

(** The object [o] seeded with [s]. *)
Definition seeded (o : Obj) (s : Z) : Obj :=
  with_kind o (seeded_kind s (o_kind o)).

(** The key under which [_get_learner] looks the model [o] up. *)
Definition lookup_key (o : Obj) (random_model : bool) (split_index seed dataset_id : Z)
    (dataset_name : string) (fit_params : gmap string Value) : Fingerprint :=
  fingerprint (seeded o (seed_value random_model split_index seed))
    split_index dataset_id dataset_name fit_params.

(** What is stored in the database [db_name] under the key [fp]. *)
Definition stored (w : World) (db_name : string) (fp : Fingerprint) : option Obj :=
  store_find fp (default [] (w_db w !! db_name)).

(** The world as [_get_learner] leaves it: the seeded copy of the model and
    the learner it returns are new objects; [found] is what the database
    holds under the key [fp]. *)
Definition fetched_world (o : Obj) (s : Z) (db_name : string) (fp : Fingerprint)
    (found : option Obj) (w : World) : World :=
  {| w_heap := w_heap w ++
       [seeded o s;
        match found with
        | Some artifact => with_is_fitted artifact true
        | None => with_is_fitted (seeded o s) false
        end];
     w_db := w_db w;
     w_tf_seed := match o_kind o with KKeras _ => Some s | _ => w_tf_seed w end;
     w_log := EvLoad db_name fp (bool_decide (is_Some found)) :: w_log w |}.

(** What [_is_fitted] finds out about a step: it has [transform] or
    [predict], and calling it does not raise [NotFittedError]. *)
Definition probe (step : Step) : bool :=
  (s_transform step || s_predict step) && bool_decide (is_Some (s_trained step)).

(** The steps of a pipeline that can predict: all fitted, all but the last
    with [transform], the last with [predict]. *)
Fixpoint steps_ready (steps : list Step) : bool :=
  match steps with
  | [] => false
  | [final] => s_predict final && bool_decide (is_Some (s_trained final))
  | step :: rest =>
      s_transform step && bool_decide (is_Some (s_trained step)) && steps_ready rest
  end.

(** A learner on which [predict] works. *)
Definition ready (k : Kind) : bool :=
  match k with
  | KKeras _ => true
  | KPipeline p => steps_ready (p_steps p)
  | KOther e => e_predict e && bool_decide (is_Some (e_trained e))
  end.

(** The steps of a pipeline that can be fitted and then predict. *)
Fixpoint steps_fittable (steps : list Step) : bool :=
  match steps with
  | [] => false
  | [final] => s_fit final && s_predict final
  | step :: rest => s_fit step && s_transform step && steps_fittable rest
  end.

(** A model that [_fit] can fit and that can predict afterwards. *)
Definition fittable (k : Kind) : bool :=
  match k with
  | KKeras _ => true
  | KPipeline p => steps_fittable (p_steps p)
  | KOther e => e_fit e && e_predict e
  end.

(** A fitted artifact: a pipeline is one when [_is_fitted] holds of each of
    its steps. *)
Definition fitted_artifact (k : Kind) : Prop :=
  match k with
  | KPipeline p => Forall (fun step => probe step = true) (p_steps p)
  | _ => True
  end.

#[global] Instance fitted_artifact_dec k : Decision (fitted_artifact k).
Proof. destruct k as [n|p|e]; simpl; apply _. Defined.

(** Every artifact of the database [db_name] is fitted, as section 4.2 of
    the specification has the cache hold them. *)
Definition store_fitted (w : World) (db_name : string) : Prop :=
  forall fp artifact, stored w db_name fp = Some artifact ->
    fitted_artifact (o_kind artifact).

(** Every artifact of the database [db_name] can predict. *)
Definition store_ready (w : World) (db_name : string) : Prop :=
  forall fp artifact, stored w db_name fp = Some artifact ->
    ready (o_kind artifact) = true.

(** The relation between a step and what the loop of [_fit] makes of it:
    the same methods, and fitted. *)
Definition fitted_from (step step' : Step) : Prop :=
  s_fit step' = s_fit step /\ s_transform step' = s_transform step /\
  s_predict step' = s_predict step /\ is_Some (s_trained step').

Definition is_fit (ev : Event) : Prop :=
  match ev with EvFit _ _ => True | _ => False end.

Definition is_save (ev : Event) : Prop :=
  match ev with EvSave _ _ => True | _ => False end.

Definition is_hit (ev : Event) : Prop :=
  match ev with EvLoad _ _ true => True | _ => False end.

(** [logs P m]: whatever its outcome, [m] only adds events that satisfy
    [P] to the log. *)
Definition logs (P : Event -> Prop) {A} (m : M A) : Prop :=
  forall w, exists new, w_log (m w).2 = new ++ w_log w /\ Forall P new.

Definition is_miss (ev : Event) : Prop :=
  match ev with EvLoad _ _ false => True | _ => False end.

(** The world as [save_model] leaves it, called on the object [o]. *)
Definition saved_world (o : Obj) (db_name : string) (fp : Fingerprint) (w : World) : World :=
  {| w_heap := w_heap w;
     w_db := match stored w db_name fp with
             | Some _ => w_db w
             | None => <[db_name := (fp, o) :: default [] (w_db w !! db_name)]> (w_db w)
             end;
     w_tf_seed := w_tf_seed w;
     w_log := EvSave db_name fp :: w_log w |}.

(** The world in which fold [i] of a cross-validation starts: the one the
    folds before it, run in order from 0, have left. *)
Fixpoint world_after `{ext : Externals} (c : CvConfig)
    (list_of_splits : list (list nat * list nat)) (w : World) (i : nat) : World :=
  match i with
  | O => w
  | S j => (cv_fold c list_of_splits j (world_after c list_of_splits w j)).2
  end.

(** What fold [i] of a cross-validation returns. *)
Definition fold_result `{ext : Externals} (c : CvConfig)
    (list_of_splits : list (list nat * list nat)) (w : World) (i : nat)
    : Res (Q * Q * Ref) :=
  (cv_fold c list_of_splits i (world_after c list_of_splits w i)).1.

(** Every position of every fold is a row of both [x] and [y]. *)
Definition splits_in_range (x y : Array) (list_of_splits : list (list nat * list nat))
    : Prop :=
  Forall (fun split =>
            Forall (fun i => i < length x /\ i < length y)%nat split.1 /\
            Forall (fun i => i < length x /\ i < length y)%nat split.2)
         list_of_splits.

(** The partition is what [StratifiedKFold] promises: one fold for each of
    the [n_splits] iterations, made of rows of the data. *)
Definition valid_splits (c : CvConfig) (list_of_splits : list (list nat * list nat))
    : Prop :=
  cv_random_data c = true ->
  length list_of_splits = Z.to_nat (cv_n_splits c) /\
  splits_in_range (rows_of (cv_x c)) (rows_of (cv_y c)) list_of_splits.

(** The state in which every fold of a valid cross-validation starts: the
    caller's model is in the heap, it can be fitted, and the artifacts of
    the database can predict. *)
Definition fold_invariant (c : CvConfig) (o : Obj) (w : World) : Prop :=
  w_heap w !! cv_model c = Some o /\ fittable (o_kind o) = true /\
  store_ready w (cv_db_name c).

(** What the summary needs of its inputs for the model at position
    [index]: the model has a signature, and the lists of scores and of
    p-values have an entry for it, with a confidence interval. *)
Definition summary_input `{ext : Externals} (a : SummaryArgs) (w : World)
    (index : nat) (model : Ref) : Prop :=
  (exists o signature, w_heap w !! model = Some o /\ o_signature o = Some signature) /\
  is_Some (sa_train_cv a !! index) /\
  is_Some (sa_pvalues a !! index) /\
  exists val, sa_val_cv a !! index = Some val /\
              succeeds (confidence_interval_mean_t val (sa_cl a)).

(** The row of the summary for the model at position [index], field by
    field. *)
Definition summary_row `{ext : Externals} (a : SummaryArgs) (w : World)
    (index : nat) (model : Ref) (row : Row) : Prop :=
  (exists o, w_heap w !! model = Some o /\ o_signature o = Some (r_model row)) /\
  sa_train_cv a !! index = Some (r_train_cv row) /\
  sa_val_cv a !! index = Some (r_val_cv row) /\
  sa_pvalues a !! index = Some (r_pvalue row) /\
  r_mean row = np_mean (r_val_cv row) /\
  confidence_interval_mean_t (r_val_cv row) (sa_cl a)
  = Ok (r_ci_l_bound row, r_ci_u_bound row) /\
  (r_separable row = true <-> index ∉ sa_best_solutions a) /\
  r_db_name row = sa_dataset_name a /\
  r_db_did row = sa_dataset_id a /\
  r_test row = test_name (sa_test a) /\
  r_alpha row = sa_alpha a /\
  r_metric row = str_of_scoring (sa_scoring a) /\
  r_random_data row = sa_random_data a /\
  r_random_model row = sa_random_model a /\
  r_seed row = sa_seed a /\
  r_n_splits row = sa_n_splits a.

(** The same call with another statistical test. *)
Definition with_test (a : CompareArgs) (test : Test) : CompareArgs :=
  {| ca_x_train := ca_x_train a; ca_y_train := ca_y_train a;
     ca_x_val := ca_x_val a; ca_y_val := ca_y_val a;
     ca_random_data := ca_random_data a; ca_random_model := ca_random_model a;
     ca_seed := ca_seed a; ca_n_splits := ca_n_splits a;
     ca_scoring := ca_scoring a; ca_test := test;
     ca_alpha := ca_alpha a; ca_cl := ca_cl a;
     ca_experiment_name := ca_experiment_name a; ca_db_name := ca_db_name a;
     ca_dataset_id := ca_dataset_id a; ca_dataset_name := ca_dataset_name a;
     ca_output_dir := ca_output_dir a |}.

(** The same row with another name in the column of the test. *)
Definition row_with_test (name : string) (row : Row) : Row :=
  {| r_db_name := r_db_name row; r_db_did := r_db_did row; r_model := r_model row;
     r_train_cv := r_train_cv row; r_val_cv := r_val_cv row; r_mean := r_mean row;
     r_ci_l_bound := r_ci_l_bound row; r_ci_u_bound := r_ci_u_bound row;
     r_separable := r_separable row; r_pvalue := r_pvalue row;
     r_test := name; r_alpha := r_alpha row; r_metric := r_metric row;
     r_random_data := r_random_data row; r_random_model := r_random_model row;
     r_seed := r_seed row; r_n_splits := r_n_splits row |}.

Definition res_map {A B} (g : A -> B) (r : Res A) : Res B :=
  match r with
  | Ok a => Ok (g a)
  | Raise e => Raise e
  end.

(** The columns of the summary that the statistical test decides, with
    its name. *)
Definition test_columns (r : Res (list Row)) : Res (list (string * Q * bool)) :=
  res_map (map (fun row => (r_test row, r_pvalue row, r_separable row))) r.

(** [same_db m]: whatever its outcome, [m] leaves the databases as they
    were. *)
Definition same_db {A} (m : M A) : Prop :=
  forall w, w_db (m w).2 = w_db w.

(** ** What a call leaves untouched

    [keeps S H0 w]: every object of the heap [H0] is still in [w] at its
    place, with its learner and its [is_fitted] attribute, and with its
    [signature] too unless its reference is in [S]. *)

Definition keeps (S : list Ref) (H0 : list Obj) (w : World) : Prop :=
  forall r o, H0 !! r = Some o ->
    exists o', w_heap w !! r = Some o' /\ o_kind o' = o_kind o /\
               o_is_fitted o' = o_is_fitted o /\
               (r ∉ S -> o_signature o' = o_signature o).

(** [safe S H0 m P]: running [m] maintains [keeps S H0], and a value it
    returns satisfies [P]. *)
Definition safe (S : list Ref) (H0 : list Obj) {A} (m : M A) (P : A -> Prop) : Prop :=
  forall w, keeps S H0 w ->
    keeps S H0 (m w).2 /\ forall a, (m w).1 = Ok a -> P a.

(** The learner after a call of its [fit] with the training [t]; a pipeline
    is fitted step by step instead. *)
Definition trained_kind (k : Kind) (t : Training) : Kind :=
  match k with
  | KKeras n =>
      KKeras {| n_arch := n_arch n; n_weights_seed := n_weights_seed n;
                n_trained := Some t |}
  | KPipeline p => KPipeline p
  | KOther e =>
      KOther {| e_class := e_class e; e_fit := e_fit e; e_predict := e_predict e;
                e_params := e_params e; e_trained := Some t |}
  end.

(** The same call with another number of folds. *)
Definition with_n_splits (c : CvConfig) (n_splits : Z) : CvConfig :=
  {| cv_model := cv_model c; cv_x := cv_x c; cv_y := cv_y c;
     cv_db_name := cv_db_name c; cv_dataset_id := cv_dataset_id c;
     cv_dataset_name := cv_dataset_name c;
     cv_x_val := cv_x_val c; cv_y_val := cv_y_val c;
     cv_random_data := cv_random_data c; cv_random_model := cv_random_model c;
     cv_seed := cv_seed c; cv_n_splits := n_splits;
     cv_scoring := cv_scoring c; cv_fit_params := cv_fit_params c |}.

(** An event on the data set [dataset_id], [dataset_name] of the database
    [db_name]: a fit, or a lookup or a save under a key of that data set. *)
Definition on_dataset (db_name : string) (dataset_id : Z) (dataset_name : string)
    (ev : Event) : Prop :=
  match ev with
  | EvFit _ _ => True
  | EvLoad db_name' fp _ | EvSave db_name' fp =>
      db_name' = db_name /\ fp_dataset_id fp = dataset_id /\
      fp_dataset_name fp = dataset_name
  | EvDrop _ | EvCsv _ _ => False
  end.

(** The database, the data set identifier and the data set name that
    [compare_models] works with. *)
Definition effective_db_name (a : CompareArgs) : string :=
  if not_dataset_id (ca_dataset_id a) then "new-db" else ca_db_name a.

Definition effective_dataset_id (a : CompareArgs) : Z :=
  if not_dataset_id (ca_dataset_id a) then 1 else default 0 (ca_dataset_id a).

Definition effective_dataset_name (a : CompareArgs) : string :=
  if not_dataset_name (ca_dataset_name a) then "dataset"
  else default "" (ca_dataset_name a).


(** [grows m]: whatever its outcome, [m] leaves every artifact of every
    database where it is. *)
Definition grows {A} (m : M A) : Prop :=
  forall w db_name fp artifact,
    stored w db_name fp = Some artifact ->
    stored (m w).2 db_name fp = Some artifact.

(** The object at [r] is a fitted model of fold [split_index] of the
    cross-validation [c]: it can predict, and its signature is the key of the
    object itself for that fold, a key that the database of [c] holds. *)
Definition signed_for (w : World) (c : CvConfig) (split_index : nat) (r : Ref) : Prop :=
  exists copy,
    w_heap w !! r = Some copy /\ ready (o_kind copy) = true /\
    o_signature copy
    = Some (Sig (cv_db_name c)
              (fingerprint copy (Z.of_nat split_index) (cv_dataset_id c)
                 (cv_dataset_name c) (cv_fit_params c))) /\
    is_Some (stored w (cv_db_name c)
               (fingerprint copy (Z.of_nat split_index) (cv_dataset_id c)
                  (cv_dataset_name c) (cv_fit_params c))).

(** The signature names an artifact that the database [db_name] holds, under
    a key of the given data set and fold. *)
Definition names_artifact (w : World) (db_name : string) (dataset_id : Z)
    (dataset_name : string) (split_index : Z) (signature : Signature) : Prop :=
  exists fp,
    signature = Sig db_name fp /\ fp_split fp = split_index /\
    fp_dataset_id fp = dataset_id /\ fp_dataset_name fp = dataset_name /\
    is_Some (stored w db_name fp).

(** ** A small instance of the libraries, to run the model on *)

Definition toy_split (n_splits seed : Z) (x y : Array) : Res (list (list nat * list nat)) :=
  if ((n_splits <? 2) || (Z.of_nat (length x) <? n_splits))%Z then Raise ValueError
  else Ok (map (fun k =>
                  (filter (fun i => bool_decide (i `mod` Z.to_nat n_splits ≠ k)%nat) (seq 0 (length x)),
                   filter (fun i => bool_decide (i `mod` Z.to_nat n_splits = k)%nat) (seq 0 (length x))))
               (seq 0 (Z.to_nat n_splits))).

Definition toy_accuracy (y_true y_pred : Array) : Q :=
  Qred (inject_Z (Z.of_nat (length (filter (fun p => bool_decide (p.1 = p.2)) (zip y_true y_pred))))
        / inject_Z (Z.of_nat (length y_true))).

Definition toy_estimator_answer (e : Estimator) (x : Array) : Array :=
  match e_params e !! "random_state" with
  | Some (VInt s) => map (fun v => (v + s) `mod` 2) x
  | _ => map (fun v => v `mod` 2) x
  end.

Definition toy_rank_test : Test :=
  {| test_name := "mannwhitneyu";
     test_pvalue := fun a b _ _ =>
       if Qle_bool (np_mean a) (np_mean b) && Qle_bool (np_mean b) (np_mean a)
       then Ok 1%Q else Ok (1 # 100)%Q |}.

#[local] Instance toy : Externals := {|
  skf_split := toy_split;
  step_transform_out := fun _ _ x => x;
  step_predict_out := fun _ _ x => map (fun v => v `mod` 2) x;
  est_predict_out := toy_estimator_answer;
  net_predict_out := fun n x => map (fun v => v `mod` 2) x;
  accuracy_score := toy_accuracy;
  f1_score_weighted := toy_accuracy;
  mannwhitneyu := toy_rank_test;
  confidence_interval_mean_t := fun scores cl =>
    if (length scores <? 2)%nat then Raise ValueError
    else Ok (np_mean scores - cl, np_mean scores + cl)%Q
|}.

Definition ridge : Obj :=
  {| o_kind := KOther {| e_class := "RidgeClassifier"; e_fit := true; e_predict := true;
                         e_params := {[ "alpha" := VInt 1; "random_state" := VNone ]};
                         e_trained := None |};
     o_is_fitted := None; o_signature := None |}.

Definition knn : Obj :=
  {| o_kind := KOther {| e_class := "KNeighborsClassifier"; e_fit := true; e_predict := true;
                         e_params := {[ "n_neighbors" := VInt 5 ]};
                         e_trained := None |};
     o_is_fitted := None; o_signature := None |}.

Definition toy_args : CompareArgs :=
  {| ca_x_train := DArray [0; 1; 2; 3; 4; 5]; ca_y_train := DArray [0; 1; 0; 1; 0; 1];
     ca_x_val := DNone; ca_y_val := DNone;
     ca_random_data := true; ca_random_model := true;
     ca_seed := 42; ca_n_splits := 2; ca_scoring := ScStr "accuracy";
     ca_test := toy_rank_test; ca_alpha := (1 # 20)%Q; ca_cl := (1 # 20)%Q;
     ca_experiment_name := "default"; ca_db_name := "templates";
     ca_dataset_id := None; ca_dataset_name := None;
     ca_output_dir := "./output" |}.

Definition toy_cv : CvConfig :=
  {| cv_model := 0%nat; cv_x := DArray [0; 1; 2; 3; 4; 5]; cv_y := DArray [0; 1; 0; 1; 0; 1];
     cv_db_name := "templates"; cv_dataset_id := 1; cv_dataset_name := "make-class";
     cv_x_val := DNone; cv_y_val := DNone;
     cv_random_data := true; cv_random_model := true;
     cv_seed := 42; cv_n_splits := 2; cv_scoring := ScStr "f1";
     cv_fit_params := ∅ |}.

(** The cross-validation of the second model of [toy_world], which has no
    random state. *)
Definition knn_cv (random_model : bool) : CvConfig :=
  {| cv_model := 1%nat; cv_x := DArray [0; 1; 2; 3; 4; 5]; cv_y := DArray [0; 1; 0; 1; 0; 1];
     cv_db_name := "templates"; cv_dataset_id := 1; cv_dataset_name := "make-class";
     cv_x_val := DNone; cv_y_val := DNone;
     cv_random_data := true; cv_random_model := random_model;
     cv_seed := 42; cv_n_splits := 2; cv_scoring := ScStr "f1";
     cv_fit_params := ∅ |}.

Definition toy_world : World :=
  {| w_heap := [ridge; knn]; w_db := ∅; w_tf_seed := None; w_log := [] |}.

(** The key of the first fold of the second model, and the world after its
    cross-validation with [random_model = true]. *)
Definition knn_key : Fingerprint := fingerprint knn 0 1 "make-class" ∅.

Definition knn_cached_world : World := (cross_validation (knn_cv true) toy_world).2.

(** The world after the comparison of the two models of [toy_world], and
    the inputs of the summary of that comparison. *)
Definition toy_compared_world : World :=
  (compare_models [0%nat; 1%nat] [∅; ∅] toy_args toy_world).2.

Definition toy_summary : SummaryArgs :=
  {| sa_random_data := true; sa_random_model := true; sa_seed := 42; sa_n_splits := 2;
     sa_scoring := ScStr "accuracy"; sa_test := toy_rank_test;
     sa_alpha := (1 # 20)%Q; sa_cl := (1 # 20)%Q;
     sa_dataset_id := 1; sa_dataset_name := "dataset";
     sa_train_cv := [[1; 0]; [1; 1]]%Q; sa_val_cv := [[1; 0]; [1; 1]]%Q;
     sa_pvalues := [(1 # 100); 1]%Q; sa_best_solutions := [1%nat] |}.

(** A test of the caller's, which answers one half whatever the samples. *)
Definition coin_test : Test :=
  {| test_name := "ttest_ind"; test_pvalue := fun _ _ _ _ => Ok (1 # 2)%Q |}.

Definition toy_splits : list (list nat * list nat) :=
  [([1; 3; 5], [0; 2; 4]); ([0; 2; 4], [1; 3; 5])]%nat.




Definition unfitted_world : World :=
  {| w_heap := [with_is_fitted knn false]; w_db := ∅; w_tf_seed := None; w_log := [] |}.

(** A comparison on a fixed split, without a fold. *)
Definition fixed_split_args : CompareArgs :=
  {| ca_x_train := DArray [0; 1; 2; 3]; ca_y_train := DArray [0; 1; 0; 1];
     ca_x_val := DArray [4; 5]; ca_y_val := DArray [0; 1];
     ca_random_data := false; ca_random_model := true;
     ca_seed := 42; ca_n_splits := 0; ca_scoring := ScStr "accuracy";
     ca_test := toy_rank_test; ca_alpha := (1 # 20)%Q; ca_cl := (1 # 20)%Q;
     ca_experiment_name := "default"; ca_db_name := "templates";
     ca_dataset_id := Some 1; ca_dataset_name := Some "make-class";
     ca_output_dir := "./output" |}.

(** The inputs of a summary with validation scores for one model only. *)
Definition short_summary : SummaryArgs :=
  {| sa_random_data := true; sa_random_model := true; sa_seed := 42; sa_n_splits := 2;
     sa_scoring := ScStr "accuracy"; sa_test := toy_rank_test;
     sa_alpha := (1 # 20)%Q; sa_cl := (1 # 20)%Q;
     sa_dataset_id := 1; sa_dataset_name := "dataset";
     sa_train_cv := [[1; 0]]%Q; sa_val_cv := [[1; 0]]%Q;
     sa_pvalues := [1]%Q; sa_best_solutions := [0%nat] |}.

(** The scores of the cross-validation [toy_cv] in [toy_world], and the
    world it leaves. *)
Definition toy_cv_scores : Scores :=
  {| score_train_blind := []; score_test_blind := [];
     score_train_cv := [1; 0]%Q; score_val_cv := [1; 0]%Q |}.

Definition toy_cv_world : World := (cross_validation toy_cv toy_world).2.



(** * Properties *)

(** ** The model on small inputs *)

Example is_substring_examples :
  is_substring "random_state" "clf__random_state" = true /\
  is_substring "random_state" "random_state" = true /\
  is_substring "random_state" "clf__alpha" = false /\
  is_substring "random_state" "" = false.
Proof. repeat split; reflexivity. Qed.

Example np_take_examples :
  np_take [10; 20; 30] [2; 0]%nat = Ok [30; 10] /\
  np_take [10; 20; 30] [3]%nat = Raise IndexError.
Proof. split; reflexivity. Qed.

(** Two folds: two scores of each kind and two fitted models, and in the
    log a lookup, a fit and a save for each fold. *)
Example cross_validation_run :
  res_map (fun r => (score_train_cv r.1, score_val_cv r.1, r.2))
    (cross_validation toy_cv toy_world).1
  = Ok ([1; 0]%Q, [1; 0]%Q, [4; 7]%nat) /\
  length (w_log (cross_validation toy_cv toy_world).2) = 6%nat.
Proof. split; vm_compute; reflexivity. Qed.

(** The best solution is the first of those with the largest mean. *)
Example find_best_solution_ties :
  find_best_solution [[1; 0]; [1; 1]; [1; 1]]%Q toy_rank_test (1 # 20)%Q false "two-sided"
  = Ok (1%nat, [1; 2]%nat, [(1 # 100); 1; 1]%Q).
Proof. vm_compute. reflexivity. Qed.

(** ** The monad *)

Lemma bind_ok {A B} (m : M A) (f : A -> M B) w a w' :
  m w = (Ok a, w') -> bind m f w = f a w'.
Proof. intros H. unfold bind. by rewrite H. Qed.

Lemma bind_raise {A B} (m : M A) (f : A -> M B) w e w' :
  m w = (Raise e, w') -> bind m f w = (Raise e, w').
Proof. intros H. unfold bind. by rewrite H. Qed.

Lemma bind_inv_ok {A B} (m : M A) (f : A -> M B) w b w'' :
  bind m f w = (Ok b, w'') ->
  exists a w', m w = (Ok a, w') /\ f a w' = (Ok b, w'').
Proof.
  unfold bind. destruct (m w) as [[a|e] w'] eqn:E; intros H.
  - by exists a, w'.
  - discriminate.
Qed.

Lemma bind_ext {A B} (m : M A) (f g : A -> M B) w :
  (forall a w', f a w' = g a w') -> bind m f w = bind m g w.
Proof. intros H. unfold bind. destruct (m w) as [[a|e] w']; [apply H | done]. Qed.

Lemma bind_cong {A B} (m m' : M A) (f g : A -> M B) w :
  m w = m' w -> (forall a w', f a w' = g a w') -> bind m f w = bind m' g w.
Proof. intros Hm H. unfold bind. rewrite Hm. destruct (m' w) as [[a|e] w']; [apply H | done]. Qed.

(** ** What a call leaves untouched *)

Lemma keeps_refl S w : keeps S (w_heap w) w.
Proof. intros r o H. exists o. done. Qed.

Lemma keeps_length S H0 w : keeps S H0 w -> (length H0 <= length (w_heap w))%nat.
Proof.
  intros K. destruct (decide (length H0 <= length (w_heap w))%nat) as [|N]; [done|].
  assert (L : (length (w_heap w) < length H0)%nat) by lia.
  destruct (lookup_lt_is_Some_2 H0 _ L) as [o Ho].
  destruct (K _ _ Ho) as (o' & Ho' & _).
  apply lookup_lt_Some in Ho'. lia.
Qed.

Lemma keeps_nil H0 w r o :
  keeps [] H0 w -> H0 !! r = Some o -> w_heap w !! r = Some o.
Proof.
  intros K Ho. destruct (K _ _ Ho) as (o' & Ho' & Hk & Hf & Hs).
  rewrite Ho'. f_equal. destruct o, o'; simpl in *.
  rewrite Hk, Hf, Hs; [done|]. apply not_elem_of_nil.
Qed.

Section Safe.
Context (S : list Ref) (H0 : list Obj).

Lemma safe_ret {A} (a : A) (P : A -> Prop) : P a -> safe S H0 (ret a) P.
Proof. intros Pa w K. split; [done|]. simpl. by intros ? [= <-]. Qed.

Lemma safe_raise {A} e (P : A -> Prop) : safe S H0 (raise e) P.
Proof. intros w K. split; [done|]. simpl. by intros ? [=]. Qed.

Lemma safe_lift {A} (r : Res A) : safe S H0 (lift r) (fun _ => True).
Proof. intros w K. split; done. Qed.

Lemma safe_bind {A B} (m : M A) (f : A -> M B) P Q :
  safe S H0 m P -> (forall a, P a -> safe S H0 (f a) Q) -> safe S H0 (bind m f) Q.
Proof.
  intros Hm Hf w K. unfold bind.
  destruct (Hm w K) as [K' HP].
  destruct (m w) as [[a|e] w']; simpl in *.
  - apply Hf; auto.
  - split; [done|]. by intros ? [=].
Qed.

Lemma safe_weaken {A} (m : M A) (P Q : A -> Prop) :
  safe S H0 m P -> (forall a, P a -> Q a) -> safe S H0 m Q.
Proof. intros Hm HPQ w K. destruct (Hm w K). split; auto. Qed.

Lemma safe_assert b : safe S H0 (py_assert b) (fun _ => True).
Proof. destruct b; [by apply safe_ret | apply safe_raise]. Qed.

Lemma safe_log ev : safe S H0 (log ev) (fun _ => True).
Proof. intros w K. split; done. Qed.

Lemma safe_get_world : safe S H0 get_world (fun _ => True).
Proof. intros w K. split; done. Qed.

Lemma safe_set_db db : safe S H0 (set_db db) (fun _ => True).
Proof. intros w K. split; done. Qed.

Lemma safe_set_tf_seed s : safe S H0 (set_random_seed s) (fun _ => True).
Proof. intros w K. split; done. Qed.

Lemma safe_deref r : safe S H0 (deref r) (fun _ => True).
Proof.
  intros w K. unfold deref. destruct (w_heap w !! r); split; done.
Qed.

Lemma safe_alloc o : safe S H0 (alloc o) (fun l => length H0 <= l)%nat.
Proof.
  intros w K. split; simpl.
  - intros r o0 Ho. destruct (K _ _ Ho) as (o' & Ho' & Hrest).
    exists o'. split; [|done]. by apply lookup_app_l_Some.
  - intros a [= <-]. by eapply keeps_length.
Qed.

(** Writing to an object allocated after [H0] was taken. *)
Lemma safe_assign r o : (length H0 <= r)%nat -> safe S H0 (assign r o) (fun _ => True).
Proof.
  intros Hr w K. unfold assign. destruct (w_heap w !! r) eqn:E; split; try done.
  intros r1 o1 Ho. destruct (K _ _ Ho) as (o' & Ho' & Hrest).
  exists o'. split; [|done]. cbn [snd w_heap].
  rewrite list_lookup_insert_ne; [done|].
  apply lookup_lt_Some in Ho. lia.
Qed.

Lemma safe_deepcopy r : safe S H0 (deepcopy r) (fun l => length H0 <= l)%nat.
Proof.
  unfold deepcopy. eapply safe_bind; [apply safe_deref|].
  intros o _. apply safe_alloc.
Qed.

End Safe.

(** Writing the [signature] of an object whose reference is in [S]. *)
Lemma safe_set_signature_in S H0 r signature :
  r ∈ S -> safe S H0 (set_signature r signature) (fun _ => True).
Proof.
  intros Hr w K. unfold set_signature, bind, deref, assign.
  destruct (w_heap w !! r) as [o|] eqn:E; [|by split].
  cbn [snd w_heap]. rewrite E. split; [|done].
  intros r1 o1 Ho. cbn [snd w_heap].
  destruct (decide (r = r1)) as [<-|Hne].
  - destruct (K _ _ Ho) as (o' & Ho' & Hk & Hf & Hs).
    rewrite E in Ho'. injection Ho' as <-.
    exists (with_signature o signature). split.
    + apply list_lookup_insert_eq. by eapply lookup_lt_Some.
    + simpl. repeat split; done.
  - destruct (K _ _ Ho) as (o' & Ho' & Hrest). exists o'.
    by rewrite list_lookup_insert_ne.
Qed.

Create HintDb safe.

#[export] Hint Resolve safe_ret safe_raise safe_lift safe_assert safe_log
  safe_get_world safe_set_db safe_set_tf_seed safe_deref safe_alloc
  safe_assign safe_deepcopy : safe.

(** One step through a computation: a bind, a case distinction, or a
    primitive whose lemma is in the hint database. *)
Ltac safe_step :=
  match goal with
  | |- safe _ _ (bind _ _) _ => eapply safe_bind; [|intros ? ?]
  | |- safe _ _ (match ?x with _ => _ end) _ => destruct x eqn:?
  | |- safe _ _ (if ?b then _ else _) _ => destruct b eqn:?
  | |- safe _ _ (let '(_, _) := ?x in _) _ => destruct x
  | |- safe _ _ _ _ => first [ solve [eauto with safe]
                               | eapply safe_weaken; [solve [eauto with safe] | done ] ]
  end.

Section SafeLearning.
Context `{ext : Externals}.
Context (S : list Ref) (H0 : list Obj).

Lemma safe_set_params l parameter value :
  (length H0 <= l)%nat -> safe S H0 (set_params l parameter value) (fun _ => True).
Proof. intros Hl. unfold set_params. repeat safe_step. Qed.

Lemma safe_reset_weights l seed :
  (length H0 <= l)%nat -> safe S H0 (reset_weights l seed) (fun _ => True).
Proof. intros Hl. unfold reset_weights. repeat safe_step. Qed.

Hint Resolve safe_set_params safe_reset_weights : safe.

Lemma safe_seed_parameters l parameters random_model split_index seed :
  (length H0 <= l)%nat ->
  safe S H0 (seed_parameters l parameters random_model split_index seed) (fun _ => True).
Proof.
  intros Hl. induction parameters as [|parameter rest IH]; simpl.
  - by apply safe_ret.
  - eapply safe_bind; [|intros _ _; apply IH]. repeat safe_step.
Qed.

Hint Resolve safe_seed_parameters : safe.

Lemma safe_set_random_seed l random_model split_index seed :
  (length H0 <= l)%nat ->
  safe S H0 (_set_random_seed l random_model split_index seed)
    (fun r => length H0 <= r)%nat.
Proof. intros Hl. unfold _set_random_seed. repeat safe_step. Qed.

Lemma safe_load_model l split_index dataset_id dataset_name fit_params db_name :
  safe S H0 (load_model l split_index dataset_id dataset_name fit_params db_name)
    (fun loaded => forall r, loaded = Some r -> length H0 <= r)%nat.
Proof.
  unfold load_model. repeat safe_step.
  - apply safe_ret. by intros ? [= <-].
  - by apply safe_ret.
Qed.

Lemma safe_save_model l split_index dataset_id dataset_name fit_params db_name :
  safe S H0 (save_model l split_index dataset_id dataset_name fit_params db_name)
    (fun _ => True).
Proof. unfold save_model. repeat safe_step. Qed.

Lemma safe_set_is_fitted l b :
  (length H0 <= l)%nat -> safe S H0 (set_is_fitted l b) (fun _ => True).
Proof. intros Hl. unfold set_is_fitted. repeat safe_step. Qed.

Lemma safe_set_signature l signature :
  (length H0 <= l)%nat -> safe S H0 (set_signature l signature) (fun _ => True).
Proof. intros Hl. unfold set_signature. repeat safe_step. Qed.

Hint Resolve safe_set_random_seed safe_load_model safe_save_model
  safe_set_is_fitted safe_set_signature : safe.

Lemma safe_get_learner model db_name dataset_id dataset_name random_model
    split_index seed fit_params :
  safe S H0 (_get_learner model db_name dataset_id dataset_name random_model
               split_index seed fit_params)
    (fun r => length H0 <= r)%nat.
Proof.
  unfold _get_learner. repeat safe_step.
Qed.

Hint Resolve safe_get_learner : safe.

Lemma safe_fit_steps l o ps seen todo x_train_t y_train :
  (length H0 <= l)%nat ->
  safe S H0 (fit_steps l o ps seen todo x_train_t y_train) (fun _ => True).
Proof.
  intros Hl. revert seen x_train_t.
  induction todo as [|step rest IH]; intros seen x_train_t; simpl.
  - by apply safe_ret.
  - eapply safe_bind; [apply safe_lift|]. intros fitted _.
    eapply safe_bind; [|intros step' _].
    { instantiate (1 := fun _ => True). repeat safe_step. }
    eapply safe_bind; [|intros xt _; apply IH].
    instantiate (1 := fun _ => True). repeat safe_step.
Qed.

Hint Resolve safe_fit_steps : safe.

Lemma safe_getattr_is_fitted o : safe S H0 (getattr_is_fitted o) (fun _ => True).
Proof. unfold getattr_is_fitted. repeat safe_step. Qed.

Lemma safe_getattr_signature o : safe S H0 (getattr_signature o) (fun _ => True).
Proof. unfold getattr_signature. repeat safe_step. Qed.

Lemma safe_list_index {A} (l : list A) i : safe S H0 (list_index l i) (fun _ => True).
Proof. unfold list_index. repeat safe_step. Qed.

Hint Resolve safe_getattr_is_fitted safe_getattr_signature safe_list_index : safe.

Lemma safe_fit l x_train y_train fit_params :
  (length H0 <= l)%nat ->
  safe S H0 (_fit l x_train y_train fit_params) (fun r => length H0 <= r)%nat.
Proof. intros Hl. unfold _fit. repeat safe_step. Qed.

Lemma safe_predict l x : safe S H0 (predict l x) (fun _ => True).
Proof. unfold predict. repeat safe_step. Qed.

Lemma safe_fold_data c list_of_splits split_index :
  safe S H0 (fold_data c list_of_splits split_index) (fun _ => True).
Proof. unfold fold_data. repeat safe_step. Qed.

Hint Resolve safe_fit safe_predict safe_fold_data : safe.

Lemma safe_cv_fold c list_of_splits split_index :
  safe S H0 (cv_fold c list_of_splits split_index)
    (fun result => length H0 <= result.2)%nat.
Proof. unfold cv_fold. repeat safe_step. Qed.

Lemma safe_cv_loop c list_of_splits folds score fitted_models :
  Forall (fun r => length H0 <= r)%nat fitted_models ->
  safe S H0 (cv_loop c list_of_splits folds score fitted_models)
    (fun result => Forall (fun r => length H0 <= r)%nat result.2).
Proof.
  revert score fitted_models.
  induction folds as [|split_index rest IH]; intros score fitted_models Hall; simpl.
  - by apply safe_ret.
  - eapply safe_bind; [apply safe_cv_fold|].
    intros [[score_train score_val] fitted] Hf. apply IH.
    apply Forall_app. split; [done|]. by apply Forall_singleton.
Qed.

Lemma safe_check_input c : safe S H0 (check_input c) (fun _ => True).
Proof. unfold check_input. repeat safe_step. Qed.

Hint Resolve safe_check_input : safe.

Lemma safe_cross_validation c :
  safe S H0 (cross_validation c)
    (fun result => Forall (fun r => length H0 <= r)%nat result.2).
Proof.
  unfold cross_validation. eapply safe_bind; [apply safe_check_input|]. intros _ _.
  eapply safe_bind; [apply safe_lift|]. intros splits _. by apply safe_cv_loop.
Qed.

Lemma safe_summary_rows a models index results :
  safe S H0 (summary_rows a models index results) (fun _ => True).
Proof.
  revert index results. induction models as [|model rest IH]; intros index results; simpl.
  - by apply safe_ret.
  - repeat (eapply safe_bind; [solve [eauto with safe]|intros ? _]). apply IH.
Qed.

Lemma safe_compare_loop a db_name dataset_id dataset_name pairs train_cv val_cv :
  Forall (fun pair => pair.1 ∈ S) pairs ->
  safe S H0 (compare_loop a db_name dataset_id dataset_name pairs train_cv val_cv)
    (fun _ => True).
Proof.
  revert train_cv val_cv.
  induction pairs as [|[model fit_params] rest IH]; intros train_cv val_cv Hin; simpl.
  - by apply safe_ret.
  - apply Forall_cons in Hin as [Hm Hrest].
    eapply safe_bind; [apply safe_cross_validation|].
    intros [score fitted_models] Hf.
    eapply safe_bind; [|intros final _].
    { instantiate (1 := fun _ => True). repeat safe_step. }
    eapply safe_bind; [apply safe_deref|]. intros final_o _.
    eapply safe_bind; [apply safe_getattr_signature|]. intros signature _.
    eapply safe_bind; [by apply safe_set_signature_in|]. intros _ _.
    by apply IH.
Qed.

Lemma safe_compare_with models params a db_name dataset_id dataset_name :
  models ⊆ S ->
  safe S H0 (compare_with models params a db_name dataset_id dataset_name) (fun _ => True).
Proof.
  intros Hsub. unfold compare_with.
  eapply safe_bind; [apply safe_compare_loop|].
  { apply Forall_forall. intros [model fit_params] Hin. simpl.
    apply Hsub. by eapply elem_of_zip_l. }
  intros [train_cv val_cv] _.
  eapply safe_bind; [apply safe_lift|]. intros [[best_sol best_solutions] pvalues] _.
  eapply safe_bind; [apply safe_summary_rows|]. intros results _.
  eapply safe_bind; [apply safe_log|]. intros _ _. by apply safe_ret.
Qed.

Lemma safe_drop_db db_name : safe S H0 (drop_db db_name) (fun _ => True).
Proof. unfold drop_db. repeat safe_step. Qed.

Lemma safe_compare_models models params a :
  models ⊆ S -> safe S H0 (compare_models models params a) (fun _ => True).
Proof.
  intros Hsub. unfold compare_models.
  eapply safe_bind with (P := fun _ => True).
  - destruct (not_dataset_id (ca_dataset_id a)).
    + eapply safe_bind; [apply safe_drop_db|]. intros _ _. by apply safe_ret.
    + by apply safe_ret.
  - intros [dataset_id db_name] _. by apply safe_compare_with.
Qed.

End SafeLearning.

(** ** The caller's models *)

(** C2, as the code has it.  Whatever its outcome, [cross_validation]
    leaves every object that existed before the call as it was, the caller's
    model among them: it fits, seeds and marks copies only.
    [compare_models] keeps the learner and the [is_fitted] attribute of every
    such object, and keeps it whole unless it is one of [models]: of those it
    rebinds the [signature] attribute. *)
Theorem caller_models_preserved `{ext : Externals} (w : World) (r : Ref) (o : Obj)
    (c : CvConfig) (models : list Ref) (params : list (gmap string Value))
    (a : CompareArgs) :
  w_heap w !! r = Some o ->
  w_heap (cross_validation c w).2 !! r = Some o /\
  exists o', w_heap (compare_models models params a w).2 !! r = Some o' /\
             o_kind o' = o_kind o /\ o_is_fitted o' = o_is_fitted o /\
             (r ∉ models -> o' = o).
Proof.
  intros Hr. split.
  - destruct (safe_cross_validation [] (w_heap w) c w (keeps_refl [] w)) as [K _].
    by eapply keeps_nil.
  - destruct (safe_compare_models models (w_heap w) models params a
                (reflexivity models) w (keeps_refl models w)) as [K _].
    destruct (K _ _ Hr) as (o' & Ho' & Hk & Hf & Hs).
    exists o'. repeat split; try done.
    intros Hnot. specialize (Hs Hnot).
    destruct o, o'; simpl in *. by subst.
Qed.

Lemma caller_models_preserved_witness :
  w_heap toy_world !! 0%nat = Some ridge /\
  (w_heap (cross_validation toy_cv toy_world).2 !! 0%nat = Some ridge /\
   exists o', w_heap (compare_models [0%nat; 1%nat] [∅; ∅] toy_args toy_world).2 !! 0%nat
                = Some o' /\
              o_kind o' = o_kind ridge /\ o_is_fitted o' = o_is_fitted ridge /\
              (0%nat ∉ [0%nat; 1%nat] -> o' = ridge)).
Proof.
  split; [reflexivity|].
  apply (caller_models_preserved toy_world 0%nat ridge toy_cv). reflexivity.
Defined.

(** C2 as stated fails: after [compare_models] the [signature] attribute of
    the caller's first model is no longer what it was. *)
Lemma caller_model_signature_rebound :
  o_signature <$> w_heap (compare_models [0%nat; 1%nat] [∅; ∅] toy_args toy_world).2 !! 0%nat
  ≠ o_signature <$> w_heap toy_world !! 0%nat.
Proof. vm_compute. discriminate. Qed.

(** ** The checks on the arguments *)

(** C6.  Without data randomisation and without validation data, or with
    model randomisation, without data randomisation and with training or
    validation data that is not an array, [cross_validation] raises an
    [AssertionError] and leaves the world as it found it: nothing was
    fitted, loaded or stored, and no fold was run. *)
Theorem cross_validation_checks_first `{ext : Externals} (c : CvConfig) (w : World) :
  (cv_random_data c = false /\ (cv_x_val c = DNone \/ cv_y_val c = DNone)) \/
  (cv_random_model c = true /\ cv_random_data c = false /\
   (is_ndarray (cv_x c) = false \/ is_ndarray (cv_y c) = false \/
    is_ndarray (cv_x_val c) = false \/ is_ndarray (cv_y_val c) = false)) ->
  cross_validation c w = (Raise AssertionError, w).
Proof.
  intros H. unfold cross_validation.
  apply bind_raise. unfold check_input, bind, py_assert, ret, raise.
  destruct (is_ndarray (cv_x c)) eqn:Ex; [|done].
  destruct (is_ndarray (cv_y c)) eqn:Ey; [|done]. simpl.
  destruct H as [[Hd Hv] | (Hm & Hd & Hv)]; rewrite Hd; simpl.
  - destruct Hv as [-> | ->]; [done|].
    by destruct (is_not_None (cv_x_val c)).
  - rewrite Hm. simpl.
    destruct (is_not_None (cv_x_val c) && is_not_None (cv_y_val c)); [|done].
    destruct Hv as [Hv | [Hv | [Hv | Hv]]]; try congruence.
    + by rewrite Hv.
    + rewrite Hv. by destruct (is_ndarray (cv_x_val c)).
Qed.

Lemma cross_validation_checks_first_witness :
  ((cv_random_data (with_validation toy_cv false true DNone DNone) = false /\
    (cv_x_val (with_validation toy_cv false true DNone DNone) = DNone \/
     cv_y_val (with_validation toy_cv false true DNone DNone) = DNone)) \/
   (cv_random_model (with_validation toy_cv false true DNone DNone) = true /\
    cv_random_data (with_validation toy_cv false true DNone DNone) = false /\
    (is_ndarray (cv_x (with_validation toy_cv false true DNone DNone)) = false \/
     is_ndarray (cv_y (with_validation toy_cv false true DNone DNone)) = false \/
     is_ndarray (cv_x_val (with_validation toy_cv false true DNone DNone)) = false \/
     is_ndarray (cv_y_val (with_validation toy_cv false true DNone DNone)) = false))) /\
  cross_validation (with_validation toy_cv false true DNone DNone) toy_world
  = (Raise AssertionError, toy_world).
Proof.
  assert (H : cv_random_data (with_validation toy_cv false true DNone DNone) = false /\
              (cv_x_val (with_validation toy_cv false true DNone DNone) = DNone \/
               cv_y_val (with_validation toy_cv false true DNone DNone) = DNone)).
  { split; [reflexivity | left; reflexivity]. }
  split; [left; exact H|].
  apply (cross_validation_checks_first (with_validation toy_cv false true DNone DNone)).
  left. exact H.
Defined.

(** ** The default data set *)

Lemma compare_loop_dataset `{ext : Externals} a db_name' dataset_id' db_name dataset_id
    dataset_name pairs train_cv val_cv w :
  compare_loop (with_dataset a db_name' dataset_id') db_name dataset_id dataset_name
    pairs train_cv val_cv w
  = compare_loop a db_name dataset_id dataset_name pairs train_cv val_cv w.
Proof.
  revert train_cv val_cv w.
  induction pairs as [|[model fit_params] rest IH]; intros train_cv val_cv w; [done|].
  cbn [compare_loop with_dataset ca_x_train ca_y_train ca_x_val ca_y_val ca_random_data
       ca_random_model ca_seed ca_n_splits ca_scoring].
  apply bind_ext. intros [score fitted_models] w1.
  repeat (apply bind_ext; intros ? ?). apply IH.
Qed.

Lemma compare_with_dataset `{ext : Externals} models params a db_name' dataset_id'
    db_name dataset_id dataset_name w :
  compare_with models params (with_dataset a db_name' dataset_id') db_name dataset_id
    dataset_name w
  = compare_with models params a db_name dataset_id dataset_name w.
Proof.
  unfold compare_with. apply bind_cong; [apply compare_loop_dataset|].
  by intros [train_cv val_cv] w1.
Qed.

(** C9.  Called with [dataset_id] equal to [None] or to 0,
    [compare_models] first drops the database ["new-db"] and then goes on as
    the call with [db_name = "new-db"] and [dataset_id = 1] does, whatever
    [db_name] the caller gave.  In the world the cross-validations start
    from, nothing is stored under ["new-db"], the other databases and the
    heap are as before, and the drop is the latest event. *)
Theorem compare_models_default_dataset `{ext : Externals} (models : list Ref)
    (params : list (gmap string Value)) (a : CompareArgs) (w : World) :
  ca_dataset_id a = None \/ ca_dataset_id a = Some 0 ->
  let w0 := (drop_db "new-db" w).2 in
  compare_models models params a w
  = compare_models models params (with_dataset a "new-db" (Some 1)) w0 /\
  w_db w0 !! "new-db" = None /\
  (forall db_name, db_name ≠ "new-db" -> w_db w0 !! db_name = w_db w !! db_name) /\
  w_heap w0 = w_heap w /\
  w_log w0 = EvDrop "new-db" :: w_log w.
Proof.
  intros H w0. repeat split.
  - assert (E : not_dataset_id (ca_dataset_id a) = true) by (by destruct H as [-> | ->]).
    unfold compare_models. rewrite E. cbn.
    symmetry. apply compare_with_dataset.
  - unfold w0. simpl. apply lookup_delete_eq.
  - intros db_name Hne. unfold w0. simpl. by apply lookup_delete_ne.
Qed.

Lemma compare_models_default_dataset_witness :
  (ca_dataset_id toy_args = None \/ ca_dataset_id toy_args = Some 0) /\
  (compare_models [0%nat; 1%nat] [∅; ∅] toy_args toy_world
   = compare_models [0%nat; 1%nat] [∅; ∅] (with_dataset toy_args "new-db" (Some 1))
       (drop_db "new-db" toy_world).2 /\
   w_db (drop_db "new-db" toy_world).2 !! "new-db" = None /\
   (forall db_name, db_name ≠ "new-db" ->
      w_db (drop_db "new-db" toy_world).2 !! db_name = w_db toy_world !! db_name) /\
   w_heap (drop_db "new-db" toy_world).2 = w_heap toy_world /\
   w_log (drop_db "new-db" toy_world).2 = EvDrop "new-db" :: w_log toy_world).
Proof.
  split; [left; reflexivity|].
  apply (compare_models_default_dataset [0%nat; 1%nat] [∅; ∅] toy_args toy_world).
  left. reflexivity.
Defined.

(** ** The scoring function *)

Lemma check_input_world `{ext : Externals} c w : (check_input c w).2 = w.
Proof.
  unfold check_input, bind, py_assert, ret, raise.
  repeat (match goal with |- context [if ?b then _ else _] => destruct b end; simpl);
    done.
Qed.

Lemma unsupported_unbound `{ext : Externals} scoring :
  unsupported_scoring scoring -> bind_score_fun scoring = None.
Proof.
  destruct scoring as [repr f|s|repr]; simpl; [done| |done].
  intros [Ha Hf]. by rewrite !decide_False.
Qed.

Lemma cv_fold_unbound `{ext : Externals} c list_of_splits split_index w :
  bind_score_fun (cv_scoring c) = None ->
  succeeds (fold_predictions c list_of_splits split_index w).1 ->
  cv_fold c list_of_splits split_index w
  = (Raise UnboundLocalError, (fold_predictions c list_of_splits split_index w).2).
Proof.
  intros Hs [v Hv]. revert Hv. unfold cv_fold, fold_predictions, bind. rewrite Hs.
  destruct (fold_data c list_of_splits split_index w)
    as [[[[[x_train x_val] y_train] y_val]|e] w1]; [|done].
  destruct (_get_learner _ _ _ _ _ _ _ _ w1) as [[l|e] w2]; [|done].
  destruct (_fit l x_train y_train _ w2) as [[l'|e] w3]; [|done].
  destruct (predict l' x_train w3) as [[p1|e] w4]; [|done].
  destruct (predict l' x_val w4) as [[p2|e] w5]; done.
Qed.

(** C10.  A [scoring] that is not callable and is neither ["accuracy"] nor
    ["f1"] is not looked at by the checks on the arguments; the call goes
    on, and when the first fold has fetched, fitted and applied its learner
    the scores cannot be computed: the call ends with an
    [UnboundLocalError], in the world that fold had reached. *)
Theorem unsupported_scoring_unbound `{ext : Externals} (c : CvConfig) (w : World)
    (list_of_splits : list (list nat * list nat)) :
  unsupported_scoring (cv_scoring c) ->
  (check_input c w).1 = Ok tt ->
  prepare_splits c = Ok list_of_splits ->
  0 < cv_n_splits c ->
  succeeds (fold_predictions c list_of_splits 0 w).1 ->
  (forall scoring, check_input (with_scoring c scoring) w = check_input c w) /\
  cross_validation c w
  = (Raise UnboundLocalError, (fold_predictions c list_of_splits 0 w).2).
Proof.
  intros Hs Hc Hsp Hn Hp. split; [done|].
  unfold cross_validation.
  erewrite bind_ok; last first.
  { rewrite (surjective_pairing (check_input c w)), Hc, check_input_world. done. }
  rewrite Hsp. erewrite bind_ok; [|reflexivity].
  destruct (Z.to_nat (cv_n_splits c)) as [|n] eqn:En; [lia|].
  cbn [seq cv_loop]. apply bind_raise.
  apply cv_fold_unbound; [by apply unsupported_unbound | done].
Qed.

Lemma unsupported_scoring_unbound_witness :
  unsupported_scoring (cv_scoring (with_scoring toy_cv (ScStr "roc_auc"))) /\
  (check_input (with_scoring toy_cv (ScStr "roc_auc")) toy_world).1 = Ok tt /\
  prepare_splits (with_scoring toy_cv (ScStr "roc_auc"))
  = Ok [([1; 3; 5], [0; 2; 4]); ([0; 2; 4], [1; 3; 5])]%nat /\
  0 < cv_n_splits (with_scoring toy_cv (ScStr "roc_auc")) /\
  succeeds (fold_predictions (with_scoring toy_cv (ScStr "roc_auc"))
              [([1; 3; 5], [0; 2; 4]); ([0; 2; 4], [1; 3; 5])]%nat 0 toy_world).1 /\
  ((forall scoring,
      check_input (with_scoring (with_scoring toy_cv (ScStr "roc_auc")) scoring) toy_world
      = check_input (with_scoring toy_cv (ScStr "roc_auc")) toy_world) /\
   cross_validation (with_scoring toy_cv (ScStr "roc_auc")) toy_world
   = (Raise UnboundLocalError,
      (fold_predictions (with_scoring toy_cv (ScStr "roc_auc"))
         [([1; 3; 5], [0; 2; 4]); ([0; 2; 4], [1; 3; 5])]%nat 0 toy_world).2)).
Proof.
  assert (H1 : unsupported_scoring (cv_scoring (with_scoring toy_cv (ScStr "roc_auc")))).
  { simpl. split; discriminate. }
  assert (H2 : (check_input (with_scoring toy_cv (ScStr "roc_auc")) toy_world).1 = Ok tt)
    by reflexivity.
  assert (H3 : prepare_splits (with_scoring toy_cv (ScStr "roc_auc"))
               = Ok [([1; 3; 5], [0; 2; 4]); ([0; 2; 4], [1; 3; 5])]%nat)
    by (vm_compute; reflexivity).
  assert (H4 : 0 < cv_n_splits (with_scoring toy_cv (ScStr "roc_auc"))) by (simpl; lia).
  assert (H5 : succeeds (fold_predictions (with_scoring toy_cv (ScStr "roc_auc"))
              [([1; 3; 5], [0; 2; 4]); ([0; 2; 4], [1; 3; 5])]%nat 0 toy_world).1).
  { eexists. vm_compute. reflexivity. }
  split; [exact H1|]. split; [exact H2|]. split; [exact H3|]. split; [exact H4|].
  split; [exact H5|].
  exact (unsupported_scoring_unbound _ toy_world _ H1 H2 H3 H4 H5).
Defined.

(** ** Seeding *)

Lemma set_heap_id w : set_heap w (w_heap w) = w.
Proof. by destruct w. Qed.

Lemma with_kind_id o : with_kind o (o_kind o) = o.
Proof. by destruct o. Qed.

Lemma deref_ok r o w : w_heap w !! r = Some o -> deref r w = (Ok o, w).
Proof. intros H. unfold deref. by rewrite H. Qed.

Lemma assign_ok r o0 o w :
  w_heap w !! r = Some o0 -> assign r o w = (Ok tt, set_heap w (<[r := o]> (w_heap w))).
Proof. intros H. unfold assign. by rewrite H. Qed.

Lemma lookup_set_heap_insert r o w :
  (r < length (w_heap w))%nat -> w_heap (set_heap w (<[r := o]> (w_heap w))) !! r = Some o.
Proof. intros H. simpl. by apply list_lookup_insert_eq. Qed.

Lemma elem_of_keys (m : gmap string Value) (k : string) :
  k ∈ (map_to_list m).*1 <-> is_Some (m !! k).
Proof.
  split.
  - intros Hin. apply list_elem_of_fmap in Hin as ([k' v] & -> & Hin).
    apply elem_of_map_to_list in Hin. by exists v.
  - intros [v Hv]. apply list_elem_of_fmap. exists (k, v). split; [done|].
    by apply elem_of_map_to_list.
Qed.

Lemma seed_keys_lookup s parameters (ps : gmap string Value) (k : string) :
  seed_keys s parameters ps !! k =
  if decide (k ∈ parameters /\ is_substring "random_state" k = true)
  then Some (VInt s) else ps !! k.
Proof.
  revert ps. induction parameters as [|parameter rest IH]; intros ps.
  - unfold seed_keys. cbn [foldl].
    destruct (decide (k ∈ [] /\ is_substring "random_state" k = true)) as [[Hin _]|_];
      [|done].
    by apply elem_of_nil in Hin.
  - unfold seed_keys in *. cbn [foldl]. rewrite IH.
    destruct (decide (k ∈ rest /\ is_substring "random_state" k = true)) as [[Hin Hs]|N].
    + rewrite decide_True; [done|]. split; [by right | done].
    + destruct (decide (k = parameter)) as [->|Hne].
      * destruct (is_substring "random_state" parameter) eqn:Hs.
        -- rewrite lookup_insert_eq. rewrite decide_True; [done|]. split; [by left|done].
        -- rewrite decide_False; [done|]. intros [_ ?]. done.
      * rewrite decide_False.
        -- destruct (is_substring "random_state" parameter); [|done].
           by rewrite lookup_insert_ne.
        -- intros [Hin Hs]. apply N. split; [|done].
           apply elem_of_cons in Hin as [?|?]; done.
Qed.

(** The parameters of a seeded pipeline, name by name. *)
Lemma seeded_params_lookup s (ps : gmap string Value) (k : string) :
  seed_keys s (map_to_list ps).*1 ps !! k =
  if is_substring "random_state" k then (fun _ => VInt s) <$> ps !! k else ps !! k.
Proof.
  rewrite seed_keys_lookup.
  destruct (is_substring "random_state" k) eqn:Hs.
  - destruct (ps !! k) as [v|] eqn:Hk.
    + rewrite decide_True; [done|]. split; [|done]. apply elem_of_keys. by exists v.
    + rewrite decide_False; [done|]. intros [Hin _].
      apply elem_of_keys in Hin as [v Hv]. congruence.
  - rewrite decide_False; [done|]. by intros [_ ?].
Qed.

Section Seeding.
Context `{ext : Externals}.

Lemma set_params_pipeline l o steps ps parameter value w :
  w_heap w !! l = Some (with_kind o (KPipeline {| p_steps := steps; p_params := ps |})) ->
  set_params l parameter value w
  = (Ok tt, set_heap w (<[l := with_kind o (KPipeline
       {| p_steps := steps; p_params := <[parameter := value]> ps |})]> (w_heap w))).
Proof.
  intros H. unfold set_params. erewrite bind_ok; [|by apply deref_ok].
  cbn [o_kind with_kind p_steps p_params]. by erewrite assign_ok.
Qed.

Lemma seed_parameters_run l o steps random_model split_index seed parameters ps w :
  w_heap w !! l = Some (with_kind o (KPipeline {| p_steps := steps; p_params := ps |})) ->
  seed_parameters l parameters random_model split_index seed w
  = (Ok tt, set_heap w (<[l := with_kind o (KPipeline
       {| p_steps := steps;
          p_params := seed_keys (seed_value random_model split_index seed) parameters ps |})]>
       (w_heap w))).
Proof.
  revert ps w. induction parameters as [|parameter rest IH]; intros ps w H.
  - simpl. unfold ret. by rewrite list_insert_id, set_heap_id.
  - cbn [seed_parameters]. unfold seed_keys. cbn [foldl].
    destruct (is_substring "random_state" parameter).
    + erewrite bind_ok; last first.
      { instantiate (1 := set_heap w (<[l := with_kind o (KPipeline
           {| p_steps := steps;
              p_params := <[parameter := VInt (seed_value random_model split_index seed)]> ps |})]>
           (w_heap w))).
        destruct random_model; by apply set_params_pipeline. }
      rewrite (IH (<[parameter := VInt (seed_value random_model split_index seed)]> ps)).
      * unfold set_heap. cbn [w_heap w_db w_tf_seed w_log].
        by rewrite list_insert_insert_eq.
      * apply lookup_set_heap_insert. by eapply lookup_lt_Some.
    + erewrite bind_ok; [|reflexivity]. by apply IH.
Qed.

(** What [_set_random_seed] returns and the world it leaves. *)
Lemma set_random_seed_run l o random_model split_index seed w :
  w_heap w !! l = Some o ->
  _set_random_seed l random_model split_index seed w
  = (Ok l, seeded_world l o (seed_value random_model split_index seed) w).
Proof.
  intros H. unfold _set_random_seed. erewrite bind_ok; [|by apply deref_ok].
  unfold seeded_world, seeded_kind.
  destruct (o_kind o) as [n|p|e] eqn:Ek.
  - erewrite bind_ok; [reflexivity|].
    assert (R : forall s, (set_random_seed s ;;; reset_weights l s) w
                = (Ok tt, {| w_heap := <[l := with_kind o (KKeras
                     {| n_arch := n_arch n; n_weights_seed := Some s; n_trained := None |})]>
                     (w_heap w);
                   w_db := w_db w; w_tf_seed := Some s; w_log := w_log w |})).
    { intros s. unfold bind, set_random_seed, reset_weights, bind, deref, assign.
      cbn [w_heap]. rewrite H, Ek. cbn [w_heap]. by rewrite H. }
    destruct random_model; apply R.
  - erewrite bind_ok; [reflexivity|].
    destruct p as [steps ps].
    erewrite (seed_parameters_run l o steps); [|by rewrite <- Ek, with_kind_id].
    by destruct w.
  - destruct (e_fit e && e_predict e); simpl.
    + destruct (bool_decide (is_Some (e_params e !! "random_state"))).
      * erewrite bind_ok; [reflexivity|].
        assert (R : forall s, set_params l "random_state" (VInt s) w
                    = (Ok tt, {| w_heap := <[l := with_kind o (KOther
                         {| e_class := e_class e; e_fit := e_fit e; e_predict := e_predict e;
                            e_params := <["random_state" := VInt s]> (e_params e);
                            e_trained := e_trained e |})]> (w_heap w);
                       w_db := w_db w; w_tf_seed := w_tf_seed w; w_log := w_log w |})).
        { intros s. unfold set_params. erewrite bind_ok; [|by apply deref_ok].
          rewrite Ek. by erewrite assign_ok. }
        destruct random_model; apply R.
      * erewrite bind_ok; [|reflexivity]. unfold ret.
        rewrite <- Ek, with_kind_id, list_insert_id; [|done]. by destruct w.
    + erewrite bind_ok; [|reflexivity]. unfold ret.
      rewrite <- Ek, with_kind_id, list_insert_id; [|done]. by destruct w.
Qed.

(** C4.  On a learner that can be randomised, [_set_random_seed] sets every
    random state (and, for a network, the process-wide weight-initialising
    seed) to the fold index when [random_model] is true and to [seed] when it
    is false, whatever the fold; nothing else of the learner changes.  A
    learner that cannot be randomised is returned as it was, in an unchanged
    world. *)
Theorem set_random_seed_sets_random_state (w : World) (learner : Ref) (o : Obj)
    (random_model : bool) (split_index seed : Z) :
  w_heap w !! learner = Some o ->
  (exists o' w',
     _set_random_seed learner random_model split_index seed w = (Ok learner, w') /\
     w_heap w' = <[learner := o']> (w_heap w) /\
     w_db w' = w_db w /\ w_log w' = w_log w /\
     o_is_fitted o' = o_is_fitted o /\ o_signature o' = o_signature o /\
     same_but_random_state (o_kind o) (o_kind o') /\
     (randomization_capable (o_kind o) ->
        random_state_is (if random_model then split_index else seed) (o_kind o') /\
        w_tf_seed w' = match o_kind o with
                       | KKeras _ => Some (if random_model then split_index else seed)
                       | _ => w_tf_seed w
                       end) /\
     (~ randomization_capable (o_kind o) -> o' = o /\ w' = w)) /\
  (forall split_index',
     _set_random_seed learner false split_index' seed w
     = _set_random_seed learner false split_index seed w).
Proof.
  intros H. split; [|intros split_index'; by rewrite !(set_random_seed_run _ o)].
  exists (with_kind o (seeded_kind (seed_value random_model split_index seed) (o_kind o))),
         (seeded_world learner o (seed_value random_model split_index seed) w).
  split; [by apply set_random_seed_run|].
  fold (seed_value random_model split_index seed).
  set (s := seed_value random_model split_index seed).
  repeat (split; [done|]).
  destruct (o_kind o) as [n|[steps ps]|e] eqn:Ek; cbn [with_kind o_kind seeded_kind].
  - split; [done|]. split.
    + intros _. split; [done|]. by unfold seeded_world; rewrite Ek.
    + intros N. by destruct N.
  - split; [|split].
    + cbn. split; [done|]. split.
      * intros parameter. rewrite seeded_params_lookup.
        destruct (is_substring _ parameter); [|done]. by rewrite fmap_is_Some.
      * intros parameter Hs. by rewrite seeded_params_lookup, Hs.
    + intros _. split; [|by unfold seeded_world; rewrite Ek].
      cbn. intros parameter Hs. rewrite seeded_params_lookup, Hs.
      by intros [v ->]%fmap_is_Some.
    + intros N.
      assert (E : seed_keys s (map_to_list ps).*1 ps = ps).
      { apply map_eq. intros parameter. rewrite seeded_params_lookup.
        destruct (is_substring _ parameter) eqn:Hs; [|done].
        destruct (ps !! parameter) as [v|] eqn:Hv; [|done].
        destruct N. exists parameter. split; [by exists v | done]. }
      unfold seeded_world. rewrite Ek. cbn [seeded_kind p_steps p_params]. rewrite E.
      rewrite <- Ek, with_kind_id. split; [done|].
      rewrite list_insert_id; [by destruct w | done].
  - destruct (e_fit e) eqn:Ef, (e_predict e) eqn:Ep; cbn [andb];
      try (rewrite andb_false_r);
      try (destruct (bool_decide (is_Some (e_params e !! "random_state"))) eqn:Er;
           [apply bool_decide_eq_true in Er | apply bool_decide_eq_false in Er]);
      cbn [andb].
    1: { split; [|split].
         - cbn. repeat (split; [done|]). split.
           + intros parameter. destruct (decide (parameter = "random_state")) as [->|Hne].
             * rewrite lookup_insert_eq. split; eauto.
             * by rewrite lookup_insert_ne.
           + intros parameter Hne. by rewrite lookup_insert_ne.
         - intros _. split; [|by unfold seeded_world; rewrite Ek].
           cbn. by rewrite lookup_insert_eq.
         - intros N. destruct N. done. }
    all: (split; [|split];
          [ cbn; repeat split; done
          | intros (? & ? & ?); congruence
          | intros _; unfold seeded_world; rewrite Ek; cbn [seeded_kind];
            rewrite ?Ef, ?Ep; cbn [andb]; rewrite ?andb_false_r;
            try (rewrite (bool_decide_eq_false_2 _ Er)); cbn [andb];
            rewrite <- Ek, with_kind_id; split; [done|];
            rewrite list_insert_id; [by destruct w | done] ]).
Qed.

End Seeding.

Lemma set_random_seed_sets_random_state_witness :
  w_heap toy_world !! 0%nat = Some ridge /\
  exists o' w',
    _set_random_seed 0%nat true 3 42 toy_world = (Ok 0%nat, w') /\
    w_heap w' = <[0%nat := o']> (w_heap toy_world) /\
    random_state_is 3 (o_kind o').
Proof.
  split; [reflexivity|].
  destruct (set_random_seed_sets_random_state toy_world 0%nat ridge true 3 42 eq_refl)
    as [(o' & w' & Hrun & Hheap & _ & _ & _ & _ & _ & Hcap & _) _].
  exists o', w'. split; [exact Hrun|]. split; [exact Hheap|].
  apply Hcap. simpl. split; [reflexivity|]. split; [reflexivity|].
  exists VNone. vm_compute. reflexivity.
Defined.

(** The two calls of the docstring of [_set_random_seed], on an estimator
    with a [random_state]. *)
Example set_random_seed_doctest :
  (e_params <$> (match o_kind <$> w_heap (_set_random_seed 0%nat true 0 42 toy_world).2 !! 0%nat with
                 | Some (KOther e) => Some e | _ => None end)) ≫= (.!! "random_state")
  = Some (VInt 0) /\
  (e_params <$> (match o_kind <$> w_heap (_set_random_seed 0%nat false 0 42 toy_world).2 !! 0%nat with
                 | Some (KOther e) => Some e | _ => None end)) ≫= (.!! "random_state")
  = Some (VInt 42).
Proof. split; vm_compute; reflexivity. Qed.

(** ** Fetching a learner *)

Lemma insert_last {A} (h : list A) (x y : A) : <[length h := x]> (h ++ [y]) = h ++ [x].
Proof. rewrite insert_app_r_alt; [|done]. by rewrite Nat.sub_diag. Qed.

Lemma lookup_last {A} (h : list A) (x : A) : (h ++ [x]) !! length h = Some x.
Proof. by rewrite lookup_app_r, Nat.sub_diag. Qed.

Section Fetching.
Context `{ext : Externals}.

Lemma deepcopy_run r o w :
  w_heap w !! r = Some o ->
  deepcopy r w = (Ok (length (w_heap w)), set_heap w (w_heap w ++ [o])).
Proof. intros H. unfold deepcopy. by erewrite bind_ok; [|by apply deref_ok]. Qed.

(** A fresh copy of the model, seeded. *)
Lemma copy_and_seed_run model o random_model split_index seed w :
  w_heap w !! model = Some o ->
  (learner <-- deepcopy model ;;
   _set_random_seed learner random_model split_index seed) w
  = (Ok (length (w_heap w)),
     {| w_heap := w_heap w ++ [seeded o (seed_value random_model split_index seed)];
        w_db := w_db w;
        w_tf_seed := match o_kind o with
                     | KKeras _ => Some (seed_value random_model split_index seed)
                     | _ => w_tf_seed w
                     end;
        w_log := w_log w |}).
Proof.
  intros H. erewrite bind_ok; [|by apply deepcopy_run].
  erewrite set_random_seed_run; [|apply lookup_last].
  unfold seeded_world, set_heap. cbn [w_heap w_db w_tf_seed w_log].
  by rewrite insert_last.
Qed.

Lemma set_is_fitted_last h o b db tf lg :
  set_is_fitted (length h) b
    {| w_heap := h ++ [o]; w_db := db; w_tf_seed := tf; w_log := lg |}
  = (Ok tt, {| w_heap := h ++ [with_is_fitted o b]; w_db := db; w_tf_seed := tf;
               w_log := lg |}).
Proof.
  unfold set_is_fitted. erewrite bind_ok; [|apply deref_ok, lookup_last].
  erewrite assign_ok; [|apply lookup_last].
  unfold set_heap. cbn [w_heap w_db w_tf_seed w_log]. by rewrite insert_last.
Qed.

(** What [_get_learner] returns and the world it leaves. *)
Lemma get_learner_run model o db_name dataset_id dataset_name random_model
    split_index seed fit_params w :
  w_heap w !! model = Some o ->
  _get_learner model db_name dataset_id dataset_name random_model split_index seed
    fit_params w
  = (Ok (S (length (w_heap w))),
     fetched_world o (seed_value random_model split_index seed) db_name
       (lookup_key o random_model split_index seed dataset_id dataset_name fit_params)
       (stored w db_name
          (lookup_key o random_model split_index seed dataset_id dataset_name fit_params))
       w).
Proof.
  intros H. unfold _get_learner.
  pose proof (copy_and_seed_run model o random_model split_index seed w H) as C.
  unfold bind in C |- *.
  destruct (deepcopy model w) as [[l1|e1] w1]; [|discriminate].
  rewrite C. clear C.
  set (s := seed_value random_model split_index seed).
  unfold load_model, bind, deref, get_world. cbn [w_heap w_db].
  rewrite lookup_last. unfold lookup_key, stored, fetched_world. fold s. fold (seeded o s).
  destruct (store_find _ _) as [artifact|] eqn:Ef.
  - cbn [log alloc w_heap w_db w_tf_seed w_log ret].
    rewrite length_app. cbn [length]. rewrite Nat.add_1_r.
    replace (S (length (w_heap w))) with (length (w_heap w ++ [seeded o s]))
      by (rewrite length_app; simpl; lia).
    rewrite set_is_fitted_last. by rewrite <- app_assoc.
  - cbn [log w_heap w_db w_tf_seed w_log ret].
    pose proof (copy_and_seed_run model o random_model split_index seed
      {| w_heap := w_heap w ++ [seeded o s]; w_db := w_db w;
         w_tf_seed := match o_kind o with KKeras _ => Some s | _ => w_tf_seed w end;
         w_log := EvLoad db_name (fingerprint (seeded o s) split_index dataset_id
                    dataset_name fit_params) false :: w_log w |}
      (lookup_app_l_Some _ _ _ _ H)) as C.
    unfold bind in C.
    destruct (deepcopy model _) as [[l2|e2] w2]; [|discriminate].
    rewrite C. clear C. cbn [w_heap w_db w_tf_seed w_log]. fold s.
    rewrite set_is_fitted_last.
    rewrite length_app. cbn [length]. rewrite Nat.add_1_r.
    rewrite <- app_assoc. cbn [app].
    by destruct (o_kind o).
Qed.

End Fetching.

(** ** The key of the cache and the randomisation mode *)

Lemma seeded_kind_not_capable s k : ~ randomization_capable k -> seeded_kind s k = k.
Proof.
  intros N. destruct k as [n|[steps ps]|e]; cbn [seeded_kind].
  - by destruct N.
  - f_equal. f_equal. cbn. apply map_eq. intros parameter. rewrite seeded_params_lookup.
    destruct (is_substring _ parameter) eqn:Hs; [|done].
    destruct (ps !! parameter) as [v|] eqn:Hv; [|done].
    destruct N. exists parameter. cbn. split; [by exists v | done].
  - destruct (e_fit e) eqn:Ef, (e_predict e) eqn:Ep; cbn [andb]; try done.
    destruct (bool_decide (is_Some (e_params e !! "random_state"))) eqn:Er; [|done].
    apply bool_decide_eq_true in Er. by destruct N.
Qed.

Lemma seeded_structure_inj s1 s2 k :
  randomization_capable k ->
  structure_of (seeded_kind s1 k) = structure_of (seeded_kind s2 k) -> s1 = s2.
Proof.
  intros C. destruct k as [n|[steps ps]|e]; cbn [seeded_kind].
  - cbn. by intros [= ->].
  - destruct C as (parameter & [v Hv] & Hs). cbn in Hv, Hs. cbn.
    intros [= E].
    assert (L : seed_keys s1 (map_to_list ps).*1 ps !! parameter
                = seed_keys s2 (map_to_list ps).*1 ps !! parameter) by (by rewrite E).
    rewrite !seeded_params_lookup, Hs, Hv in L. cbn in L. congruence.
  - destruct C as (Ef & Ep & Er). rewrite Ef, Ep. cbn [andb].
    rewrite bool_decide_eq_true_2 by done. cbn. intros [= E].
    assert (L : <["random_state" := VInt s1]> (e_params e) !! "random_state"
                = <["random_state" := VInt s2]> (e_params e) !! "random_state")
      by (by rewrite E).
    rewrite !lookup_insert_eq in L. congruence.
Qed.

(** C3, as the code has it.  [_get_learner] makes one lookup, under a key
    built from the seeded learner, the fold index, the data set and the fit
    parameters; [random_model] is not part of it.  Flipping [random_model]
    changes the key exactly when the model can be randomised and the fold
    index differs from [seed]; otherwise both modes look up the same key and
    fetch the same learner. *)
Theorem lookup_key_and_random_model `{ext : Externals} (w : World) (model : Ref) (o : Obj)
    (db_name : string) (dataset_id : Z) (dataset_name : string)
    (split_index seed : Z) (fit_params : gmap string Value) :
  w_heap w !! model = Some o ->
  exists key_true key_false hit_true hit_false,
    w_log (_get_learner model db_name dataset_id dataset_name true split_index seed
             fit_params w).2
    = EvLoad db_name key_true hit_true :: w_log w /\
    w_log (_get_learner model db_name dataset_id dataset_name false split_index seed
             fit_params w).2
    = EvLoad db_name key_false hit_false :: w_log w /\
    (key_true = key_false <->
     ~ randomization_capable (o_kind o) \/ split_index = seed) /\
    (key_true = key_false ->
     _get_learner model db_name dataset_id dataset_name true split_index seed fit_params w
     = _get_learner model db_name dataset_id dataset_name false split_index seed
         fit_params w).
Proof.
  intros H. rewrite !(get_learner_run model o) by done.
  eexists _, _, _, _. split; [reflexivity|]. split; [reflexivity|].
  assert (Heq : ~ randomization_capable (o_kind o) \/ split_index = seed ->
                seeded o split_index = seeded o seed).
  { intros [N | ->]; [|done]. unfold seeded. by rewrite !seeded_kind_not_capable. }
  assert (Hiff : lookup_key o true split_index seed dataset_id dataset_name fit_params
                 = lookup_key o false split_index seed dataset_id dataset_name fit_params
                 <-> ~ randomization_capable (o_kind o) \/ split_index = seed).
  { unfold lookup_key, seed_value. split.
    - intros E. destruct (decide (randomization_capable (o_kind o))) as [C|N]; [|by left].
      right. unfold fingerprint, seeded in E. cbn [o_kind with_kind] in E.
      injection E as E. by eapply seeded_structure_inj.
    - intros Hc. by rewrite (Heq Hc). }
  split; [exact Hiff|].
  intros E. apply Hiff in E. destruct E as [N | ->]; [|done].
  unfold lookup_key, fetched_world. cbn [seed_value].
  rewrite (Heq (or_introl N)).
  destruct (o_kind o) eqn:Ek; [by destruct N | done | done].
Qed.

Lemma lookup_key_and_random_model_witness :
  w_heap toy_world !! 0%nat = Some ridge /\
  exists key_true key_false hit_true hit_false,
    w_log (_get_learner 0%nat "templates" 1 "make-class" true 1 42 ∅ toy_world).2
    = EvLoad "templates" key_true hit_true :: w_log toy_world /\
    w_log (_get_learner 0%nat "templates" 1 "make-class" false 1 42 ∅ toy_world).2
    = EvLoad "templates" key_false hit_false :: w_log toy_world /\
    (key_true = key_false <-> ~ randomization_capable (o_kind ridge) \/ 1 = 42).
Proof.
  split; [reflexivity|].
  destruct (lookup_key_and_random_model toy_world 0%nat ridge "templates" 1 "make-class"
              1 42 ∅ eq_refl)
    as (key_true & key_false & hit_true & hit_false & Ht & Hf & Hiff & _).
  exists key_true, key_false, hit_true, hit_false. auto.
Defined.

(** C3 as stated fails: for a model without a random state the fit that the
    first fold stores with [random_model = true] is found, under the same
    key, by the lookup of the first fold with [random_model = false]. *)
Lemma cached_fit_crosses_modes :
  EvSave "templates" knn_key ∈ w_log knn_cached_world /\
  w_log (_get_learner 1%nat "templates" 1 "make-class" false 0 42 ∅ knn_cached_world).2
  = EvLoad "templates" knn_key true :: w_log knn_cached_world.
Proof.
  split.
  - apply (bool_decide_unpack _). vm_compute. exact I.
  - vm_compute. reflexivity.
Qed.

(** ** What a call adds to the log *)

Section Logs.
Context (P : Event -> Prop).

Lemma logs_same {A} (m : M A) : (forall w, w_log (m w).2 = w_log w) -> logs P m.
Proof. intros H w. exists []. by rewrite H. Qed.

Lemma logs_ret {A} (a : A) : logs P (ret a).
Proof. by apply logs_same. Qed.

Lemma logs_raise {A} e : logs P (@raise A e).
Proof. by apply logs_same. Qed.

Lemma logs_lift {A} (r : Res A) : logs P (lift r).
Proof. by apply logs_same. Qed.

Lemma logs_bind {A B} (m : M A) (f : A -> M B) :
  logs P m -> (forall a, logs P (f a)) -> logs P (bind m f).
Proof.
  intros Hm Hf w. unfold bind. destruct (Hm w) as (new1 & E1 & F1).
  destruct (m w) as [[a|e] w1]; simpl in *.
  - destruct (Hf a w1) as (new2 & E2 & F2).
    exists (new2 ++ new1). rewrite E2, E1, app_assoc. split; [done|].
    by apply Forall_app.
  - by exists new1.
Qed.

Lemma logs_assert b : logs P (py_assert b).
Proof. destruct b; [apply logs_ret | apply logs_raise]. Qed.

Lemma logs_log ev : P ev -> logs P (log ev).
Proof. intros Hev w. exists [ev]. split; [done|]. by apply Forall_singleton. Qed.

Lemma logs_get_world : logs P get_world.
Proof. by apply logs_same. Qed.

Lemma logs_set_db db : logs P (set_db db).
Proof. by apply logs_same. Qed.

Lemma logs_set_tf_seed s : logs P (set_random_seed s).
Proof. by apply logs_same. Qed.

Lemma logs_deref r : logs P (deref r).
Proof. apply logs_same. intros w. unfold deref. by destruct (w_heap w !! r). Qed.

Lemma logs_alloc o : logs P (alloc o).
Proof. by apply logs_same. Qed.

Lemma logs_assign r o : logs P (assign r o).
Proof. apply logs_same. intros w. unfold assign. by destruct (w_heap w !! r). Qed.

End Logs.

Lemma logs_mono (P Q : Event -> Prop) {A} (m : M A) :
  (forall ev, P ev -> Q ev) -> logs P m -> logs Q m.
Proof.
  intros HPQ Hm w. destruct (Hm w) as (new & E & F). exists new. split; [done|].
  eapply Forall_impl; eauto.
Qed.

Create HintDb logs.

#[export] Hint Resolve logs_ret logs_raise logs_lift logs_assert logs_get_world
  logs_set_db logs_set_tf_seed logs_deref logs_alloc logs_assign : logs.

Ltac logs_step :=
  match goal with
  | |- logs _ (bind _ _) => apply logs_bind; [|intros ?]
  | |- logs _ (match ?x with _ => _ end) => destruct x eqn:?
  | |- logs _ (if ?b then _ else _) => destruct b eqn:?
  | |- logs _ (let '(_, _) := ?x in _) => destruct x
  | |- logs _ (log _) => apply logs_log; exact I
  | |- logs _ _ => solve [eauto with logs]
  end.

Section LogsLearning.
Context `{ext : Externals}.

Lemma logs_deepcopy P r : logs P (deepcopy r).
Proof. unfold deepcopy. repeat logs_step. Qed.

Lemma logs_set_params P l parameter value : logs P (set_params l parameter value).
Proof. unfold set_params. repeat logs_step. Qed.

Lemma logs_reset_weights P l seed : logs P (reset_weights l seed).
Proof. unfold reset_weights. repeat logs_step. Qed.

Hint Resolve logs_deepcopy logs_set_params logs_reset_weights : logs.

Lemma logs_seed_parameters P l parameters random_model split_index seed :
  logs P (seed_parameters l parameters random_model split_index seed).
Proof.
  induction parameters as [|parameter rest IH]; simpl; [apply logs_ret|].
  apply logs_bind; [|by intros _]. repeat logs_step.
Qed.

Hint Resolve logs_seed_parameters : logs.

Lemma logs_set_random_seed P l random_model split_index seed :
  logs P (_set_random_seed l random_model split_index seed).
Proof. unfold _set_random_seed. repeat logs_step. Qed.

Lemma logs_set_is_fitted P l b : logs P (set_is_fitted l b).
Proof. unfold set_is_fitted. repeat logs_step. Qed.

Lemma logs_set_signature P l signature : logs P (set_signature l signature).
Proof. unfold set_signature. repeat logs_step. Qed.

Lemma logs_predict P l x : logs P (predict l x).
Proof. unfold predict. repeat logs_step. Qed.

Lemma logs_fold_data P c list_of_splits split_index :
  logs P (fold_data c list_of_splits split_index).
Proof. unfold fold_data. repeat logs_step. Qed.

Lemma logs_getattr_is_fitted P o : logs P (getattr_is_fitted o).
Proof. unfold getattr_is_fitted. repeat logs_step. Qed.

Hint Resolve logs_set_random_seed logs_set_is_fitted logs_set_signature logs_predict
  logs_fold_data logs_getattr_is_fitted : logs.

Lemma logs_save_model l split_index dataset_id dataset_name fit_params db_name :
  logs is_save (save_model l split_index dataset_id dataset_name fit_params db_name).
Proof. unfold save_model. repeat logs_step. Qed.

Lemma logs_fit_steps l o ps seen todo x_train_t y_train :
  logs is_fit (fit_steps l o ps seen todo x_train_t y_train).
Proof.
  revert seen x_train_t.
  induction todo as [|step rest IH]; intros seen x_train_t; simpl; [apply logs_ret|].
  apply logs_bind; [apply logs_lift|]. intros fitted.
  apply logs_bind; [repeat logs_step|]. intros step'.
  apply logs_bind; [repeat logs_step|]. intros xt. apply IH.
Qed.

Hint Resolve logs_fit_steps : logs.

Lemma logs_fit l x_train y_train fit_params :
  logs is_fit (_fit l x_train y_train fit_params).
Proof. unfold _fit. repeat logs_step. Qed.

End LogsLearning.

(** ** Fitting and predicting *)

Section Fitting.
Context `{ext : Externals}.

Lemma is_fitted_probe ps step x : _is_fitted ps step x = Ok (probe step).
Proof.
  unfold _is_fitted, probe, step_transform, step_predict.
  destruct (s_transform step), (s_predict step), (s_trained step); done.
Qed.

Lemma step_transform_trained ps step x :
  s_transform step = true -> is_Some (s_trained step) ->
  step_transform ps step x = Ok (step_transform_out ps step x).
Proof. intros Ht [t Hs]. unfold step_transform. by rewrite Ht, Hs. Qed.

Lemma probe_trained step : probe step = true -> is_Some (s_trained step).
Proof.
  unfold probe. intros [_ H]%andb_true_iff. by apply bool_decide_eq_true in H.
Qed.

(** On steps that are all found fitted the loop of [_fit] does nothing. *)
Lemma fit_steps_fitted l o ps seen todo x_train_t y_train w :
  Forall (fun step => probe step = true) todo ->
  fit_steps l o ps seen todo x_train_t y_train w = (Ok tt, w).
Proof.
  revert seen x_train_t.
  induction todo as [|step rest IH]; intros seen x_train_t Hall; [done|].
  apply Forall_cons in Hall as [Hp Hrest].
  cbn [fit_steps]. rewrite is_fitted_probe, Hp.
  erewrite bind_ok; [|reflexivity]. erewrite bind_ok; [|reflexivity].
  destruct (s_transform step) eqn:Ht.
  - rewrite step_transform_trained by (done || by apply probe_trained).
    erewrite bind_ok; [|reflexivity]. by apply IH.
  - erewrite bind_ok; [|reflexivity]. by apply IH.
Qed.

(** The loop of [_fit] succeeds on steps each of which is found fitted or
    has [fit]; it leaves them all fitted and does not touch the database. *)
Lemma fit_steps_run l o ps y_train todo :
  forall seen x_train_t w,
  Forall (fun step => probe step = true \/ s_fit step = true) todo ->
  w_heap w !! l = Some (with_kind o (KPipeline {| p_steps := seen ++ todo; p_params := ps |})) ->
  exists steps' w',
    fit_steps l o ps seen todo x_train_t y_train w = (Ok tt, w') /\
    w_heap w' = <[l := with_kind o (KPipeline {| p_steps := seen ++ steps'; p_params := ps |})]>
                  (w_heap w) /\
    w_db w' = w_db w /\
    Forall2 fitted_from todo steps'.
Proof.
  induction todo as [|step rest IH]; intros seen x_train_t w Hall Hl.
  - exists [], w. split; [done|]. split; [by rewrite list_insert_id|]. done.
  - apply Forall_cons in Hall as [Hstep Hrest].
    cbn [fit_steps]. rewrite is_fitted_probe. erewrite bind_ok; [|reflexivity].
    destruct (probe step) eqn:Hp.
    + erewrite bind_ok; [|reflexivity].
      assert (Hx : exists xt, (if s_transform step
                               then lift (step_transform ps step x_train_t)
                               else ret x_train_t) w = (Ok xt, w)).
      { destruct (s_transform step) eqn:Ht; [|by eexists].
        rewrite step_transform_trained by (done || by apply probe_trained). by eexists. }
      destruct Hx as [xt Hx]. erewrite bind_ok; [|exact Hx].
      destruct (IH (seen ++ [step]) xt w Hrest) as (steps' & w' & Hrun & Hheap & Hdb & Hf).
      { by rewrite <- app_assoc. }
      exists (step :: steps'), w'. split; [done|].
      split; [by rewrite Hheap, <- app_assoc|]. split; [done|].
      apply Forall2_cons. split; [|done].
      repeat split; try done. by apply probe_trained.
    + destruct Hstep as [?|Hf]; [congruence|]. rewrite Hf.
      set (step' := step_fitted step (x_train_t, y_train, ∅)).
      set (w1 := {| w_heap := <[l := with_kind o (KPipeline
                       {| p_steps := seen ++ step' :: rest; p_params := ps |})]> (w_heap w);
                    w_db := w_db w; w_tf_seed := w_tf_seed w;
                    w_log := EvFit l (Some (s_name step)) :: w_log w |}).
      erewrite bind_ok; last first.
      { instantiate (1 := w1). instantiate (1 := step').
        unfold bind, log, assign. cbn [w_heap]. by rewrite Hl. }
      assert (Hx : exists xt, (if s_transform step'
                               then lift (step_transform ps step' x_train_t)
                               else ret x_train_t) w1 = (Ok xt, w1)).
      { destruct (s_transform step') eqn:Ht; [|by eexists].
        rewrite step_transform_trained by (done || by eexists). by eexists. }
      destruct Hx as [xt Hx]. erewrite bind_ok; [|exact Hx].
      destruct (IH (seen ++ [step']) xt w1 Hrest) as (steps' & w' & Hrun & Hheap & Hdb & Hf').
      { unfold w1. cbn [w_heap]. rewrite <- app_assoc.
        apply list_lookup_insert_eq. by eapply lookup_lt_Some. }
      exists (step' :: steps'), w'. split; [done|].
      split.
      { rewrite Hheap. unfold w1. cbn [w_heap].
        by rewrite list_insert_insert_eq, <- app_assoc. }
      split; [by rewrite Hdb|].
      apply Forall2_cons. split; [|done]. repeat split; done.
Qed.

Lemma fitted_steps_ready steps steps' :
  steps_fittable steps = true -> Forall2 fitted_from steps steps' ->
  steps_ready steps' = true.
Proof.
  intros Hf H. induction H as [|step step' rest rest' (Ef & Et & Ep & Hs) Hrest IH]; [done|].
  destruct Hrest as [|step2 step2' rest2 rest2' H2 Hrest2].
  - cbn in *. apply andb_true_iff in Hf as [_ Hp].
    rewrite Ep, Hp. by rewrite bool_decide_eq_true_2.
  - cbn [steps_fittable] in Hf. apply andb_true_iff in Hf as [[_ Ht]%andb_true_iff Hf].
    cbn [steps_ready]. rewrite Et, Ht, bool_decide_eq_true_2 by done.
    cbn [andb]. by apply IH.
Qed.

Lemma steps_fittable_fit steps :
  steps_fittable steps = true ->
  Forall (fun step => probe step = true \/ s_fit step = true) steps.
Proof.
  induction steps as [|step rest IH]; [done|].
  intros H. cbn [steps_fittable] in H. destruct rest as [|step2 rest2].
  - apply andb_true_iff in H as [Hf _]. apply Forall_singleton. by right.
  - apply andb_true_iff in H as [[Hf _]%andb_true_iff H].
    apply Forall_cons. split; [by right | by apply IH].
Qed.

Lemma steps_ready_probe steps :
  steps_ready steps = true -> Forall (fun step => probe step = true) steps.
Proof.
  induction steps as [|step rest IH]; [done|].
  intros H. cbn [steps_ready] in H. unfold probe. destruct rest as [|step2 rest2].
  - apply andb_true_iff in H as [Hp Ht]. apply Forall_singleton.
    rewrite Hp, Ht. by rewrite orb_true_r.
  - apply andb_true_iff in H as [[Hp Ht]%andb_true_iff H].
    apply Forall_cons. split; [by rewrite Hp, Ht | by apply IH].
Qed.

Lemma ready_fitted_artifact k : ready k = true -> fitted_artifact k.
Proof. destruct k as [n|p|e]; try done. apply steps_ready_probe. Qed.

(** A learner fetched from the database is not fitted again. *)
Lemma fit_hit_run l o x_train y_train fit_params w :
  w_heap w !! l = Some o -> o_is_fitted o = Some true -> fitted_artifact (o_kind o) ->
  _fit l x_train y_train fit_params w = (Ok l, w).
Proof.
  intros Hl Hf Ha. unfold _fit. erewrite bind_ok; [|by apply deref_ok].
  destruct (o_kind o) as [n|p|e].
  - unfold getattr_is_fitted. rewrite Hf. by erewrite !bind_ok.
  - erewrite bind_ok; [reflexivity|]. by apply fit_steps_fitted.
  - destruct (e_fit e && e_predict e); [|by erewrite bind_ok].
    unfold getattr_is_fitted. rewrite Hf. by erewrite !bind_ok.
Qed.

(** A fresh copy of a model that can be fitted is fitted, and can predict
    afterwards. *)
Lemma fit_miss_run l o x_train y_train fit_params w :
  w_heap w !! l = Some o -> o_is_fitted o = Some false -> fittable (o_kind o) = true ->
  exists o' w',
    _fit l x_train y_train fit_params w = (Ok l, w') /\
    w_heap w' = <[l := o']> (w_heap w) /\ w_db w' = w_db w /\
    ready (o_kind o') = true.
Proof.
  intros Hl Hf Ha. unfold _fit. erewrite bind_ok; [|by apply deref_ok].
  destruct (o_kind o) as [n|p|e] eqn:Ek.
  - unfold getattr_is_fitted. rewrite Hf. erewrite bind_ok; last first.
    { erewrite bind_ok; [|reflexivity]. cbn [negb].
      erewrite bind_ok; [|reflexivity]. unfold log. erewrite assign_ok; [|exact Hl].
      reflexivity. }
    eexists _, _. split; [reflexivity|]. cbn. done.
  - destruct p as [steps ps]. cbn [p_steps p_params].
    destruct (fit_steps_run l o ps y_train steps [] x_train w) as (steps' & w' & Hrun & Hheap & Hdb & H2).
    { by apply steps_fittable_fit. }
    { cbn [app]. by rewrite <- Ek, with_kind_id. }
    erewrite bind_ok; [|exact Hrun].
    eexists _, w'. split; [reflexivity|]. split; [exact Hheap|]. split; [done|].
    cbn. by eapply fitted_steps_ready.
  - cbn in Ha. rewrite Ha. unfold getattr_is_fitted. rewrite Hf. erewrite bind_ok; last first.
    { erewrite bind_ok; [|reflexivity]. cbn [negb].
      erewrite bind_ok; [|reflexivity]. unfold log. erewrite assign_ok; [|exact Hl].
      reflexivity. }
    eexists _, _. split; [reflexivity|]. cbn. repeat split.
    apply andb_true_iff in Ha as [_ Hp]. unfold ready. cbn. by rewrite Hp.
Qed.

Lemma pipeline_predict_ready ps steps :
  steps_ready steps = true -> forall x, succeeds (pipeline_predict ps steps x).
Proof.
  induction steps as [|step rest IH]; [done|].
  intros H x. cbn [steps_ready] in H. destruct rest as [|step2 rest2].
  - apply andb_true_iff in H as [Hp Ht]. apply bool_decide_eq_true in Ht as [t Ht].
    cbn. unfold step_predict. rewrite Hp, Ht. by eexists.
  - apply andb_true_iff in H as [[Hp Ht]%andb_true_iff H].
    apply bool_decide_eq_true in Ht.
    cbn [pipeline_predict]. rewrite step_transform_trained by done. by apply IH.
Qed.

Lemma predict_world l x w : (predict l x w).2 = w.
Proof.
  unfold predict, bind, deref. destruct (w_heap w !! l) as [o|]; [|done].
  destruct (o_kind o) as [n|p|e]; try done.
  destruct (e_predict e); [|done]. by destruct (e_trained e).
Qed.

Lemma predict_ready l o x w :
  w_heap w !! l = Some o -> ready (o_kind o) = true ->
  exists out, predict l x w = (Ok out, w).
Proof.
  intros Hl Hr. unfold predict. erewrite bind_ok; [|by apply deref_ok].
  destruct (o_kind o) as [n|p|e]; cbn in Hr.
  - by eexists.
  - destruct (pipeline_predict_ready (p_params p) _ Hr x) as [out Hout].
    exists out. unfold lift. by rewrite Hout.
  - apply andb_true_iff in Hr as [Hp Ht]. apply bool_decide_eq_true in Ht as [t Ht].
    rewrite Hp, Ht. by eexists.
Qed.

Lemma fold_data_world c list_of_splits split_index w :
  (fold_data c list_of_splits split_index w).2 = w.
Proof.
  unfold fold_data. destruct (cv_random_data c); [|done].
  destruct (list_of_splits !! split_index) as [[train_index val_index]|]; [|done].
  unfold bind, lift, ret.
  repeat (match goal with |- context [np_take ?x ?i] => destruct (np_take x i) end; try done).
Qed.

Lemma set_signature_run l o signature w :
  w_heap w !! l = Some o ->
  set_signature l signature w
  = (Ok tt, set_heap w (<[l := with_signature o signature]> (w_heap w))).
Proof.
  intros H. unfold set_signature. erewrite bind_ok; [|by apply deref_ok].
  by erewrite assign_ok.
Qed.

Lemma save_model_run l o split_index dataset_id dataset_name fit_params db_name w :
  w_heap w !! l = Some o ->
  save_model l split_index dataset_id dataset_name fit_params db_name w
  = (Ok (Sig db_name (fingerprint o split_index dataset_id dataset_name fit_params)),
     saved_world o db_name (fingerprint o split_index dataset_id dataset_name fit_params) w).
Proof.
  intros H. unfold save_model. erewrite bind_ok; [|by apply deref_ok].
  unfold bind, get_world, log, saved_world, stored. cbn [w_db w_heap w_tf_seed w_log].
  by destruct (store_find _ _).
Qed.

(** What the database holds after [save_model]: the saved object, or what
    it held before. *)
Lemma stored_after_save o db_name fp w db_name' fp' artifact :
  stored (saved_world o db_name fp w) db_name' fp' = Some artifact ->
  artifact = o \/ stored w db_name' fp' = Some artifact.
Proof.
  unfold saved_world. destruct (stored w db_name fp) as [old|] eqn:Es; [by right|].
  unfold stored in *. cbn [w_db].
  destruct (decide (db_name' = db_name)) as [->|Hne].
  - rewrite lookup_insert_eq. cbn [default store_find id].
    destruct (decide (fp' = fp)); [intros [= <-]; by left | by right].
  - rewrite lookup_insert_ne by done. by right.
Qed.

End Fitting.

(** ** A hit in the cache *)

Section CacheHit.
Context `{ext : Externals}.

#[local] Hint Resolve logs_deepcopy logs_set_signature logs_predict : logs.

Lemma logs_save_model_or l split_index dataset_id dataset_name fit_params db_name :
  logs (fun ev => is_fit ev \/ is_save ev)
    (save_model l split_index dataset_id dataset_name fit_params db_name).
Proof. eapply logs_mono; [|apply logs_save_model]. by right. Qed.

Lemma logs_fit_or l x_train y_train fit_params :
  logs (fun ev => is_fit ev \/ is_save ev) (_fit l x_train y_train fit_params).
Proof. eapply logs_mono; [|apply logs_fit]. by left. Qed.

#[local] Hint Resolve logs_save_model logs_save_model_or logs_fit_or : logs.

Lemma score_fun_world {A} (f : option A) a w w' :
  (match f with Some f => ret f | None => raise UnboundLocalError end) w = (Ok a, w') ->
  w' = w.
Proof. destruct f; [by intros [= _ <-] | done]. Qed.

(** C5.  In a world whose database holds fitted artifacts, a fold whose
    lookup is a hit fits nothing: the log of the fold has no fit, the
    learner it returns is marked fitted, and a fold that does fit had a miss
    before. *)
Theorem cache_hit_no_fit (c : CvConfig) (list_of_splits : list (list nat * list nat))
    (split_index : nat) (w : World) :
  store_fitted w (cv_db_name c) ->
  exists new,
    w_log (cv_fold c list_of_splits split_index w).2 = new ++ w_log w /\
    (Exists is_hit new -> Forall (fun ev => ~ is_fit ev) new) /\
    (Exists is_fit new -> Exists is_miss new) /\
    (Exists is_hit new -> forall score_train score_val fitted,
       (cv_fold c list_of_splits split_index w).1 = Ok (score_train, score_val, fitted) ->
       exists o, w_heap (cv_fold c list_of_splits split_index w).2 !! fitted = Some o /\
                 o_is_fitted o = Some true).
Proof.
  intros Hst.
  destruct (cv_fold c list_of_splits split_index w) as [res wend] eqn:HR. cbn [fst snd].
  unfold cv_fold in HR.
  pose proof (fold_data_world c list_of_splits split_index w) as Hw.
  unfold bind at 1 in HR.
  destruct (fold_data c list_of_splits split_index w) as [[data|e] w1];
    simpl in Hw; subst w1; last first.
  { injection HR as <- <-. exists []. repeat split; try done; by intros ?%Exists_nil. }
  destruct data as [[[x_train x_val] y_train] y_val].
  destruct (w_heap w !! cv_model c) as [o|] eqn:Hm; last first.
  { unfold bind at 1 in HR. unfold _get_learner, bind, deepcopy, bind, deref in HR.
    rewrite Hm in HR. injection HR as <- <-.
    exists []. repeat split; try done; by intros ?%Exists_nil. }
  unfold bind at 1 in HR. rewrite (get_learner_run _ o) in HR by done.
  set (s := seed_value (cv_random_model c) (Z.of_nat split_index) (cv_seed c)) in *.
  set (key := lookup_key o (cv_random_model c) (Z.of_nat split_index) (cv_seed c)
                (cv_dataset_id c) (cv_dataset_name c) (cv_fit_params c)) in *.
  set (l := S (length (w_heap w))) in *.
  destruct (stored w (cv_db_name c) key) as [artifact|] eqn:Ef.
  - set (wf := fetched_world o s (cv_db_name c) key (Some artifact) w) in *.
    assert (Hl : w_heap wf !! l = Some (with_is_fitted artifact true)).
    { unfold wf, fetched_world, l. cbn [w_heap].
      change (w_heap w ++ [seeded o s; with_is_fitted artifact true])
        with (w_heap w ++ [seeded o s] ++ [with_is_fitted artifact true]).
      rewrite app_assoc.
      replace (S (length (w_heap w))) with (length (w_heap w ++ [seeded o s]))
        by (rewrite length_app; simpl; lia).
      apply lookup_last. }
    unfold bind at 1 in HR.
    rewrite (fit_hit_run l _ _ _ _ _ Hl) in HR;
      [|done|cbn [o_kind with_is_fitted]; by eapply Hst].
    match type of HR with
    | ?m wf = _ => assert (L : logs is_save m) by (repeat logs_step)
    end.
    destruct (L wf) as (new & E & F). rewrite HR in E. cbn [snd] in E.
    exists (new ++ [EvLoad (cv_db_name c) key true]).
    split; [by rewrite E, <- app_assoc|].
    split; [|split].
    + intros _. apply Forall_app. split.
      * eapply Forall_impl; [exact F|]. intros ev Hs Hf. by destruct ev.
      * apply Forall_singleton. by intros Hf.
    + intros [Hx|Hx]%Exists_app.
      * apply Exists_exists in Hx as (ev & Hin & Hfit).
        rewrite Forall_forall in F. specialize (F _ Hin). by destruct ev.
      * apply Exists_cons in Hx as [[]|Hx]. by apply Exists_nil in Hx.
    + intros _ score_train score_val fitted ->.
      apply bind_inv_ok in HR as (p1 & w1 & E1 & HR).
      pose proof (predict_world l x_train wf) as W1. rewrite E1 in W1. simpl in W1. subst w1.
      apply bind_inv_ok in HR as (p2 & w2 & E2 & HR).
      pose proof (predict_world l x_val wf) as W2. rewrite E2 in W2. simpl in W2. subst w2.
      apply bind_inv_ok in HR as (f & w3 & E3 & HR).
      apply score_fun_world in E3. subst w3.
      apply bind_inv_ok in HR as (sig & w4 & E4 & HR).
      rewrite (save_model_run l _ _ _ _ _ _ _ Hl) in E4. injection E4 as <- <-.
      apply bind_inv_ok in HR as ([] & w5 & E5 & HR).
      erewrite set_signature_run in E5; [|exact Hl]. injection E5 as <-.
      apply bind_inv_ok in HR as (r & w6 & E6 & HR).
      erewrite deepcopy_run in E6; last first.
      { cbn [set_heap saved_world w_heap]. apply list_lookup_insert_eq.
        by eapply lookup_lt_Some. }
      injection E6 as <- <-. injection HR as _ _ <- <-.
      eexists. cbn [set_heap w_heap]. split; [apply lookup_last|]. done.
  - match type of HR with
    | ?m ?wf = _ =>
        assert (L : logs (fun ev => is_fit ev \/ is_save ev) m) by (repeat logs_step);
        destruct (L wf) as (new & E & F)
    end.
    rewrite HR in E. cbn [snd fetched_world w_log] in E.
    exists (new ++ [EvLoad (cv_db_name c) key false]).
    split; [by rewrite E, <- app_assoc|].
    assert (N : ~ Exists is_hit (new ++ [EvLoad (cv_db_name c) key false])).
    { intros [Hx|Hx]%Exists_app.
      - apply Exists_exists in Hx as (ev & Hin & Hhit).
        rewrite Forall_forall in F. specialize (F _ Hin). destruct ev; simpl in *; tauto.
      - apply Exists_cons in Hx as [[]|Hx]. by apply Exists_nil in Hx. }
    split; [by intros ?|]. split; [|by intros ?].
    intros _. apply Exists_app. right. by apply Exists_cons_hd.
Qed.

End CacheHit.

(** ** The folds of a cross-validation *)

Section Folds.
Context `{ext : Externals}.

Lemma np_take_in_range (x : Array) index :
  Forall (fun i => i < length x)%nat index -> succeeds (np_take x index).
Proof.
  induction 1 as [|i rest Hi Hrest [vs IH]]; [by eexists|].
  cbn [np_take]. destruct (lookup_lt_is_Some_2 x i Hi) as [v Hv].
  rewrite Hv, IH. by eexists.
Qed.

Lemma fold_data_ok c list_of_splits split_index w :
  valid_splits c list_of_splits ->
  (split_index < Z.to_nat (cv_n_splits c))%nat ->
  exists data, fold_data c list_of_splits split_index w = (Ok data, w).
Proof.
  intros Hv Hi. unfold fold_data. destruct (cv_random_data c) eqn:Ed; [|by eexists].
  destruct (Hv Ed) as [Hlen Hrange].
  destruct (lookup_lt_is_Some_2 list_of_splits split_index) as [[train_index val_index] Hs];
    [lia|].
  rewrite Hs. unfold splits_in_range in Hrange. rewrite Forall_forall in Hrange.
  destruct (Hrange _ (list_elem_of_lookup_2 _ _ _ Hs)) as [Ht Hva]. cbn [fst snd] in *.
  destruct (np_take_in_range (rows_of (cv_x c)) train_index) as [a1 E1];
    [eapply Forall_impl; [exact Ht|]; by intros ? []|].
  destruct (np_take_in_range (rows_of (cv_x c)) val_index) as [a2 E2];
    [eapply Forall_impl; [exact Hva|]; by intros ? []|].
  destruct (np_take_in_range (rows_of (cv_y c)) train_index) as [a3 E3];
    [eapply Forall_impl; [exact Ht|]; by intros ? []|].
  destruct (np_take_in_range (rows_of (cv_y c)) val_index) as [a4 E4];
    [eapply Forall_impl; [exact Hva|]; by intros ? []|].
  unfold bind, lift. rewrite E1, E2, E3, E4. by eexists.
Qed.

Lemma fittable_seeded s k : fittable (seeded_kind s k) = fittable k.
Proof.
  destruct k as [n|p|e]; try done. cbn [seeded_kind].
  by destruct (e_fit e && e_predict e && bool_decide (is_Some (e_params e !! "random_state"))).
Qed.

(** [_fit] on what [_get_learner] returns: a fitted artifact, or a fresh
    copy of a model that can be fitted. *)
Lemma fit_run_ready l o x_train y_train fit_params w :
  w_heap w !! l = Some o ->
  (o_is_fitted o = Some true /\ ready (o_kind o) = true) \/
  (o_is_fitted o = Some false /\ fittable (o_kind o) = true) ->
  exists o' w',
    _fit l x_train y_train fit_params w = (Ok l, w') /\
    w_heap w' = <[l := o']> (w_heap w) /\ w_db w' = w_db w /\
    ready (o_kind o') = true.
Proof.
  intros Hl [[Hf Hr] | [Hf Ha]].
  - exists o, w. split; [apply (fit_hit_run l o); [done|done|by apply ready_fitted_artifact]|].
    by rewrite list_insert_id.
  - by apply (fit_miss_run l o).
Qed.

Lemma cv_fold_ok c list_of_splits split_index o f w :
  fold_invariant c o w ->
  bind_score_fun (cv_scoring c) = Some f ->
  valid_splits c list_of_splits ->
  (split_index < Z.to_nat (cv_n_splits c))%nat ->
  succeeds (cv_fold c list_of_splits split_index w).1 /\
  fold_invariant c o (cv_fold c list_of_splits split_index w).2.
Proof.
  intros (Hm & Ha & Hst) Hs Hv Hi.
  assert (Hkeep : w_heap (cv_fold c list_of_splits split_index w).2 !! cv_model c = Some o).
  { destruct (safe_cv_fold [] (w_heap w) c list_of_splits split_index w (keeps_refl [] w))
      as [K _].
    by eapply keeps_nil. }
  destruct (cv_fold c list_of_splits split_index w) as [res wend] eqn:HR. cbn [fst snd] in *.
  unfold cv_fold in HR.
  destruct (fold_data_ok c list_of_splits split_index w Hv Hi)
    as [[[[x_train x_val] y_train] y_val] Hd].
  rewrite (bind_ok _ _ _ _ _ Hd) in HR.
  rewrite (bind_ok _ _ _ _ _ (get_learner_run _ o _ _ _ _ _ _ _ _ Hm)) in HR.
  set (s := seed_value (cv_random_model c) (Z.of_nat split_index) (cv_seed c)) in *.
  set (key := lookup_key o (cv_random_model c) (Z.of_nat split_index) (cv_seed c)
                (cv_dataset_id c) (cv_dataset_name c) (cv_fit_params c)) in *.
  set (l := S (length (w_heap w))) in *.
  set (found := stored w (cv_db_name c) key) in *.
  set (wf := fetched_world o s (cv_db_name c) key found w) in *.
  set (ol := match found with
             | Some artifact => with_is_fitted artifact true
             | None => with_is_fitted (seeded o s) false
             end).
  assert (Hl : w_heap wf !! l = Some ol).
  { unfold wf, fetched_world, l. cbn [w_heap]. fold ol.
    change (w_heap w ++ [seeded o s; ol]) with (w_heap w ++ [seeded o s] ++ [ol]).
    rewrite app_assoc.
    replace (S (length (w_heap w))) with (length (w_heap w ++ [seeded o s]))
      by (rewrite length_app; simpl; lia).
    apply lookup_last. }
  destruct (fit_run_ready l ol x_train y_train (cv_fit_params c) wf Hl)
    as (ol' & w1 & Hfit & Hheap & Hdb & Hready).
  { unfold ol. destruct found as [artifact|] eqn:Ef.
    - left. split; [done|]. cbn [o_kind with_is_fitted]. by eapply Hst.
    - right. split; [done|]. cbn [o_kind with_is_fitted seeded with_kind].
      by rewrite fittable_seeded. }
  rewrite (bind_ok _ _ _ _ _ Hfit) in HR.
  assert (Hl1 : w_heap w1 !! l = Some ol').
  { rewrite Hheap. apply list_lookup_insert_eq. by eapply lookup_lt_Some. }
  destruct (predict_ready l ol' x_train w1 Hl1 Hready) as [p1 E1].
  rewrite (bind_ok _ _ _ _ _ E1) in HR.
  destruct (predict_ready l ol' x_val w1 Hl1 Hready) as [p2 E2].
  rewrite (bind_ok _ _ _ _ _ E2) in HR.
  rewrite Hs in HR. rewrite (bind_ok (ret f) _ _ _ _ eq_refl) in HR.
  rewrite (bind_ok _ _ _ _ _ (save_model_run l ol' _ _ _ _ _ _ Hl1)) in HR.
  cbv beta in HR.
  match type of HR with
  | bind (set_signature l ?sig) _ ?w2 = _ =>
      rewrite (bind_ok _ _ _ _ _ (set_signature_run l ol' sig w2 Hl1)) in HR
  end.
  cbv beta in HR.
  match type of HR with
  | bind (deepcopy l) _ ?w2 = _ =>
      assert (Hl2 : w_heap w2 !! l = Some (with_signature ol'
                (Sig (cv_db_name c) (fingerprint ol' (Z.of_nat split_index)
                   (cv_dataset_id c) (cv_dataset_name c) (cv_fit_params c)))))
        by (cbn [set_heap saved_world w_heap]; apply list_lookup_insert_eq;
            by eapply lookup_lt_Some);
      rewrite (bind_ok _ _ _ _ _ (deepcopy_run l _ w2 Hl2)) in HR
  end.
  injection HR as <- <-. split; [by eexists|].
  split; [done|]. split; [done|].
  intros fp artifact Hfp. unfold stored in Hfp. cbn [set_heap w_db] in Hfp.
  apply stored_after_save in Hfp as [-> | Hfp]; [done|].
  eapply Hst. unfold stored in *. rewrite Hdb in Hfp. exact Hfp.
Qed.

Lemma cv_loop_run c list_of_splits o f w0 :
  bind_score_fun (cv_scoring c) = Some f ->
  valid_splits c list_of_splits ->
  forall m k score fitted_models,
  (k + m <= Z.to_nat (cv_n_splits c))%nat ->
  fold_invariant c o (world_after c list_of_splits w0 k) ->
  exists rs : list (Q * Q * Ref),
    length rs = m /\
    (forall j r, rs !! j = Some r -> fold_result c list_of_splits w0 (k + j) = Ok r) /\
    cv_loop c list_of_splits (seq k m) score fitted_models (world_after c list_of_splits w0 k)
    = (Ok ({| score_train_blind := score_train_blind score;
              score_test_blind := score_test_blind score;
              score_train_cv := score_train_cv score ++ map (fun r => r.1.1) rs;
              score_val_cv := score_val_cv score ++ map (fun r => r.1.2) rs |},
           fitted_models ++ map snd rs),
       world_after c list_of_splits w0 (k + m)).
Proof.
  intros Hs Hv. induction m as [|m IH]; intros k score fitted_models Hk Hinv.
  - exists []. split; [done|]. split; [by intros j r ?|].
    cbn [seq cv_loop map]. rewrite Nat.add_0_r, !app_nil_r. by destruct score.
  - destruct (cv_fold_ok c list_of_splits k o f _ Hinv Hs Hv) as [[r Hr] Hinv']; [lia|].
    assert (Hfold : cv_fold c list_of_splits k (world_after c list_of_splits w0 k)
                    = (Ok r, world_after c list_of_splits w0 (S k))).
    { rewrite (surjective_pairing (cv_fold _ _ _ _)), Hr. done. }
    cbn [seq cv_loop]. rewrite (bind_ok _ _ _ _ _ Hfold).
    destruct r as [[score_train score_val] fitted].
    destruct (IH (S k)
                {| score_train_blind := score_train_blind score;
                   score_test_blind := score_test_blind score;
                   score_train_cv := score_train_cv score ++ [score_train];
                   score_val_cv := score_val_cv score ++ [score_val] |}
                (fitted_models ++ [fitted])) as (rs & Hlen & Hrs & Hrun); [lia|done|].
    exists ((score_train, score_val, fitted) :: rs). split; [by rewrite <- Hlen|]. split.
    + intros [|j] r Hj.
      * injection Hj as <-. by rewrite Nat.add_0_r.
      * rewrite Nat.add_succ_r. by apply Hrs.
    + rewrite Hrun. cbn [score_train_blind score_test_blind score_train_cv score_val_cv
                         map fst snd].
      rewrite <- !app_assoc, Nat.add_succ_r. done.
Qed.

(** C7.  On a valid input (the arguments pass the checks, the scoring is
    one of those supported, the partition is what [StratifiedKFold] promises,
    and the model and the artifacts of the database can be fitted and can
    predict) [cross_validation] returns, and what it returns has one entry for
    each of the [n_splits] folds in each of [score["train_cv"]],
    [score["val_cv"]] and [fitted_models]; the entry at position [i] is what
    fold [i] returned, run in the world that the folds 0 to [i-1] had left. *)
Theorem cross_validation_fold_results (c : CvConfig) (w : World) (o : Obj)
    (list_of_splits : list (list nat * list nat)) (f : Array -> Array -> Q) :
  (check_input c w).1 = Ok tt ->
  bind_score_fun (cv_scoring c) = Some f ->
  prepare_splits c = Ok list_of_splits ->
  valid_splits c list_of_splits ->
  0 <= cv_n_splits c ->
  w_heap w !! cv_model c = Some o ->
  fittable (o_kind o) = true ->
  store_ready w (cv_db_name c) ->
  exists score fitted_models,
    cross_validation c w
    = (Ok (score, fitted_models),
       world_after c list_of_splits w (Z.to_nat (cv_n_splits c))) /\
    Z.of_nat (length (score_train_cv score)) = cv_n_splits c /\
    Z.of_nat (length (score_val_cv score)) = cv_n_splits c /\
    Z.of_nat (length fitted_models) = cv_n_splits c /\
    forall i, (i < Z.to_nat (cv_n_splits c))%nat ->
      exists score_train score_val fitted,
        fold_result c list_of_splits w i = Ok (score_train, score_val, fitted) /\
        score_train_cv score !! i = Some score_train /\
        score_val_cv score !! i = Some score_val /\
        fitted_models !! i = Some fitted.
Proof.
  intros Hc Hs Hp Hv Hn Hm Ha Hst.
  destruct (cv_loop_run c list_of_splits o f w Hs Hv (Z.to_nat (cv_n_splits c)) 0%nat
              {| score_train_blind := []; score_test_blind := [];
                 score_train_cv := []; score_val_cv := [] |} [])
    as (rs & Hlen & Hrs & Hrun); [lia|done|].
  eexists _, _. split.
  - unfold cross_validation. erewrite bind_ok; last first.
    { rewrite (surjective_pairing (check_input c w)), Hc, check_input_world. done. }
    rewrite Hp. erewrite bind_ok; [|reflexivity]. exact Hrun.
  - cbn [score_train_cv score_val_cv app]. rewrite !length_map, Hlen.
    repeat (split; [lia|]).
    intros i Hi. destruct (lookup_lt_is_Some_2 rs i) as [[[score_train score_val] fitted] Hr];
      [lia|].
    exists score_train, score_val, fitted. split; [by apply (Hrs i)|].
    rewrite !list_lookup_fmap, Hr. done.
Qed.

End Folds.

(** ** The statements on a run *)

Lemma store_fitted_intro w db_name :
  Forall (fun entry => fitted_artifact (o_kind entry.2)) (default [] (w_db w !! db_name)) ->
  store_fitted w db_name.
Proof.
  intros H fp artifact. unfold stored.
  induction H as [|[fp' o] rest Ho Hrest IH]; [done|].
  cbn [store_find]. destruct (decide (fp = fp')); [by intros [= <-] | done].
Qed.


Lemma cache_hit_no_fit_witness :
  store_fitted knn_cached_world (cv_db_name (knn_cv false)) /\
  exists new,
    w_log (cv_fold (knn_cv false) toy_splits 0 knn_cached_world).2
    = new ++ w_log knn_cached_world /\
    (Exists is_hit new -> Forall (fun ev => ~ is_fit ev) new) /\
    (Exists is_fit new -> Exists is_miss new) /\
    (Exists is_hit new -> forall score_train score_val fitted,
       (cv_fold (knn_cv false) toy_splits 0 knn_cached_world).1
       = Ok (score_train, score_val, fitted) ->
       exists o, w_heap (cv_fold (knn_cv false) toy_splits 0 knn_cached_world).2 !! fitted
                 = Some o /\ o_is_fitted o = Some true).
Proof.
  assert (H : store_fitted knn_cached_world (cv_db_name (knn_cv false))).
  { apply store_fitted_intro. apply (bool_decide_unpack _). vm_compute. exact I. }
  split; [exact H|].
  exact (cache_hit_no_fit (knn_cv false) toy_splits 0 knn_cached_world H).
Defined.

(** The fold of the witness is a hit, and fits nothing. *)
Example cache_hit_run :
  w_log (cv_fold (knn_cv false) toy_splits 0 knn_cached_world).2
  = [EvSave "templates" knn_key; EvLoad "templates" knn_key true] ++ w_log knn_cached_world.
Proof. vm_compute. reflexivity. Qed.

Lemma cross_validation_fold_results_witness :
  (check_input toy_cv toy_world).1 = Ok tt /\
  bind_score_fun (cv_scoring toy_cv) = Some toy_accuracy /\
  prepare_splits toy_cv = Ok toy_splits /\
  valid_splits toy_cv toy_splits /\
  0 <= cv_n_splits toy_cv /\
  w_heap toy_world !! cv_model toy_cv = Some ridge /\
  fittable (o_kind ridge) = true /\
  store_ready toy_world (cv_db_name toy_cv) /\
  exists score fitted_models,
    cross_validation toy_cv toy_world
    = (Ok (score, fitted_models),
       world_after toy_cv toy_splits toy_world (Z.to_nat (cv_n_splits toy_cv))) /\
    Z.of_nat (length (score_train_cv score)) = cv_n_splits toy_cv /\
    Z.of_nat (length (score_val_cv score)) = cv_n_splits toy_cv /\
    Z.of_nat (length fitted_models) = cv_n_splits toy_cv /\
    forall i, (i < Z.to_nat (cv_n_splits toy_cv))%nat ->
      exists score_train score_val fitted,
        fold_result toy_cv toy_splits toy_world i = Ok (score_train, score_val, fitted) /\
        score_train_cv score !! i = Some score_train /\
        score_val_cv score !! i = Some score_val /\
        fitted_models !! i = Some fitted.
Proof.
  assert (H1 : (check_input toy_cv toy_world).1 = Ok tt) by reflexivity.
  assert (H2 : bind_score_fun (cv_scoring toy_cv) = Some toy_accuracy) by reflexivity.
  assert (H3 : prepare_splits toy_cv = Ok toy_splits) by (vm_compute; reflexivity).
  assert (H4 : valid_splits toy_cv toy_splits).
  { intros _. split; [reflexivity|]. unfold splits_in_range.
    apply (bool_decide_unpack _). vm_compute. exact I. }
  assert (H5 : 0 <= cv_n_splits toy_cv) by (simpl; lia).
  assert (H6 : w_heap toy_world !! cv_model toy_cv = Some ridge) by reflexivity.
  assert (H7 : fittable (o_kind ridge) = true) by reflexivity.
  assert (H8 : store_ready toy_world (cv_db_name toy_cv)).
  { intros fp artifact Hs. unfold stored in Hs. simpl in Hs.
    rewrite lookup_empty in Hs. simpl in Hs. discriminate. }
  do 8 (split; [assumption|]).
  exact (cross_validation_fold_results toy_cv toy_world ridge toy_splits toy_accuracy
           H1 H2 H3 H4 H5 H6 H7 H8).
Defined.

(** ** The summary *)

Lemma elem_of_non_separable alpha pvalues index i :
  i ∈ non_separable alpha pvalues index <->
  exists j p, i = (index + j)%nat /\ pvalues !! j = Some p /\ Qle_bool alpha p = true.
Proof.
  revert index. induction pvalues as [|p rest IH]; intros index; cbn [non_separable].
  - split; [by intros ?%elem_of_nil | by intros (j & p & _ & ? & _)].
  - destruct (Qle_bool alpha p) eqn:Ep.
    + rewrite elem_of_cons, IH. split.
      * intros [-> | (j & q & -> & Hq & Hle)].
        -- exists 0%nat, p. by rewrite Nat.add_0_r.
        -- exists (S j), q. by rewrite Nat.add_succ_r.
      * intros ([|j] & q & -> & Hq & Hle).
        -- left. by rewrite Nat.add_0_r.
        -- right. exists j, q. by rewrite Nat.add_succ_r.
    + rewrite IH. split.
      * intros (j & q & -> & Hq & Hle). exists (S j), q. by rewrite Nat.add_succ_r.
      * intros ([|j] & q & -> & Hq & Hle).
        -- cbn in Hq. congruence.
        -- exists j, q. by rewrite Nat.add_succ_r.
Qed.

Section Summary.
Context `{ext : Externals}.

Lemma summary_rows_run a w models :
  forall index results,
  (forall j model, models !! j = Some model -> summary_input a w (index + j) model) ->
  exists rows,
    summary_rows a models index results w = (Ok (results ++ rows), w) /\
    length rows = length models /\
    forall j model, models !! j = Some model ->
      exists row, rows !! j = Some row /\ summary_row a w (index + j) model row.
Proof.
  induction models as [|model rest IH]; intros index results Hin.
  - exists []. rewrite app_nil_r. split; [done|]. split; [done|]. by intros j model ?.
  - destruct (Hin 0%nat model eq_refl)
      as ((o & signature & Ho & Hsig) & [train Ht] & [pvalue Hp] & val & Hv & [ci Hci]).
    rewrite Nat.add_0_r in Ht, Hp, Hv.
    cbn [summary_rows]. unfold list_index. rewrite Hv.
    erewrite bind_ok; [|reflexivity]. unfold lift at 1. rewrite Hci.
    erewrite bind_ok; [|reflexivity].
    erewrite bind_ok; [|by apply deref_ok].
    unfold getattr_signature. rewrite Hsig. erewrite bind_ok; [|reflexivity].
    rewrite Ht. erewrite bind_ok; [|reflexivity].
    rewrite Hp. erewrite bind_ok; [|reflexivity].
    match goal with
    | |- context [summary_rows a rest (S index) (results ++ [?r]) w] => set (row := r)
    end.
    destruct (IH (S index) (results ++ [row])) as (rows & Hrun & Hlen & Hrows).
    { intros j m Hj. rewrite Nat.add_succ_l, <- Nat.add_succ_r. by apply (Hin (S j)). }
    exists (row :: rows). split; [by rewrite Hrun, <- app_assoc|].
    split; [cbn [length]; by rewrite Hlen|].
    intros [|j] m Hj.
    + injection Hj as <-. exists row. split; [done|]. rewrite Nat.add_0_r.
      unfold summary_row, row. cbn. destruct ci as [lo hi]. repeat split; eauto.
      * intros Hsep. by destruct (bool_decide (index ∈ sa_best_solutions a)) eqn:Eb;
          [|apply bool_decide_eq_false in Eb].
      * intros Hn. by rewrite bool_decide_eq_false_2.
    + destruct (Hrows j m Hj) as (r & Hr & Hspec). exists r. split; [done|].
      by rewrite Nat.add_succ_r, <- Nat.add_succ_l.
Qed.

(** C8.  When its inputs have what each model needs,
    [_compute_result_summary] returns one row for each model, in the order of
    the models and without changing the world; the row at position [i] is
    assembled from the inputs at position [i], with the mean and the
    confidence bounds of the validation scores, and it is flagged separable
    exactly when [i] is not among the best solutions, which, when these are
    the indices of the p-values of at least [alpha], is exactly when its
    p-value is below [alpha]. *)
Theorem summary_has_one_row_per_model (models : list Ref) (a : SummaryArgs) (w : World) :
  (forall i model, models !! i = Some model -> summary_input a w i model) ->
  exists rows,
    _compute_result_summary models a w = (Ok rows, w) /\
    length rows = length models /\
    forall i model, models !! i = Some model ->
      exists row, rows !! i = Some row /\ summary_row a w i model row /\
        (sa_best_solutions a = non_separable (sa_alpha a) (sa_pvalues a) 0 ->
         (r_separable row = true <-> (r_pvalue row < sa_alpha a)%Q)).
Proof.
  intros Hin. destruct (summary_rows_run a w models 0%nat [] Hin) as (rows & Hrun & Hlen & Hrows).
  exists rows. split; [done|]. split; [done|].
  intros i model Hi. destruct (Hrows i model Hi) as (row & Hr & Hspec).
  exists row. split; [done|]. split; [done|].
  intros Hbest. destruct Hspec as (_ & _ & _ & Hp & _ & _ & Hsep & _).
  cbn [Nat.add] in Hp, Hsep. rewrite Hsep, Hbest, elem_of_non_separable. split.
  - intros Hn. apply Qnot_le_lt. intros Hle. apply Hn.
    exists i, (r_pvalue row). split; [done|]. split; [done|]. by apply Qle_bool_iff.
  - intros Hlt (j & p & -> & Hj & Hle). cbn [Nat.add] in Hp.
    rewrite Hp in Hj. injection Hj as <-. apply Qle_bool_iff in Hle.
    by apply Qlt_not_le in Hlt.
Qed.

End Summary.

Lemma summary_has_one_row_per_model_witness :
  (forall i model, [0%nat; 1%nat] !! i = Some model ->
     summary_input toy_summary toy_compared_world i model) /\
  exists rows,
    _compute_result_summary [0%nat; 1%nat] toy_summary toy_compared_world
    = (Ok rows, toy_compared_world) /\
    length rows = length [0%nat; 1%nat] /\
    forall i model, [0%nat; 1%nat] !! i = Some model ->
      exists row, rows !! i = Some row /\
        summary_row toy_summary toy_compared_world i model row /\
        (sa_best_solutions toy_summary
         = non_separable (sa_alpha toy_summary) (sa_pvalues toy_summary) 0 ->
         (r_separable row = true <-> (r_pvalue row < sa_alpha toy_summary)%Q)).
Proof.
  assert (H : forall i model, [0%nat; 1%nat] !! i = Some model ->
                summary_input toy_summary toy_compared_world i model).
  { intros [|[|i]] model Hi; try discriminate; injection Hi as <-.
    - split; [eexists _, _; split; vm_compute; reflexivity|].
      split; [eexists; reflexivity|]. split; [eexists; reflexivity|].
      eexists. split; [reflexivity|]. eexists. vm_compute. reflexivity.
    - split; [eexists _, _; split; vm_compute; reflexivity|].
      split; [eexists; reflexivity|]. split; [eexists; reflexivity|].
      eexists. split; [reflexivity|]. eexists. vm_compute. reflexivity. }
  split; [exact H|].
  exact (summary_has_one_row_per_model [0%nat; 1%nat] toy_summary toy_compared_world H).
Defined.

(** ** The statistical test *)

Lemma bind_res_map {A A' B B'} (g : A -> A') (h : B -> B')
    (m : M A) (m' : M A') (f : A -> M B) (f' : A' -> M B') w :
  m' w = (res_map g (m w).1, (m w).2) ->
  (forall a w1, f' (g a) w1 = (res_map h (f a w1).1, (f a w1).2)) ->
  bind m' f' w = (res_map h (bind m f w).1, (bind m f w).2).
Proof.
  intros Hm Hf. unfold bind. rewrite Hm. destruct (m w) as [[a|e] w1]; cbn; [apply Hf|done].
Qed.

Lemma res_map_same {A} (m : M A) w : m w = (res_map id (m w).1, (m w).2).
Proof. by destruct (m w) as [[a|e] w1]. Qed.

Section StatisticalTest.
Context `{ext : Externals}.

Lemma compare_loop_test a test db_name dataset_id dataset_name pairs train_cv val_cv w :
  compare_loop (with_test a test) db_name dataset_id dataset_name pairs train_cv val_cv w
  = compare_loop a db_name dataset_id dataset_name pairs train_cv val_cv w.
Proof.
  revert train_cv val_cv w.
  induction pairs as [|[model fit_params] rest IH]; intros train_cv val_cv w; [done|].
  cbn [compare_loop with_test ca_x_train ca_y_train ca_x_val ca_y_val ca_random_data
       ca_random_model ca_seed ca_n_splits ca_scoring].
  apply bind_ext. intros [score fitted_models] w1.
  repeat (apply bind_ext; intros ? ?). apply IH.
Qed.

(** The rows of the summary with another test: the same rows, with the
    name of that test. *)
Lemma summary_rows_test a test models :
  forall index results w,
  summary_rows
    {| sa_random_data := sa_random_data a; sa_random_model := sa_random_model a;
       sa_seed := sa_seed a; sa_n_splits := sa_n_splits a; sa_scoring := sa_scoring a;
       sa_test := test; sa_alpha := sa_alpha a; sa_cl := sa_cl a;
       sa_dataset_id := sa_dataset_id a; sa_dataset_name := sa_dataset_name a;
       sa_train_cv := sa_train_cv a; sa_val_cv := sa_val_cv a;
       sa_pvalues := sa_pvalues a; sa_best_solutions := sa_best_solutions a |}
    models index (map (row_with_test (test_name test)) results) w
  = (res_map (map (row_with_test (test_name test))) (summary_rows a models index results w).1,
     (summary_rows a models index results w).2).
Proof.
  induction models as [|model rest IH]; intros index results w; [done|].
  cbn [summary_rows sa_random_data sa_random_model sa_seed sa_n_splits sa_scoring sa_test
       sa_alpha sa_cl sa_dataset_id sa_dataset_name sa_train_cv sa_val_cv sa_pvalues
       sa_best_solutions].
  repeat (eapply (bind_res_map id); [apply res_map_same|]; intros ? ?; unfold id).
  rewrite <- IH. by rewrite map_app.
Qed.

(** The test that the caller supplies decides one thing in what
    [compare_models] returns, the name in the column of the test: the rows
    are otherwise those of the call with any other test, and so is the
    world. *)
Lemma compare_models_test_ignored models params a test w :
  compare_models models params (with_test a test) w
  = (res_map (map (row_with_test (test_name test))) (compare_models models params a w).1,
     (compare_models models params a w).2).
Proof.
  unfold compare_models.
  eapply (bind_res_map id); [apply res_map_same|]. intros [dataset_id db_name] w1. unfold id.
  cbn [with_test ca_dataset_name]. unfold compare_with.
  eapply (bind_res_map id).
  { rewrite compare_loop_test. apply res_map_same. }
  intros [train_cv val_cv] w2. unfold id.
  eapply (bind_res_map id); [apply res_map_same|].
  intros [[best_sol best_solutions] pvalues] w3. unfold id.
  cbn [with_test ca_random_data ca_random_model ca_seed ca_n_splits ca_scoring ca_test
       ca_alpha ca_cl ca_output_dir ca_experiment_name].
  eapply bind_res_map.
  { unfold _compute_result_summary.
    match goal with
    | |- context [summary_rows ?sa models 0 [] w3] =>
        exact (summary_rows_test sa test models 0%nat [] w3)
    end. }
  intros results w4. eapply (bind_res_map id); [apply res_map_same|]. by intros [] w5.
Qed.

End StatisticalTest.

(** C1 fails on the code: [compare_models] hands [mannwhitneyu] to
    [find_best_solution], not the test it was given.  Called with a test of
    the caller's, it names that test in the summary, next to the p-values
    and the flags of the rank-sum test; the selection with the caller's test
    has other p-values, and separates no model. *)
Theorem compare_models_selects_with_mannwhitneyu :
  test_columns (compare_models [0%nat; 1%nat] [∅; ∅] (with_test toy_args coin_test)
                  toy_world).1
  = Ok [("ttest_ind", (1 # 100)%Q, true); ("ttest_ind", 1%Q, false)] /\
  find_best_solution [[1; 0]; [1; 1]]%Q mannwhitneyu (1 # 20)%Q false "two-sided"
  = Ok (1%nat, [1%nat], [(1 # 100)%Q; 1%Q]) /\
  find_best_solution [[1; 0]; [1; 1]]%Q coin_test (1 # 20)%Q false "two-sided"
  = Ok (1%nat, [0%nat; 1%nat], [(1 # 2)%Q; 1%Q]).
Proof. repeat split; vm_compute; reflexivity. Qed.

(** ** The artifacts of the database *)

Lemma same_db_ret {A} (a : A) : same_db (ret a).
Proof. done. Qed.

Lemma same_db_raise {A} e : same_db (@raise A e).
Proof. done. Qed.

Lemma same_db_lift {A} (r : Res A) : same_db (lift r).
Proof. done. Qed.

Lemma same_db_bind {A B} (m : M A) (f : A -> M B) :
  same_db m -> (forall a, same_db (f a)) -> same_db (bind m f).
Proof.
  intros Hm Hf w. unfold bind. specialize (Hm w).
  destruct (m w) as [[a|e] w1]; simpl in *; [|done]. by rewrite Hf.
Qed.

Lemma same_db_log ev : same_db (log ev).
Proof. done. Qed.

Lemma same_db_get_world : same_db get_world.
Proof. done. Qed.

Lemma same_db_set_tf_seed s : same_db (set_random_seed s).
Proof. done. Qed.

Lemma same_db_deref r : same_db (deref r).
Proof. intros w. unfold deref. by destruct (w_heap w !! r). Qed.

Lemma same_db_alloc o : same_db (alloc o).
Proof. done. Qed.

Lemma same_db_assign r o : same_db (assign r o).
Proof. intros w. unfold assign. by destruct (w_heap w !! r). Qed.

Create HintDb same_db.

#[export] Hint Resolve same_db_ret same_db_raise same_db_lift same_db_log
  same_db_get_world same_db_set_tf_seed same_db_deref same_db_alloc same_db_assign
  : same_db.

Ltac same_db_step :=
  match goal with
  | |- same_db (bind _ _) => apply same_db_bind; [|intros ?]
  | |- same_db (match ?x with _ => _ end) => destruct x eqn:?
  | |- same_db (if ?b then _ else _) => destruct b eqn:?
  | |- same_db _ => solve [eauto with same_db]
  end.

Section Artifacts.
Context `{ext : Externals}.

Lemma same_db_deepcopy r : same_db (deepcopy r).
Proof. unfold deepcopy. repeat same_db_step. Qed.

Lemma same_db_set_params l parameter value : same_db (set_params l parameter value).
Proof. unfold set_params. repeat same_db_step. Qed.

Lemma same_db_reset_weights l seed : same_db (reset_weights l seed).
Proof. unfold reset_weights. repeat same_db_step. Qed.

Hint Resolve same_db_deepcopy same_db_set_params same_db_reset_weights : same_db.

Lemma same_db_seed_parameters l parameters random_model split_index seed :
  same_db (seed_parameters l parameters random_model split_index seed).
Proof.
  induction parameters as [|parameter rest IH]; simpl; [apply same_db_ret|].
  apply same_db_bind; [|by intros _]. repeat same_db_step.
Qed.

Hint Resolve same_db_seed_parameters : same_db.

Lemma same_db_set_random_seed l random_model split_index seed :
  same_db (_set_random_seed l random_model split_index seed).
Proof. unfold _set_random_seed. repeat same_db_step. Qed.

Lemma same_db_set_is_fitted l b : same_db (set_is_fitted l b).
Proof. unfold set_is_fitted. repeat same_db_step. Qed.

Lemma same_db_set_signature l signature : same_db (set_signature l signature).
Proof. unfold set_signature. repeat same_db_step. Qed.

Lemma same_db_load_model l split_index dataset_id dataset_name fit_params db_name :
  same_db (load_model l split_index dataset_id dataset_name fit_params db_name).
Proof. unfold load_model. repeat same_db_step. Qed.

Hint Resolve same_db_set_random_seed same_db_set_is_fitted same_db_set_signature
  same_db_load_model : same_db.

Lemma same_db_get_learner model db_name dataset_id dataset_name random_model
    split_index seed fit_params :
  same_db (_get_learner model db_name dataset_id dataset_name random_model split_index
             seed fit_params).
Proof. unfold _get_learner. repeat same_db_step. Qed.

Lemma same_db_fit_steps l o ps seen todo x_train_t y_train :
  same_db (fit_steps l o ps seen todo x_train_t y_train).
Proof.
  revert seen x_train_t.
  induction todo as [|step rest IH]; intros seen x_train_t; simpl; [apply same_db_ret|].
  apply same_db_bind; [apply same_db_lift|]. intros fitted.
  apply same_db_bind; [repeat same_db_step|]. intros step'.
  apply same_db_bind; [repeat same_db_step|]. intros xt. apply IH.
Qed.

Hint Resolve same_db_fit_steps : same_db.

Lemma same_db_fit l x_train y_train fit_params :
  same_db (_fit l x_train y_train fit_params).
Proof.
  unfold _fit, getattr_is_fitted. repeat same_db_step.
Qed.

Lemma stored_same_db w w' db_name fp : w_db w' = w_db w -> stored w' db_name fp = stored w db_name fp.
Proof. intros H. unfold stored. by rewrite H. Qed.

Lemma pipeline_predict_ok ps steps x out :
  pipeline_predict ps steps x = Ok out -> steps_ready steps = true.
Proof.
  revert x. induction steps as [|step rest IH]; intros x; [done|].
  cbn [pipeline_predict steps_ready]. destruct rest as [|step2 rest2].
  - unfold step_predict. destruct (s_predict step); [|done].
    by destruct (s_trained step).
  - unfold step_transform at 1. destruct (s_transform step); [|done].
    destruct (s_trained step); [|done]. intros H. apply IH in H. by rewrite H.
Qed.

(** A learner that has predicted can predict. *)
Lemma predict_ok_ready l x w out w' :
  predict l x w = (Ok out, w') ->
  exists o, w_heap w !! l = Some o /\ ready (o_kind o) = true.
Proof.
  unfold predict, bind, deref. destruct (w_heap w !! l) as [o|]; [|done].
  intros H. exists o. split; [done|].
  destruct (o_kind o) as [n|p|e]; cbn; [done| |].
  - unfold lift in H. destruct (pipeline_predict _ _ _) as [a|] eqn:Ep; [|done].
    by eapply pipeline_predict_ok.
  - destruct (e_predict e); [|done]. by destruct (e_trained e).
Qed.

(** A fold stores artifacts that can predict, and none else. *)
Lemma cv_fold_store_ready c list_of_splits split_index db_name w :
  store_ready w db_name ->
  store_ready (cv_fold c list_of_splits split_index w).2 db_name.
Proof.
  intros Hst.
  assert (Hkeep : forall w', w_db w' = w_db w -> store_ready w' db_name).
  { intros w' Hdb fp artifact Hs. rewrite (stored_same_db _ _ _ _ Hdb) in Hs. by eapply Hst. }
  destruct (cv_fold c list_of_splits split_index w) as [res wend] eqn:HR. cbn [snd].
  unfold cv_fold in HR. unfold bind at 1 in HR.
  pose proof (fold_data_world c list_of_splits split_index w) as Hw.
  destruct (fold_data c list_of_splits split_index w) as [[data|e] w0];
    simpl in Hw; subst w0; [|injection HR as <- <-; by apply Hkeep].
  destruct data as [[[x_train x_val] y_train] y_val].
  unfold bind at 1 in HR.
  match type of HR with
  | context [_get_learner ?a ?b ?c ?d ?e ?f ?g ?h w] =>
      pose proof (same_db_get_learner a b c d e f g h w) as D1;
      destruct (_get_learner a b c d e f g h w) as [[l|e1] w1]
  end; cbn [snd] in D1; [|injection HR as <- <-; by apply Hkeep].
  unfold bind at 1 in HR.
  pose proof (same_db_fit l x_train y_train (cv_fit_params c) w1) as D2.
  destruct (_fit l x_train y_train (cv_fit_params c) w1) as [[l2|e2] w2]; cbn [snd] in D2;
    [|injection HR as <- <-; apply Hkeep; congruence].
  unfold bind at 1 in HR.
  pose proof (predict_world l2 x_train w2) as W3.
  destruct (predict l2 x_train w2) as [[p1|e3] w3] eqn:E3; cbn [snd] in W3; subst w3;
    [|injection HR as <- <-; apply Hkeep; congruence].
  destruct (predict_ok_ready _ _ _ _ _ E3) as (ol & Hl & Hready).
  unfold bind at 1 in HR.
  pose proof (predict_world l2 x_val w2) as W4.
  destruct (predict l2 x_val w2) as [[p2|e4] w4]; cbn [snd] in W4; subst w4;
    [|injection HR as <- <-; apply Hkeep; congruence].
  unfold bind at 1 in HR.
  destruct (bind_score_fun (cv_scoring c)) as [f|];
    [|injection HR as <- <-; apply Hkeep; congruence].
  cbn [ret] in HR. unfold bind at 1 in HR.
  rewrite (save_model_run l2 ol _ _ _ _ _ _ Hl) in HR.
  match type of HR with
  | context [saved_world ol ?db ?fp w2] => set (w5 := saved_world ol db fp w2) in *
  end.
  assert (H5 : store_ready w5 db_name).
  { intros fp artifact Hs. apply stored_after_save in Hs as [-> | Hs]; [done|].
    eapply (Hkeep w2); [congruence | exact Hs]. }
  assert (Hkeep5 : forall w', w_db w' = w_db w5 -> store_ready w' db_name).
  { intros w' Hdb fp artifact Hs. rewrite (stored_same_db _ _ _ _ Hdb) in Hs. by eapply H5. }
  unfold bind at 1 in HR.
  match type of HR with
  | context [set_signature l2 ?sig w5] =>
      pose proof (same_db_set_signature l2 sig w5) as D6;
      destruct (set_signature l2 sig w5) as [[[]|e6] w6]
  end; cbn [snd] in D6; [|injection HR as <- <-; by apply Hkeep5].
  unfold bind at 1 in HR.
  pose proof (same_db_deepcopy l2 w6) as D7.
  destruct (deepcopy l2 w6) as [[r|e7] w7]; cbn [snd] in D7;
    injection HR as <- <-; apply Hkeep5; congruence.
Qed.

(** So does a cross-validation: the hypothesis on the database of the
    statements on folds holds from fold to fold. *)
Lemma cv_loop_store_ready c list_of_splits db_name folds :
  forall score fitted_models w,
  store_ready w db_name ->
  store_ready (cv_loop c list_of_splits folds score fitted_models w).2 db_name.
Proof.
  induction folds as [|split_index rest IH]; intros score fitted_models w Hst; [done|].
  cbn [cv_loop]. unfold bind.
  pose proof (cv_fold_store_ready c list_of_splits split_index db_name w Hst) as H.
  destruct (cv_fold c list_of_splits split_index w) as [[[[score_train score_val] fitted]|e] w1];
    cbn [snd] in H; [|done].
  by apply IH.
Qed.

Lemma cross_validation_store_ready c db_name w :
  store_ready w db_name -> store_ready (cross_validation c w).2 db_name.
Proof.
  intros Hst. unfold cross_validation, bind.
  pose proof (check_input_world c w) as Hw.
  destruct (check_input c w) as [[[]|e] w1]; cbn [snd] in Hw; subst w1; [|done].
  unfold lift. destruct (prepare_splits c) as [list_of_splits|e]; [|done].
  by apply cv_loop_store_ready.
Qed.

End Artifacts.

(** * Further properties of the code *)

(** ** Seeding twice *)

Lemma seeded_kind_twice s1 s2 k : seeded_kind s2 (seeded_kind s1 k) = seeded_kind s2 k.
Proof.
  destruct k as [n|[steps ps]|e]; cbn [seeded_kind].
  - done.
  - cbn [p_steps p_params]. f_equal. f_equal. apply map_eq. intros parameter.
    rewrite !seeded_params_lookup.
    destruct (is_substring "random_state" parameter); [|done].
    by destruct (ps !! parameter).
  - destruct (e_fit e) eqn:Ef, (e_predict e) eqn:Ep; cbn [andb seeded_kind];
      rewrite ?Ef, ?Ep; cbn [andb]; try done.
    destruct (bool_decide (is_Some (e_params e !! "random_state"))) eqn:Er;
      cbn [seeded_kind e_fit e_predict e_params]; rewrite ?Ef, ?Ep, ?Er; cbn [andb]; [|done].
    rewrite bool_decide_eq_true_2 by (rewrite lookup_insert_eq; eauto).
    cbn [e_class e_fit e_predict e_params e_trained]. by rewrite insert_insert_eq.
Qed.

(** X1.  Seeding a learner a second time undoes the first seeding: the
    learner and the world are those of the second call alone.  With equal
    arguments this is idempotence. *)
Theorem set_random_seed_last_wins `{ext : Externals} (w : World) (learner : Ref) (o : Obj)
    (random_model1 random_model2 : bool) (split_index1 seed1 split_index2 seed2 : Z) :
  w_heap w !! learner = Some o ->
  (seeded_once <-- _set_random_seed learner random_model1 split_index1 seed1 ;;
   _set_random_seed seeded_once random_model2 split_index2 seed2) w
  = _set_random_seed learner random_model2 split_index2 seed2 w.
Proof.
  intros H. erewrite bind_ok; [|by apply set_random_seed_run].
  set (s1 := seed_value random_model1 split_index1 seed1).
  set (s2 := seed_value random_model2 split_index2 seed2).
  rewrite (set_random_seed_run learner (seeded o s1)), (set_random_seed_run learner o) by
    (done || (cbn [seeded_world w_heap]; apply list_lookup_insert_eq; by eapply lookup_lt_Some)).
  f_equal. fold s2. unfold seeded_world, seeded. cbn [w_heap w_db w_tf_seed w_log o_kind with_kind].
  rewrite list_insert_insert_eq, seeded_kind_twice. f_equal.
  destruct (o_kind o) as [n|p|e]; cbn [seeded_kind]; try done.
  by destruct (e_fit e && e_predict e && bool_decide (is_Some (e_params e !! "random_state"))).
Qed.

Lemma set_random_seed_last_wins_witness :
  w_heap toy_world !! 0%nat = Some ridge /\
  (seeded_once <-- _set_random_seed 0%nat true 3 42 ;;
   _set_random_seed seeded_once false 3 42) toy_world
  = _set_random_seed 0%nat false 3 42 toy_world.
Proof.
  split; [reflexivity|].
  apply (set_random_seed_last_wins toy_world 0%nat ridge). reflexivity.
Defined.

(** ** Fitting twice *)

Section FittingTwice.
Context `{ext : Externals}.




Lemma fit_unfitted_run l o x_train y_train fit_params w :
  w_heap w !! l = Some o ->
  o_is_fitted o = Some false ->
  match o_kind o with
  | KKeras _ => True
  | KPipeline _ => False
  | KOther e => e_fit e = true /\ e_predict e = true
  end ->
  _fit l x_train y_train fit_params w
  = (Ok l, {| w_heap := <[l := with_kind o (trained_kind (o_kind o)
                                   (x_train, y_train, fit_params))]> (w_heap w);
              w_db := w_db w; w_tf_seed := w_tf_seed w;
              w_log := EvFit l None :: w_log w |}).
Proof.
  intros Hl Hf Hk. unfold _fit. erewrite bind_ok; [|by apply deref_ok].
  destruct (o_kind o) as [n|p|e] eqn:Ek; [|done|].
  - unfold getattr_is_fitted. rewrite Hf. erewrite bind_ok; [reflexivity|].
    erewrite bind_ok; [|reflexivity]. cbn [negb].
    erewrite bind_ok; [|reflexivity]. unfold log, assign. cbn [w_heap]. rewrite Hl. reflexivity.
  - destruct Hk as [Hfit Hpred].
    assert (Hc : e_fit e && e_predict e = true) by (by rewrite Hfit, Hpred). rewrite Hc.
    unfold getattr_is_fitted. rewrite Hf. erewrite bind_ok; [reflexivity|].
    erewrite bind_ok; [|reflexivity]. cbn [negb].
    erewrite bind_ok; [|reflexivity]. unfold log, assign. cbn [w_heap]. rewrite Hl. reflexivity.
Qed.

(** X3.  [_fit] does not mark the learner it fits: on a network, or on an
    object with [fit] and [predict], whose [is_fitted] is false, the call
    fits and leaves [is_fitted] false, so that a second call fits again. *)
Theorem fit_leaves_is_fitted (w : World) (learner : Ref) (o : Obj)
    (x_train y_train x_train' y_train' : Array) (fit_params fit_params' : gmap string Value) :
  w_heap w !! learner = Some o ->
  o_is_fitted o = Some false ->
  match o_kind o with
  | KKeras _ => True
  | KPipeline _ => False
  | KOther e => e_fit e = true /\ e_predict e = true
  end ->
  exists o' w',
    (fitted_once <-- _fit learner x_train y_train fit_params ;;
     _fit fitted_once x_train' y_train' fit_params') w = (Ok learner, w') /\
    w_log w' = EvFit learner None :: EvFit learner None :: w_log w /\
    w_heap w' !! learner = Some o' /\ o_is_fitted o' = Some false.
Proof.
  intros Hl Hf Hk.
  pose proof (fit_unfitted_run learner o x_train y_train fit_params w Hl Hf Hk) as E1.
  set (o1 := with_kind o (trained_kind (o_kind o) (x_train, y_train, fit_params))) in *.
  match type of E1 with _ = (_, ?wx) => set (w1 := wx) in * end.
  assert (Hl1 : w_heap w1 !! learner = Some o1).
  { unfold w1. cbn [w_heap]. apply list_lookup_insert_eq. by eapply lookup_lt_Some. }
  assert (Hk1 : match o_kind o1 with
                | KKeras _ => True
                | KPipeline _ => False
                | KOther e => e_fit e = true /\ e_predict e = true
                end).
  { unfold o1. cbn [o_kind with_kind]. by destruct (o_kind o). }
  pose proof (fit_unfitted_run learner o1 x_train' y_train' fit_params' w1 Hl1 Hf Hk1) as E2.
  rewrite (bind_ok _ _ _ _ _ E1), E2.
  exists (with_kind o1 (trained_kind (o_kind o1) (x_train', y_train', fit_params'))).
  eexists. split; [reflexivity|]. cbn [w_log w_heap w1]. split; [done|].
  split; [|exact Hf]. apply list_lookup_insert_eq. rewrite length_insert.
  by eapply lookup_lt_Some.
Qed.

(** X4.  [_get_learner] returns a new object and leaves the caller's model
    and the database as they were.  When the database holds an artifact under
    the key of the seeded model, the learner is that artifact, marked fitted;
    otherwise it is the seeded copy of the model, marked not fitted. *)
Theorem get_learner_result (w : World) (model : Ref) (o : Obj) (db_name : string)
    (dataset_id : Z) (dataset_name : string) (random_model : bool)
    (split_index seed : Z) (fit_params : gmap string Value) :
  w_heap w !! model = Some o ->
  exists learner w' o',
    _get_learner model db_name dataset_id dataset_name random_model split_index seed
      fit_params w = (Ok learner, w') /\
    w_heap w !! learner = None /\
    w_heap w' !! learner = Some o' /\
    w_heap w' !! model = Some o /\
    w_db w' = w_db w /\
    o' = match stored w db_name
                 (fingerprint (seeded o (if random_model then split_index else seed))
                    split_index dataset_id dataset_name fit_params) with
         | Some artifact => with_is_fitted artifact true
         | None => with_is_fitted (seeded o (if random_model then split_index else seed)) false
         end.
Proof.
  intros Hm. eexists _, _, _. split; [by apply (get_learner_run model o)|].
  unfold fetched_world, lookup_key, seed_value. cbn [w_heap w_db].
  split; [apply lookup_ge_None; lia|].
  split.
  { match goal with
    | |- (?h ++ [?a; ?b]) !! _ = _ =>
        change (h ++ [a; b]) with (h ++ [a] ++ [b]); rewrite app_assoc;
        replace (S (length h)) with (length (h ++ [a])) by (rewrite length_app; simpl; lia);
        apply lookup_last
    end. }
  split; [by apply lookup_app_l_Some|]. done.
Qed.

End FittingTwice.


Lemma fit_leaves_is_fitted_witness :
  w_heap unfitted_world !! 0%nat = Some (with_is_fitted knn false) /\
  o_is_fitted (with_is_fitted knn false) = Some false /\
  exists o' w',
    (fitted_once <-- _fit 0%nat [0; 1; 2] [0; 1; 0] ∅ ;;
     _fit fitted_once [3; 4] [1; 0] ∅) unfitted_world = (Ok 0%nat, w') /\
    w_log w' = EvFit 0%nat None :: EvFit 0%nat None :: w_log unfitted_world /\
    w_heap w' !! 0%nat = Some o' /\ o_is_fitted o' = Some false.
Proof.
  split; [reflexivity|]. split; [reflexivity|].
  apply (fit_leaves_is_fitted unfitted_world 0%nat (with_is_fitted knn false)
           [0; 1; 2] [0; 1; 0] [3; 4] [1; 0] ∅ ∅ eq_refl eq_refl).
  simpl. split; reflexivity.
Defined.

Lemma get_learner_result_witness :
  w_heap toy_world !! 1%nat = Some knn /\
  exists learner w' o',
    _get_learner 1%nat "templates" 1 "make-class" true 0 42 ∅ toy_world = (Ok learner, w') /\
    w_heap toy_world !! learner = None /\
    w_heap w' !! learner = Some o' /\
    w_heap w' !! 1%nat = Some knn /\
    w_db w' = w_db toy_world /\
    o' = match stored toy_world "templates"
                 (fingerprint (seeded knn 0) 0 1 "make-class" ∅) with
         | Some artifact => with_is_fitted artifact true
         | None => with_is_fitted (seeded knn 0) false
         end.
Proof.
  split; [reflexivity|].
  exact (get_learner_result toy_world 1%nat knn "templates" 1 "make-class" true 0 42 ∅
           eq_refl).
Defined.

(** ** No folds, and fewer scores than models *)

Section NoFolds.
Context `{ext : Externals}.

Lemma cross_validation_empty_range c w :
  (check_input c w).1 = Ok tt ->
  succeeds (prepare_splits c) ->
  cv_n_splits c <= 0 ->
  cross_validation c w
  = (Ok ({| score_train_blind := []; score_test_blind := [];
            score_train_cv := []; score_val_cv := [] |}, []), w).
Proof.
  intros Hc [list_of_splits Hp] Hn. unfold cross_validation.
  erewrite bind_ok; last first.
  { rewrite (surjective_pairing (check_input c w)), Hc, check_input_world. done. }
  rewrite Hp. erewrite bind_ok; [|reflexivity].
  replace (Z.to_nat (cv_n_splits c)) with 0%nat by lia. done.
Qed.

(** X5.  With [n_splits] at most 0 the loop over the folds does not run:
    when the arguments pass the checks and the partition is made,
    [cross_validation] returns empty collections of scores and no fitted
    model, and leaves the world as it found it. *)
Theorem cross_validation_no_folds (c : CvConfig) (w : World) :
  (check_input c w).1 = Ok tt ->
  succeeds (prepare_splits c) ->
  cv_n_splits c <= 0 ->
  cross_validation c w
  = (Ok ({| score_train_blind := []; score_test_blind := [];
            score_train_cv := []; score_val_cv := [] |}, []), w).
Proof. apply cross_validation_empty_range. Qed.

Lemma check_input_pass c w :
  is_ndarray (cv_x c) = true -> is_ndarray (cv_y c) = true ->
  cv_random_data c = false ->
  is_not_None (cv_x_val c) = true -> is_not_None (cv_y_val c) = true ->
  (cv_random_model c = true ->
   is_ndarray (cv_x_val c) = true /\ is_ndarray (cv_y_val c) = true) ->
  (check_input c w).1 = Ok tt.
Proof.
  intros Hx Hy Hd Hxv Hyv Hm. unfold check_input, bind, py_assert, ret, raise.
  rewrite Hx, Hy, Hd, Hxv, Hyv. cbn.
  destruct (cv_random_model c); cbn; [|done].
  destruct (Hm eq_refl) as [-> ->]. done.
Qed.

(** X6.  [compare_models] needs a fold: with [n_splits] at most 0 and a
    fixed split that passes the checks of [cross_validation], the first model
    has no fitted model to take its signature from, and the call raises
    [IndexError]; nothing was fitted, and the world is as it was but for the
    database dropped when no data set identifier was given. *)
Theorem compare_models_no_folds (model : Ref) (models : list Ref)
    (fit_params : gmap string Value) (params : list (gmap string Value))
    (a : CompareArgs) (w : World) :
  is_ndarray (ca_x_train a) = true -> is_ndarray (ca_y_train a) = true ->
  ca_random_data a = false ->
  is_not_None (ca_x_val a) = true -> is_not_None (ca_y_val a) = true ->
  (ca_random_model a = true ->
   is_ndarray (ca_x_val a) = true /\ is_ndarray (ca_y_val a) = true) ->
  ca_n_splits a <= 0 ->
  compare_models (model :: models) (fit_params :: params) a w
  = (Raise IndexError,
     if not_dataset_id (ca_dataset_id a) then (drop_db "new-db" w).2 else w).
Proof.
  intros Hx Hy Hd Hxv Hyv Hm Hn. unfold compare_models.
  assert (H : forall db_name dataset_id dataset_name w0,
            compare_with (model :: models) (fit_params :: params) a db_name dataset_id
              dataset_name w0 = (Raise IndexError, w0)).
  { intros db_name dataset_id dataset_name w0. unfold compare_with.
    apply bind_raise. cbn [zip zip_with compare_loop].
    erewrite bind_ok; last first.
    { apply cross_validation_empty_range; [|unfold prepare_splits; cbn; rewrite Hd; by eexists|done].
      by apply check_input_pass. }
    cbn [last]. by apply bind_raise. }
  destruct (not_dataset_id (ca_dataset_id a)).
  - erewrite bind_ok; [|reflexivity]. apply H.
  - erewrite bind_ok; [|reflexivity]. apply H.
Qed.

(** X7.  [_compute_result_summary] returns a whole table or none: when the
    models before some model have all their inputs and that model has no
    entry in the validation scores (as when [params] was shorter than
    [models]), the call raises [IndexError] and leaves the world as it was. *)
Theorem summary_needs_scores_for_each_model (before after : list Ref) (model : Ref)
    (a : SummaryArgs) (w : World) :
  (forall i m, before !! i = Some m -> summary_input a w i m) ->
  sa_val_cv a !! length before = None ->
  _compute_result_summary (before ++ model :: after) a w = (Raise IndexError, w).
Proof.
  unfold _compute_result_summary. generalize (@nil Row) as results.
  change (length before) with (0 + length before)%nat.
  assert (G : forall index results,
            (forall i m, before !! i = Some m -> summary_input a w (index + i) m) ->
            sa_val_cv a !! (index + length before)%nat = None ->
            summary_rows a (before ++ model :: after) index results w = (Raise IndexError, w));
    [|by intros results Hin Hv; apply G].
  induction before as [|m rest IH]; intros index results Hin Hv.
  - cbn [app summary_rows]. rewrite Nat.add_0_r in Hv. unfold list_index. rewrite Hv.
    by apply bind_raise.
  - destruct (Hin 0%nat m eq_refl)
      as ((o & signature & Ho & Hsig) & [train Ht] & [pvalue Hp] & val & Hval & [ci Hci]).
    rewrite Nat.add_0_r in Ht, Hp, Hval.
    cbn [app summary_rows]. unfold list_index. rewrite Hval.
    erewrite bind_ok; [|reflexivity]. unfold lift at 1. rewrite Hci.
    erewrite bind_ok; [|reflexivity].
    erewrite bind_ok; [|by apply deref_ok].
    unfold getattr_signature. rewrite Hsig. erewrite bind_ok; [|reflexivity].
    rewrite Ht. erewrite bind_ok; [|reflexivity].
    rewrite Hp. erewrite bind_ok; [|reflexivity].
    apply IH.
    + intros i m' Hi. rewrite Nat.add_succ_l, <- Nat.add_succ_r. by apply (Hin (S i)).
    + cbn [length] in Hv. by rewrite Nat.add_succ_l, <- Nat.add_succ_r.
Qed.

End NoFolds.

Lemma cross_validation_no_folds_witness :
  (check_input (with_n_splits (with_validation toy_cv false false (DArray [6; 7]) (DArray [0; 1])) 0)
     toy_world).1 = Ok tt /\
  succeeds (prepare_splits
    (with_n_splits (with_validation toy_cv false false (DArray [6; 7]) (DArray [0; 1])) 0)) /\
  cv_n_splits (with_n_splits (with_validation toy_cv false false (DArray [6; 7]) (DArray [0; 1])) 0)
  <= 0 /\
  cross_validation
    (with_n_splits (with_validation toy_cv false false (DArray [6; 7]) (DArray [0; 1])) 0)
    toy_world
  = (Ok ({| score_train_blind := []; score_test_blind := [];
            score_train_cv := []; score_val_cv := [] |}, []), toy_world).
Proof.
  assert (H1 : (check_input (with_n_splits (with_validation toy_cv false false
                  (DArray [6; 7]) (DArray [0; 1])) 0) toy_world).1 = Ok tt) by reflexivity.
  assert (H2 : succeeds (prepare_splits (with_n_splits (with_validation toy_cv false false
                  (DArray [6; 7]) (DArray [0; 1])) 0))) by (eexists; reflexivity).
  assert (H3 : cv_n_splits (with_n_splits (with_validation toy_cv false false
                  (DArray [6; 7]) (DArray [0; 1])) 0) <= 0) by (simpl; lia).
  split; [exact H1|]. split; [exact H2|]. split; [exact H3|].
  exact (cross_validation_no_folds _ toy_world H1 H2 H3).
Defined.

Lemma compare_models_no_folds_witness :
  is_ndarray (ca_x_train fixed_split_args) = true /\
  is_ndarray (ca_y_train fixed_split_args) = true /\
  ca_random_data fixed_split_args = false /\
  is_not_None (ca_x_val fixed_split_args) = true /\
  is_not_None (ca_y_val fixed_split_args) = true /\
  (ca_random_model fixed_split_args = true ->
   is_ndarray (ca_x_val fixed_split_args) = true /\
   is_ndarray (ca_y_val fixed_split_args) = true) /\
  ca_n_splits fixed_split_args <= 0 /\
  compare_models [0%nat; 1%nat] [∅; ∅] fixed_split_args toy_world
  = (Raise IndexError,
     if not_dataset_id (ca_dataset_id fixed_split_args)
     then (drop_db "new-db" toy_world).2 else toy_world).
Proof.
  assert (H6 : ca_random_model fixed_split_args = true ->
               is_ndarray (ca_x_val fixed_split_args) = true /\
               is_ndarray (ca_y_val fixed_split_args) = true) by (intros _; split; reflexivity).
  assert (H7 : ca_n_splits fixed_split_args <= 0) by (simpl; lia).
  do 5 (split; [reflexivity|]). split; [exact H6|]. split; [exact H7|].
  exact (compare_models_no_folds 0%nat [1%nat] ∅ [∅] fixed_split_args toy_world
           eq_refl eq_refl eq_refl eq_refl eq_refl H6 H7).
Defined.

Lemma summary_needs_scores_for_each_model_witness :
  (forall i m, [0%nat] !! i = Some m -> summary_input short_summary toy_compared_world i m) /\
  sa_val_cv short_summary !! length [0%nat] = None /\
  _compute_result_summary ([0%nat] ++ 1%nat :: []) short_summary toy_compared_world
  = (Raise IndexError, toy_compared_world).
Proof.
  assert (H : forall i m, [0%nat] !! i = Some m ->
                summary_input short_summary toy_compared_world i m).
  { intros [|i] m Hi; try discriminate; injection Hi as <-.
    split; [eexists _, _; split; vm_compute; reflexivity|].
    split; [eexists; reflexivity|]. split; [eexists; reflexivity|].
    eexists. split; [reflexivity|]. eexists. vm_compute. reflexivity. }
  split; [exact H|]. split; [reflexivity|].
  exact (summary_needs_scores_for_each_model [0%nat] [] 1%nat short_summary
           toy_compared_world H eq_refl).
Defined.

(** ** The trace of a run *)

Section Trace.
Context `{ext : Externals}.
Context (db_name : string) (dataset_id : Z) (dataset_name : string).

#[local] Hint Resolve logs_deepcopy logs_set_signature logs_predict logs_set_random_seed
  logs_set_is_fitted logs_fold_data logs_getattr_is_fitted : logs.

Lemma logs_load_model_on l split_index fit_params :
  logs (on_dataset db_name dataset_id dataset_name)
    (load_model l split_index dataset_id dataset_name fit_params db_name).
Proof.
  unfold load_model. apply logs_bind; [apply logs_deref|]. intros o.
  apply logs_bind; [apply logs_get_world|]. intros w0.
  destruct (store_find _ _).
  - apply logs_bind; [by apply logs_log|]. intros _. repeat logs_step.
  - apply logs_bind; [by apply logs_log|]. intros _. apply logs_ret.
Qed.

Lemma logs_save_model_on l split_index fit_params :
  logs (on_dataset db_name dataset_id dataset_name)
    (save_model l split_index dataset_id dataset_name fit_params db_name).
Proof.
  unfold save_model. apply logs_bind; [apply logs_deref|]. intros o.
  apply logs_bind; [apply logs_get_world|]. intros w0.
  apply logs_bind; [by apply logs_log|]. intros _. repeat logs_step.
Qed.

Lemma logs_fit_on l x_train y_train fit_params :
  logs (on_dataset db_name dataset_id dataset_name) (_fit l x_train y_train fit_params).
Proof. eapply logs_mono; [|apply logs_fit]. by intros []. Qed.

#[local] Hint Resolve logs_load_model_on logs_save_model_on logs_fit_on : logs.

Lemma logs_get_learner_on model random_model split_index seed fit_params :
  logs (on_dataset db_name dataset_id dataset_name)
    (_get_learner model db_name dataset_id dataset_name random_model split_index seed
       fit_params).
Proof. unfold _get_learner. repeat logs_step. Qed.

#[local] Hint Resolve logs_get_learner_on : logs.

Lemma logs_cv_fold_on c list_of_splits split_index :
  cv_db_name c = db_name -> cv_dataset_id c = dataset_id ->
  cv_dataset_name c = dataset_name ->
  logs (on_dataset db_name dataset_id dataset_name) (cv_fold c list_of_splits split_index).
Proof.
  intros Hdb Hid Hname. unfold cv_fold. rewrite Hdb, Hid, Hname.
  apply logs_bind; [apply logs_fold_data|]. intros [[[x_train x_val] y_train] y_val].
  repeat logs_step.
Qed.

Lemma logs_cv_loop_on c list_of_splits folds :
  cv_db_name c = db_name -> cv_dataset_id c = dataset_id ->
  cv_dataset_name c = dataset_name ->
  forall score fitted_models,
  logs (on_dataset db_name dataset_id dataset_name)
    (cv_loop c list_of_splits folds score fitted_models).
Proof.
  intros Hdb Hid Hname.
  induction folds as [|split_index rest IH]; intros score fitted_models; cbn [cv_loop].
  - apply logs_ret.
  - apply logs_bind; [by apply logs_cv_fold_on|].
    intros [[score_train score_val] fitted]. apply IH.
Qed.

Lemma logs_check_input P c : logs P (check_input c).
Proof. unfold check_input. repeat logs_step. Qed.

Lemma logs_cross_validation_on c :
  cv_db_name c = db_name -> cv_dataset_id c = dataset_id ->
  cv_dataset_name c = dataset_name ->
  logs (on_dataset db_name dataset_id dataset_name) (cross_validation c).
Proof.
  intros Hdb Hid Hname. unfold cross_validation.
  apply logs_bind; [apply logs_check_input|]. intros _.
  apply logs_bind; [apply logs_lift|]. intros list_of_splits.
  by apply logs_cv_loop_on.
Qed.

Lemma logs_compare_loop_on a pairs :
  forall train_cv val_cv,
  logs (on_dataset db_name dataset_id dataset_name)
    (compare_loop a db_name dataset_id dataset_name pairs train_cv val_cv).
Proof.
  induction pairs as [|[model fit_params] rest IH]; intros train_cv val_cv; cbn [compare_loop].
  - apply logs_ret.
  - apply logs_bind; [by apply logs_cross_validation_on|].
    intros [score fitted_models].
    apply logs_bind; [repeat logs_step|]. intros final.
    apply logs_bind; [apply logs_deref|]. intros final_o.
    apply logs_bind; [unfold getattr_signature; repeat logs_step|]. intros signature.
    apply logs_bind; [apply logs_set_signature|]. intros _. apply IH.
Qed.

Lemma logs_summary_rows P a models :
  forall index results, logs P (summary_rows a models index results).
Proof.
  induction models as [|model rest IH]; intros index results; cbn [summary_rows].
  - apply logs_ret.
  - unfold list_index, getattr_signature.
    repeat (apply logs_bind; [repeat logs_step|]; intros ?). apply IH.
Qed.

(** The events of [compare_with]: those of the cross-validations, and
    after them, when it returns, the file of the results. *)
Lemma compare_with_trace models params a w res w' :
  compare_with models params a db_name dataset_id dataset_name w = (res, w') ->
  exists events,
    Forall (on_dataset db_name dataset_id dataset_name) events /\
    w_log w'
    = match res with
      | Ok _ => [EvCsv (ca_output_dir a) (ca_experiment_name a ++ ".csv")]
      | Raise _ => []
      end ++ events ++ w_log w.
Proof.
  unfold compare_with. unfold bind at 1.
  destruct (logs_compare_loop_on a (zip models params) [] [] w) as (events & E & F).
  destruct (compare_loop _ _ _ _ _ _ _ w) as [[[train_cv val_cv]|e] w1]; cbn [snd] in E;
    [|intros [= <- <-]; by exists events].
  unfold bind at 1. unfold lift at 1.
  destruct (find_best_solution _ _ _ _ _) as [[[best_sol best_solutions] pvalues]|e];
    [|intros [= <- <-]; by exists events].
  unfold bind at 1.
  match goal with
  | |- context [_compute_result_summary models ?sa w1] =>
      destruct (logs_summary_rows (fun _ => False) sa models 0%nat [] w1) as (none & En & Fn);
      fold (_compute_result_summary models sa) in En;
      destruct (_compute_result_summary models sa w1) as [[results|e] w2]; cbn [snd] in En
  end.
  all: destruct none as [|ev none]; [|by apply Forall_cons in Fn as [[] _]].
  all: cbn [app] in En; cbn; intros [= <- <-]; exists events; split; [done|];
    cbn; by rewrite En, E.
Qed.

End Trace.

(** X8.  [cross_validation] works on the database and the data set it is
    given, and on no other: whatever its outcome, every lookup and every save
    it makes names that database and carries that identifier and that name in
    its key; it drops no database and writes no file. *)
Theorem cross_validation_touches_its_dataset `{ext : Externals} (c : CvConfig)
    (w : World) :
  exists events,
    w_log (cross_validation c w).2 = events ++ w_log w /\
    Forall (on_dataset (cv_db_name c) (cv_dataset_id c) (cv_dataset_name c)) events.
Proof. by apply logs_cross_validation_on. Qed.

(** X9.  The trace of [compare_models], whatever its outcome: first the
    drop of ["new-db"] when no data set identifier was given, then fits,
    lookups and saves on one database and one data set only (["new-db"] and 1
    in that case, those of the caller otherwise), and last, when and only when
    the call returns a table, the file of the results. *)
Theorem compare_models_trace `{ext : Externals} (models : list Ref)
    (params : list (gmap string Value)) (a : CompareArgs) (w : World) :
  exists events,
    Forall (on_dataset (effective_db_name a) (effective_dataset_id a)
              (effective_dataset_name a)) events /\
    w_log (compare_models models params a w).2
    = match (compare_models models params a w).1 with
      | Ok _ => [EvCsv (ca_output_dir a) (ca_experiment_name a ++ ".csv")]
      | Raise _ => []
      end ++ events ++
      (if not_dataset_id (ca_dataset_id a) then [EvDrop "new-db"] else []) ++ w_log w.
Proof.
  unfold effective_db_name, effective_dataset_id, effective_dataset_name.
  destruct (compare_models models params a w) as [res w'] eqn:HR. cbn [fst snd].
  unfold compare_models in HR.
  destruct (not_dataset_id (ca_dataset_id a)).
  - change (compare_with models params a "new-db" 1
              (if not_dataset_name (ca_dataset_name a) then "dataset"
               else default "" (ca_dataset_name a))
              (drop_db "new-db" w).2 = (res, w')) in HR.
    by apply compare_with_trace in HR.
  - change (compare_with models params a (ca_db_name a) (default 0 (ca_dataset_id a))
              (if not_dataset_name (ca_dataset_name a) then "dataset"
               else default "" (ca_dataset_name a)) w = (res, w')) in HR.
    by apply compare_with_trace in HR.
Qed.


(** ** What the database holds *)

(** X10.  [cross_validation] keeps the database usable: when every artifact
    of a database can predict before the call (as in an empty database), every
    artifact of it can predict after the call, whatever the outcome of the
    call. *)
Theorem cross_validation_stores_predictors `{ext : Externals} (c : CvConfig)
    (db_name : string) (w : World) :
  store_ready w db_name -> store_ready (cross_validation c w).2 db_name.
Proof. apply cross_validation_store_ready. Qed.

Lemma cross_validation_stores_predictors_witness :
  store_ready toy_world "templates" /\ store_ready (cross_validation toy_cv toy_world).2 "templates".
Proof.
  assert (H : store_ready toy_world "templates") by (intros fp artifact; unfold stored; cbn; by rewrite lookup_empty).
  split; [exact H|].
  exact (cross_validation_stores_predictors toy_cv "templates" toy_world H).
Defined.

(** ** Running a cross-validation again *)

Section Rerun.
Context `{ext : Externals}.

(** Whatever its outcome, the loop of [_fit] leaves a pipeline of the same
    structure at the place of the learner, and the database as it was. *)
Lemma fit_steps_structure l o ps y_train todo :
  forall seen x_train_t w r w',
  w_heap w !! l = Some (with_kind o (KPipeline {| p_steps := seen ++ todo; p_params := ps |})) ->
  fit_steps l o ps seen todo x_train_t y_train w = (r, w') ->
  exists steps',
    w_heap w' = <[l := with_kind o (KPipeline {| p_steps := seen ++ steps'; p_params := ps |})]>
                  (w_heap w) /\
    w_db w' = w_db w /\
    structure_of (KPipeline {| p_steps := seen ++ steps'; p_params := ps |})
    = structure_of (KPipeline {| p_steps := seen ++ todo; p_params := ps |}).
Proof.
  induction todo as [|step rest IH]; intros seen x_train_t w r w' Hl.
  - intros [= <- <-]. exists []. split; [by rewrite list_insert_id|]. done.
  - cbn [fit_steps]. rewrite is_fitted_probe. erewrite bind_ok; [|reflexivity].
    destruct (probe step) eqn:Hp.
    + erewrite bind_ok; [|reflexivity].
      assert (Hx : exists xt, (if s_transform step
                               then lift (step_transform ps step x_train_t)
                               else ret x_train_t) w = (Ok xt, w)).
      { destruct (s_transform step) eqn:Ht; [|by eexists].
        rewrite step_transform_trained by (done || by apply probe_trained). by eexists. }
      destruct Hx as [xt Hx]. erewrite bind_ok; [|exact Hx].
      intros HR. apply IH in HR as (steps' & Hheap & Hdb & Hs); [|by rewrite <- app_assoc].
      exists (step :: steps'). rewrite <- app_assoc in Hheap. repeat rewrite <- app_assoc in Hs.
      split; [exact Hheap|]. split; [exact Hdb|exact Hs].
    + destruct (s_fit step) eqn:Hf; last first.
      { erewrite bind_raise; [|reflexivity]. intros [= <- <-].
        exists (step :: rest). split; [by rewrite list_insert_id|]. done. }
      set (step' := step_fitted step (x_train_t, y_train, ∅)).
      set (w1 := {| w_heap := <[l := with_kind o (KPipeline
                       {| p_steps := seen ++ step' :: rest; p_params := ps |})]> (w_heap w);
                    w_db := w_db w; w_tf_seed := w_tf_seed w;
                    w_log := EvFit l (Some (s_name step)) :: w_log w |}).
      erewrite bind_ok; last first.
      { instantiate (1 := w1). instantiate (1 := step').
        unfold bind, log, assign. cbn [w_heap]. by rewrite Hl. }
      assert (Hx : exists xt, (if s_transform step'
                               then lift (step_transform ps step' x_train_t)
                               else ret x_train_t) w1 = (Ok xt, w1)).
      { destruct (s_transform step') eqn:Ht; [|by eexists].
        rewrite step_transform_trained by (done || by eexists). by eexists. }
      destruct Hx as [xt Hx]. erewrite bind_ok; [|exact Hx].
      intros HR. apply IH in HR as (steps' & Hheap & Hdb & Hs); last first.
      { unfold w1. cbn [w_heap]. rewrite <- app_assoc.
        apply list_lookup_insert_eq. by eapply lookup_lt_Some. }
      exists (step' :: steps'). rewrite <- app_assoc in Hheap. repeat rewrite <- app_assoc in Hs.
      split; [|split].
      * rewrite Hheap. unfold w1. cbn [w_heap]. by rewrite list_insert_insert_eq.
      * by rewrite Hdb.
      * etrans; [exact Hs|]. cbn [structure_of p_steps p_params app]. by rewrite !map_app.
Qed.

(** Whatever its outcome, [_fit] leaves a learner of the same structure at
    the place of the learner, and the database as it was. *)
Lemma fit_structure l o x_train y_train fit_params w r w' :
  w_heap w !! l = Some o ->
  _fit l x_train y_train fit_params w = (r, w') ->
  exists o',
    w_heap w' = <[l := o']> (w_heap w) /\ w_db w' = w_db w /\
    structure_of (o_kind o') = structure_of (o_kind o) /\
    (forall l', r = Ok l' -> l' = l).
Proof.
  intros Hl. unfold _fit. erewrite bind_ok; [|by apply deref_ok].
  assert (Hid : w_heap w = <[l := o]> (w_heap w)) by (by rewrite list_insert_id).
  destruct (o_kind o) as [n|p|e] eqn:Ek.
  - unfold getattr_is_fitted, bind, ret, raise, log, assign. cbn [w_heap].
    destruct (o_is_fitted o) as [[|]|]; cbn [negb]; rewrite ?Hl;
      intros [= <- <-]; (try by (exists o; rewrite Ek; repeat split; congruence)).
    eexists. cbn [w_heap w_db]. split; [reflexivity|]. split; [done|].
    split; [done|]. congruence.
  - destruct p as [steps ps]. cbn [p_steps p_params]. unfold bind at 1.
    destruct (fit_steps l o ps [] steps x_train y_train w) as [[[]|e] w1] eqn:HR.
    all: apply fit_steps_structure in HR as (steps' & Hheap & Hdb & Hs);
      [|cbn [app]; by rewrite <- Ek, with_kind_id].
    all: intros [= <- <-]; eexists; split; [exact Hheap|]; split; [done|];
      split; [exact Hs|]; congruence.
  - unfold getattr_is_fitted, bind, ret, raise, log, assign. cbn [w_heap].
    destruct (e_fit e && e_predict e);
      [destruct (o_is_fitted o) as [[|]|]|]; cbn [negb]; rewrite ?Hl;
      intros [= <- <-]; (try by (exists o; rewrite Ek; repeat split; congruence)).
    eexists. cbn [w_heap w_db]. split; [reflexivity|]. split; [done|].
    split; [done|]. congruence.
Qed.






(** [save_model] removes nothing from the database. *)
Lemma stored_saved_mono o db_name fp w db_name' fp' artifact :
  stored w db_name' fp' = Some artifact ->
  stored (saved_world o db_name fp w) db_name' fp' = Some artifact.
Proof.
  unfold saved_world. destruct (stored w db_name fp) as [old|] eqn:Es; [done|].
  unfold stored in *. cbn [w_db].
  destruct (decide (db_name' = db_name)) as [->|Hne].
  - rewrite lookup_insert_eq. cbn [default store_find id].
    destruct (decide (fp' = fp)) as [->|]; [congruence|done].
  - by rewrite lookup_insert_ne.
Qed.

Lemma stored_saved_new o db_name fp w :
  stored w db_name fp = None -> stored (saved_world o db_name fp w) db_name fp = Some o.
Proof.
  intros Es. unfold saved_world. rewrite Es. unfold stored. cbn [w_db].
  rewrite lookup_insert_eq. cbn [default store_find id]. by rewrite decide_True.
Qed.










(** A fold leaves the objects it finds as they are. *)
Lemma cv_fold_keeps c list_of_splits split_index w r o :
  w_heap w !! r = Some o ->
  w_heap (cv_fold c list_of_splits split_index w).2 !! r = Some o.
Proof.
  intros H.
  destruct (safe_cv_fold [] (w_heap w) c list_of_splits split_index w (keeps_refl [] w))
    as [K _].
  by eapply keeps_nil.
Qed.




End Rerun.



(** ** The table of a comparison *)

Section Table.
Context `{ext : Externals}.

Lemma compare_loop_length a db_name dataset_id dataset_name pairs :
  forall train_cv val_cv w train_cv' val_cv' w',
  compare_loop a db_name dataset_id dataset_name pairs train_cv val_cv w
  = (Ok (train_cv', val_cv'), w') ->
  length val_cv' = (length val_cv + length pairs)%nat.
Proof.
  induction pairs as [|[model fit_params] rest IH];
    intros train_cv val_cv w train_cv' val_cv' w' HR.
  - injection HR as <- <- <-. cbn. lia.
  - cbn [compare_loop] in HR.
    apply bind_inv_ok in HR as ([score fitted_models] & w1 & _ & HR).
    apply bind_inv_ok in HR as (final & w2 & _ & HR).
    apply bind_inv_ok in HR as (final_o & w3 & _ & HR).
    apply bind_inv_ok in HR as (signature & w4 & _ & HR).
    apply bind_inv_ok in HR as ([] & w5 & _ & HR).
    apply IH in HR. rewrite length_app in HR. cbn in *. lia.
Qed.

Lemma list_index_ok {A} (l : list A) i a w w' :
  list_index l i w = (Ok a, w') -> (i < length l)%nat.
Proof.
  unfold list_index. destruct (l !! i) eqn:E; [|done]. intros _. by eapply lookup_lt_Some.
Qed.

Lemma summary_rows_length a models :
  forall index results w rows w',
  summary_rows a models index results w = (Ok rows, w') ->
  (models = [] \/ index + length models <= length (sa_val_cv a))%nat /\
  length rows = (length results + length models)%nat.
Proof.
  induction models as [|model rest IH]; intros index results w rows w' HR.
  - injection HR as <- <-. split; [by left|]. cbn. lia.
  - cbn [summary_rows] in HR.
    apply bind_inv_ok in HR as (val & w1 & Hval & HR). apply list_index_ok in Hval.
    apply bind_inv_ok in HR as (ci_bounds & w2 & _ & HR).
    apply bind_inv_ok in HR as (o & w3 & _ & HR).
    apply bind_inv_ok in HR as (signature & w4 & _ & HR).
    apply bind_inv_ok in HR as (train & w5 & _ & HR).
    apply bind_inv_ok in HR as (pvalue & w6 & _ & HR).
    apply IH in HR as [H1 H2]. rewrite length_app in H2. split; [right|cbn in *; lia].
    destruct H1 as [-> | H1]; cbn in *; lia.
Qed.

(** X12.  The table of [compare_models] has one row for each model, and
    there is no table unless every model has its fit parameters: when the
    call returns, [params] is at least as long as [models] (the loop over
    [zip(models, params)] stops at the shorter list, and the summary then
    looks for scores that were never computed). *)
Theorem compare_models_table (models : list Ref) (params : list (gmap string Value))
    (a : CompareArgs) (w : World) (results : list Row) :
  (compare_models models params a w).1 = Ok results ->
  length results = length models /\ (length models <= length params)%nat.
Proof.
  destruct (compare_models models params a w) as [res w'] eqn:HR. cbn [fst].
  intros ->. unfold compare_models in HR.
  apply bind_inv_ok in HR as ([dataset_id db_name] & w1 & _ & HR).
  unfold compare_with in HR.
  apply bind_inv_ok in HR as ([train_cv val_cv] & w2 & Hloop & HR).
  apply compare_loop_length in Hloop.
  apply bind_inv_ok in HR as ([[best_sol best_solutions] pvalues] & w3 & _ & HR).
  apply bind_inv_ok in HR as (rows & w4 & Hrows & HR).
  apply summary_rows_length in Hrows as [H1 H2]. cbn [sa_val_cv] in H1.
  apply bind_inv_ok in HR as ([] & w5 & _ & HR). injection HR as <- _.
  rewrite length_zip in Hloop. split; [cbn in *; lia|].
  destruct H1 as [-> | H1]; cbn in *; lia.
Qed.

End Table.

Lemma compare_models_table_witness :
  exists results,
    (compare_models [0%nat; 1%nat] [∅; ∅] toy_args toy_world).1 = Ok results /\
    length results = 2%nat /\ (2 <= 2)%nat.
Proof.
  destruct (compare_models [0%nat; 1%nat] [∅; ∅] toy_args toy_world).1 as [results|e] eqn:H;
    [|by vm_compute in H].
  exists results. split; [reflexivity|].
  exact (compare_models_table [0%nat; 1%nat] [∅; ∅] toy_args toy_world results H).
Defined.

(** ** Running a comparison again *)

Section CompareAgain.
Context `{ext : Externals}.

Lemma last_Forall2 {A B} (R : A -> B -> Prop) l l' a :
  Forall2 R l l' -> last l = Some a -> exists b, last l' = Some b /\ R a b.
Proof.
  intros H. revert a. induction H as [|x y l l' Hxy H IH]; intros a; [done|].
  destruct H as [|x2 y2 l2 l2' H2 Hrest].
  - cbn. intros [= <-]. by exists y.
  - intros Ha. apply (IH a Ha).
Qed.

Lemma list_index_run {A} (l : list A) i a w w' :
  list_index l i w = (Ok a, w') -> w' = w /\ forall wr, list_index l i wr = (Ok a, wr).
Proof.
  unfold list_index. destruct (l !! i); [|done]. by intros [= <- <-].
Qed.

Lemma lift_run {A} (r : Res A) a w w' :
  lift r w = (Ok a, w') -> w' = w /\ forall wr, lift r wr = (Ok a, wr).
Proof. unfold lift. by intros [= -> <-]. Qed.

Lemma getattr_signature_run o signature w w' :
  getattr_signature o w = (Ok signature, w') ->
  w' = w /\ o_signature o = Some signature.
Proof.
  unfold getattr_signature. destruct (o_signature o); [|done]. by intros [= <- <-].
Qed.

Lemma deref_run r o w w' :
  deref r w = (Ok o, w') -> w' = w /\ w_heap w !! r = Some o.
Proof. unfold deref. destruct (w_heap w !! r); [|done]. by intros [= <- <-]. Qed.






End CompareAgain.


(** ** The database only grows *)

Section Grows.
Context `{ext : Externals}.

Lemma grows_same_db {A} (m : M A) : same_db m -> grows m.
Proof. intros H w db_name fp artifact Hs. by rewrite (stored_same_db w). Qed.

Lemma grows_bind {A B} (m : M A) (f : A -> M B) :
  grows m -> (forall a, grows (f a)) -> grows (bind m f).
Proof.
  intros Hm Hf w db_name fp artifact Hs. unfold bind.
  specialize (Hm w db_name fp artifact Hs).
  destruct (m w) as [[a|e] w1]; cbn [snd] in *; [|done]. by apply Hf.
Qed.

Lemma grows_save_model l split_index dataset_id dataset_name fit_params db_name :
  grows (save_model l split_index dataset_id dataset_name fit_params db_name).
Proof.
  intros w db_name' fp artifact Hs.
  destruct (w_heap w !! l) as [o|] eqn:Hl.
  - rewrite (save_model_run l o) by done. cbn [snd]. by apply stored_saved_mono.
  - unfold save_model, bind, deref. by rewrite Hl.
Qed.

Lemma same_db_predict l x : same_db (predict l x).
Proof. intros w. by rewrite predict_world. Qed.

Lemma same_db_fold_data c list_of_splits split_index :
  same_db (fold_data c list_of_splits split_index).
Proof. intros w. by rewrite fold_data_world. Qed.

Lemma grows_cv_fold c list_of_splits split_index :
  grows (cv_fold c list_of_splits split_index).
Proof.
  unfold cv_fold.
  apply grows_bind; [apply grows_same_db, same_db_fold_data|].
  intros [[[x_train x_val] y_train] y_val].
  apply grows_bind; [apply grows_same_db, same_db_get_learner|]. intros learner.
  apply grows_bind; [apply grows_same_db, same_db_fit|]. intros learner'.
  apply grows_bind; [apply grows_same_db, same_db_predict|]. intros y_train_pred.
  apply grows_bind; [apply grows_same_db, same_db_predict|]. intros y_val_pred.
  apply grows_bind; [apply grows_same_db; by destruct (bind_score_fun _)|]. intros score_fun.
  apply grows_bind; [apply grows_save_model|]. intros signature.
  apply grows_bind; [apply grows_same_db, same_db_set_signature|]. intros _.
  apply grows_bind; [apply grows_same_db, same_db_deepcopy|]. intros fitted.
  by apply grows_same_db.
Qed.

Lemma grows_cv_loop c list_of_splits folds :
  forall score fitted_models, grows (cv_loop c list_of_splits folds score fitted_models).
Proof.
  induction folds as [|split_index rest IH]; intros score fitted_models; cbn [cv_loop].
  - by apply grows_same_db.
  - apply grows_bind; [apply grows_cv_fold|]. intros [[score_train score_val] fitted].
    apply IH.
Qed.

Lemma grows_cross_validation c : grows (cross_validation c).
Proof.
  unfold cross_validation.
  apply grows_bind; [apply grows_same_db; intros w; by rewrite check_input_world|].
  intros _. apply grows_bind; [by apply grows_same_db|]. intros list_of_splits.
  apply grows_cv_loop.
Qed.

End Grows.



(** ** The signatures of the fitted models *)

Section Signatures.
Context `{ext : Externals}.

(** The copy that a fold returns is a new object that can predict, signed
    with its own key, and the database holds that key. *)
Lemma cv_fold_signs c list_of_splits split_index w score_train score_val fitted w' :
  cv_fold c list_of_splits split_index w = (Ok (score_train, score_val, fitted), w') ->
  (length (w_heap w) <= fitted)%nat /\ signed_for w' c split_index fitted.
Proof.
  intros HR. split.
  { destruct (safe_cv_fold [] (w_heap w) c list_of_splits split_index w (keeps_refl [] w))
      as [_ HP].
    rewrite HR in HP. by apply (HP _ eq_refl). }
  unfold cv_fold in HR.
  apply bind_inv_ok in HR as ([[[x_train x_val] y_train] y_val] & w0 & _ & HR).
  apply bind_inv_ok in HR as (l & w1 & _ & HR).
  apply bind_inv_ok in HR as (l2 & w2 & EF & HR).
  destruct (w_heap w1 !! l) as [lo|] eqn:Hl; last first.
  { unfold _fit, bind, deref in EF. by rewrite Hl in EF. }
  destruct (fit_structure _ _ _ _ _ _ _ _ Hl EF) as (o' & Hheap & _ & _ & El).
  specialize (El l2 eq_refl). subst l2.
  assert (Hl2 : w_heap w2 !! l = Some o').
  { rewrite Hheap. apply list_lookup_insert_eq. by eapply lookup_lt_Some. }
  apply bind_inv_ok in HR as (p1 & w3 & E1 & HR).
  pose proof (predict_world l x_train w2) as W1. rewrite E1 in W1. simpl in W1. subst w3.
  apply bind_inv_ok in HR as (p2 & w4 & E2 & HR).
  pose proof (predict_world l x_val w2) as W2. rewrite E2 in W2. simpl in W2. subst w4.
  apply bind_inv_ok in HR as (f & w5 & E3 & HR).
  pose proof (score_fun_world _ _ _ _ E3) as W3. subst w5.
  apply bind_inv_ok in HR as (sig & w6 & E4 & HR).
  rewrite (save_model_run l _ _ _ _ _ _ _ Hl2) in E4. injection E4 as <- <-.
  apply bind_inv_ok in HR as ([] & w7 & E5 & HR).
  erewrite set_signature_run in E5; [|exact Hl2]. injection E5 as <-.
  apply bind_inv_ok in HR as (r & w8 & E6 & HR).
  erewrite deepcopy_run in E6; last first.
  { cbn [set_heap saved_world w_heap]. apply list_lookup_insert_eq.
    by eapply lookup_lt_Some. }
  injection E6 as <- <-. injection HR as _ _ <- <-.
  set (fp' := fingerprint o' (Z.of_nat split_index) (cv_dataset_id c) (cv_dataset_name c)
                (cv_fit_params c)) in *.
  set (ws := saved_world o' (cv_db_name c) fp' w2) in *.
  exists (with_signature o' (Sig (cv_db_name c) fp')).
  split; [apply lookup_last|].
  split.
  { destruct (predict_ok_ready _ _ _ _ _ E1) as (ol & Hol & Hr).
    cbn [with_signature o_kind]. congruence. }
  split; [done|].
  change (fingerprint (with_signature o' (Sig (cv_db_name c) fp')) (Z.of_nat split_index)
            (cv_dataset_id c) (cv_dataset_name c) (cv_fit_params c)) with fp'.
  match goal with
  | |- is_Some (stored ?wend _ _) => rewrite (stored_same_db ws wend) by done
  end.
  destruct (stored w2 (cv_db_name c) fp') as [old|] eqn:Eo.
  - exists old. by apply stored_saved_mono.
  - exists o'. by apply stored_saved_new.
Qed.

Lemma cv_loop_keeps c list_of_splits folds r o :
  forall score fitted_models w,
  w_heap w !! r = Some o ->
  w_heap (cv_loop c list_of_splits folds score fitted_models w).2 !! r = Some o.
Proof.
  induction folds as [|split_index rest IH]; intros score fitted_models w H; [done|].
  cbn [cv_loop]. unfold bind.
  pose proof (cv_fold_keeps c list_of_splits split_index w r o H) as H1.
  destruct (cv_fold c list_of_splits split_index w) as [[[[score_train score_val] fitted]|e] w1];
    cbn [snd] in H1; [|done].
  by apply IH.
Qed.

Lemma cv_fold_length c list_of_splits split_index w :
  (length (w_heap w) <= length (w_heap (cv_fold c list_of_splits split_index w).2))%nat.
Proof.
  destruct (safe_cv_fold [] (w_heap w) c list_of_splits split_index w (keeps_refl [] w))
    as [K _].
  by apply keeps_length in K.
Qed.

Lemma cv_loop_signs c list_of_splits folds :
  forall score0 fitted0 w score fitted_models w',
  cv_loop c list_of_splits folds score0 fitted0 w = (Ok (score, fitted_models), w') ->
  exists copies,
    fitted_models = fitted0 ++ copies /\
    Forall2 (fun split_index r =>
               (length (w_heap w) <= r)%nat /\ signed_for w' c split_index r)
      folds copies.
Proof.
  induction folds as [|split_index rest IH];
    intros score0 fitted0 w score fitted_models w' HR.
  - injection HR as <- <- <-. exists []. by rewrite app_nil_r.
  - cbn [cv_loop] in HR.
    apply bind_inv_ok in HR as ([[score_train score_val] fitted] & w1 & E1 & HR).
    destruct (cv_fold_signs _ _ _ _ _ _ _ _ E1) as (Hnew & copy & Hc & Hr & Hs & Hst).
    pose proof (cv_fold_length c list_of_splits split_index w) as Hlen.
    rewrite E1 in Hlen. cbn [snd] in Hlen.
    match type of HR with
    | cv_loop _ _ _ ?sc ?fm _ = _ =>
        pose proof (cv_loop_keeps c list_of_splits rest fitted copy sc fm w1 Hc) as Hc';
        pose proof (grows_cv_loop c list_of_splits rest sc fm w1) as Hg
    end.
    rewrite HR in Hc', Hg. cbn [snd] in Hc', Hg.
    destruct (IH _ _ _ _ _ _ HR) as (copies & -> & H2).
    exists (fitted :: copies). split; [by rewrite <- app_assoc|].
    apply Forall2_cons. split.
    + split; [done|]. exists copy. split; [done|]. split; [done|]. split; [done|].
      destruct Hst as [a Ha]. exists a. by apply Hg.
    + eapply Forall2_impl; [exact H2|]. intros i r [H ?]. split; [lia|done].
Qed.

Lemma cross_validation_copies c w score fitted_models w' :
  cross_validation c w = (Ok (score, fitted_models), w') ->
  Forall2 (fun split_index r =>
             (length (w_heap w) <= r)%nat /\ signed_for w' c split_index r)
    (seq 0 (Z.to_nat (cv_n_splits c))) fitted_models.
Proof.
  intros HR. unfold cross_validation in HR.
  apply bind_inv_ok in HR as ([] & w0 & Ec & HR).
  pose proof (check_input_world c w) as Hw. rewrite Ec in Hw. cbn in Hw. subst w0.
  apply bind_inv_ok in HR as (list_of_splits & w0 & Ep & HR).
  unfold lift in Ep. injection Ep as Ep <-.
  by destruct (cv_loop_signs _ _ _ _ _ _ _ _ _ HR) as (copies & -> & H2).
Qed.

(** X15.  The fitted models that [cross_validation] returns: the one of
    fold [i] is an object made by the call, it can predict, its signature is
    the key of that very object for fold [i], the data set and the fit
    parameters of the call, and the database of the call holds an artifact
    under that key. *)
Theorem cross_validation_signs_models (c : CvConfig) (w w' : World) (score : Scores)
    (fitted_models : list Ref) (i : nat) (r : Ref) :
  cross_validation c w = (Ok (score, fitted_models), w') ->
  fitted_models !! i = Some r ->
  (length (w_heap w) <= r)%nat /\ signed_for w' c i r.
Proof.
  intros HR Hi. apply cross_validation_copies in HR.
  destruct (Forall2_lookup_r _ _ _ _ _ HR Hi) as (j & Hj & H).
  apply lookup_seq in Hj as [-> _]. done.
Qed.


Lemma last_seq n j : last (seq 0 n) = Some j -> S j = n.
Proof.
  rewrite last_lookup, length_seq. intros H. apply lookup_seq in H as [-> H]. lia.
Qed.

(** The loop of a comparison signs the models it visits: the signature of
    a model names the artifact of its last fold, and the database holds it. *)
Lemma compare_loop_signs a db_name dataset_id dataset_name pairs :
  forall train_cv val_cv w train_cv' val_cv' w' r,
  compare_loop a db_name dataset_id dataset_name pairs train_cv val_cv w
  = (Ok (train_cv', val_cv'), w') ->
  (exists o signature,
     w_heap w !! r = Some o /\ o_signature o = Some signature /\
     names_artifact w db_name dataset_id dataset_name (ca_n_splits a - 1) signature) \/
  r ∈ pairs.*1 ->
  exists o signature,
    w_heap w' !! r = Some o /\ o_signature o = Some signature /\
    names_artifact w' db_name dataset_id dataset_name (ca_n_splits a - 1) signature.
Proof.
  induction pairs as [|[model fit_params] rest IH];
    intros train_cv val_cv w train_cv' val_cv' w' r HR Hr.
  - injection HR as <- <- <-. destruct Hr as [Hr|Hr]; [done|]. by apply elem_of_nil in Hr.
  - cbn [compare_loop] in HR.
    set (c := {| cv_model := model; cv_x := ca_x_train a; cv_y := ca_y_train a;
                 cv_db_name := db_name; cv_dataset_id := dataset_id;
                 cv_dataset_name := dataset_name;
                 cv_x_val := ca_x_val a; cv_y_val := ca_y_val a;
                 cv_random_data := ca_random_data a;
                 cv_random_model := ca_random_model a;
                 cv_seed := ca_seed a; cv_n_splits := ca_n_splits a;
                 cv_scoring := ca_scoring a; cv_fit_params := fit_params |}) in *.
    apply bind_inv_ok in HR as ([score fitted_models] & w1 & Ecv & HR).
    apply bind_inv_ok in HR as (final & w1' & Efinal & HR).
    destruct (last fitted_models) as [final'|] eqn:Elast; [|done].
    injection Efinal as -> <-.
    apply bind_inv_ok in HR as (final_o & w1' & [-> Hfinal]%deref_run & HR).
    apply bind_inv_ok in HR as (signature & w1' & [-> Hsig]%getattr_signature_run & HR).
    apply bind_inv_ok in HR as ([] & w2 & Eset & HR).
    (* the signature of the last fold *)
    pose proof (cross_validation_copies c w score fitted_models w1 Ecv) as Hcopies.
    destruct (last_Forall2 _ _ _ _ (proj2 (Forall2_flip _ _ _) Hcopies) Elast)
      as (j & Hj & _ & copy & Hc & _ & Hs & Hst).
    apply last_seq in Hj. cbn [cv_n_splits c] in Hj.
    rewrite Hfinal in Hc. injection Hc as <-.
    rewrite Hsig in Hs. injection Hs as Hs.
    assert (Hnames : names_artifact w1 db_name dataset_id dataset_name (ca_n_splits a - 1)
                       signature).
    { eexists. split; [exact Hs|]. cbn [fingerprint fp_split fp_dataset_id fp_dataset_name].
      split; [lia|]. split; [done|]. split; [done|]. exact Hst. }
    (* the model after the assignment *)
    assert (Hdb2 : w_db w2 = w_db w1).
    { pose proof (same_db_set_signature model signature w1) as H. by rewrite Eset in H. }
    assert (Hmodel : exists om, w_heap w1 !! model = Some om /\
                                w2 = set_heap w1 (<[model := with_signature om signature]>
                                                    (w_heap w1))).
    { destruct (w_heap w1 !! model) as [om|] eqn:Hom.
      - exists om. split; [done|]. rewrite (set_signature_run model om) in Eset by done.
        by injection Eset as <-.
      - unfold set_signature, bind, deref in Eset. by rewrite Hom in Eset. }
    destruct Hmodel as (om & Hom & Ew2).
    assert (Hnames2 : forall sg,
              names_artifact w1 db_name dataset_id dataset_name (ca_n_splits a - 1) sg ->
              names_artifact w2 db_name dataset_id dataset_name (ca_n_splits a - 1) sg).
    { intros sg (fp & ? & ? & ? & ? & Hfp). exists fp. repeat split; try done.
      by rewrite (stored_same_db w1 w2). }
    apply (IH _ _ _ _ _ _ r HR).
    destruct (decide (r = model)) as [->|Hne].
    { left. exists (with_signature om signature), signature.
      split; [|split; [done|by apply Hnames2]].
      rewrite Ew2. cbn [set_heap w_heap]. apply list_lookup_insert_eq.
      by eapply lookup_lt_Some. }
    destruct Hr as [(o & sg & Ho & Hsg & Hn)|Hr].
    + left. exists o, sg.
      assert (Ho1 : w_heap w1 !! r = Some o).
      { destruct (safe_cross_validation [] (w_heap w) c w (keeps_refl [] w)) as [K _].
        rewrite Ecv in K. by eapply keeps_nil. }
      split; [rewrite Ew2; cbn [set_heap w_heap]; by rewrite list_lookup_insert_ne|].
      split; [done|]. apply Hnames2.
      destruct Hn as (fp & ? & ? & ? & ? & [art Hfp]). exists fp. repeat split; try done.
      exists art. pose proof (grows_cross_validation c w db_name fp art Hfp) as Hgrow.
      by rewrite Ecv in Hgrow.
    + right. cbn [fmap list_fmap fst] in Hr. apply elem_of_cons in Hr as [?|Hr]; done.
Qed.

(** The rows of the summary carry the signatures of the models. *)
Lemma summary_rows_signatures a models :
  forall index results w rows w',
  summary_rows a models index results w = (Ok rows, w') ->
  w' = w /\
  exists new,
    rows = results ++ new /\
    Forall2 (fun model row => exists o, w_heap w !! model = Some o /\
                                        o_signature o = Some (r_model row)) models new.
Proof.
  induction models as [|model rest IH]; intros index results w rows w' HR.
  - injection HR as <- <-. split; [done|]. exists []. by rewrite app_nil_r.
  - cbn [summary_rows] in HR.
    apply bind_inv_ok in HR as (val & w1 & [-> Hval]%list_index_run & HR).
    apply bind_inv_ok in HR as (ci_bounds & w2 & [-> Hci]%lift_run & HR).
    apply bind_inv_ok in HR as (o & w3 & [-> Ho]%deref_run & HR).
    apply bind_inv_ok in HR as (signature & w4 & [-> Hsig]%getattr_signature_run & HR).
    apply bind_inv_ok in HR as (train & w5 & [-> Htrain]%list_index_run & HR).
    apply bind_inv_ok in HR as (pvalue & w6 & [-> Hpvalue]%list_index_run & HR).
    apply IH in HR as (-> & new & -> & H2). split; [done|].
    eexists (_ :: new). split; [by rewrite <- app_assoc|].
    apply Forall2_cons. split; [|done]. by exists o.
Qed.

(** X16.  The column of the models of the table of [compare_models]: every
    row names, as the signature of its model, an artifact that the database
    of the comparison holds when the call returns, stored under a key of the
    data set of the comparison and of the last fold. *)
Theorem compare_models_table_names_artifacts (models : list Ref)
    (params : list (gmap string Value)) (a : CompareArgs) (w w' : World)
    (results : list Row) :
  compare_models models params a w = (Ok results, w') ->
  Forall (fun row =>
            names_artifact w' (effective_db_name a) (effective_dataset_id a)
              (effective_dataset_name a) (ca_n_splits a - 1) (r_model row)) results.
Proof.
  intros HR. unfold compare_models in HR.
  apply bind_inv_ok in HR as ([dataset_id db_name] & w0 & E0 & HR).
  assert (Eids : dataset_id = effective_dataset_id a /\ db_name = effective_db_name a).
  { unfold effective_dataset_id, effective_db_name.
    destruct (not_dataset_id (ca_dataset_id a)).
    - apply bind_inv_ok in E0 as ([] & w00 & _ & E0). by injection E0 as <- <- _.
    - by injection E0 as <- <- _. }
  destruct Eids as [-> ->]. clear E0.
  fold (effective_dataset_name a) in HR.
  unfold compare_with in HR.
  apply bind_inv_ok in HR as ([train_cv val_cv] & w1 & Eloop & HR).
  apply bind_inv_ok in HR
    as ([[best_sol best_solutions] pvalues] & w1' & [-> Ebest]%lift_run & HR).
  apply bind_inv_ok in HR as (rows & w2 & Erows & HR).
  apply bind_inv_ok in HR as ([] & w3 & Elog & HR).
  injection HR as <- <-. unfold log in Elog. injection Elog as <-.
  unfold _compute_result_summary in Erows.
  assert (Hlen : (length models <= length params)%nat).
  { apply compare_loop_length in Eloop. rewrite length_zip in Eloop.
    apply summary_rows_length in Erows as [[-> | H1] _]; cbn in *; lia. }
  assert (Hfst : (zip models params).*1 = models) by (by apply fst_zip).
  destruct (summary_rows_signatures _ _ _ _ _ _ _ Erows) as (-> & new & -> & H2).
  cbn [app]. apply Forall_forall. intros row Hrow.
  apply list_elem_of_lookup in Hrow as [i Hi].
  destruct (Forall2_lookup_r _ _ _ _ _ H2 Hi) as (model & Hm & o & Ho & Hsig).
  assert (Hin : model ∈ (zip models params).*1).
  { rewrite Hfst. by eapply list_elem_of_lookup_2. }
  destruct (compare_loop_signs _ _ _ _ _ _ _ _ _ _ _ model Eloop (or_intror Hin))
    as (o1 & sg & Ho1 & Hsg & fp & ? & ? & ? & ? & Hfp).
  rewrite Ho in Ho1. injection Ho1 as <-. rewrite Hsig in Hsg. injection Hsg as <-.
  exists fp. repeat split; done.
Qed.

End Signatures.

Lemma cross_validation_signs_models_witness :
  cross_validation toy_cv toy_world = (Ok (toy_cv_scores, [4; 7]%nat), toy_cv_world) /\
  [4; 7]%nat !! 1%nat = Some 7%nat /\
  (length (w_heap toy_world) <= 7)%nat /\ signed_for toy_cv_world toy_cv 1 7.
Proof.
  assert (H1 : cross_validation toy_cv toy_world
               = (Ok (toy_cv_scores, [4; 7]%nat), toy_cv_world))
    by (vm_compute; reflexivity).
  assert (H2 : [4; 7]%nat !! 1%nat = Some 7%nat) by reflexivity.
  split; [exact H1|]. split; [exact H2|].
  exact (cross_validation_signs_models toy_cv toy_world toy_cv_world toy_cv_scores
           [4; 7]%nat 1 7 H1 H2).
Defined.

Lemma compare_models_table_names_artifacts_witness :
  exists results w',
    compare_models [0%nat; 1%nat] [∅; ∅] toy_args toy_world = (Ok results, w') /\
    Forall (fun row =>
              names_artifact w' (effective_db_name toy_args) (effective_dataset_id toy_args)
                (effective_dataset_name toy_args) (ca_n_splits toy_args - 1) (r_model row))
      results.
Proof.
  destruct (compare_models [0%nat; 1%nat] [∅; ∅] toy_args toy_world)
    as [[results|e] w'] eqn:H; [|by vm_compute in H].
  exists results, w'. split; [reflexivity|].
  exact (compare_models_table_names_artifacts [0%nat; 1%nat] [∅; ∅] toy_args toy_world w'
           results H).
Defined.
